(** * Kube Nukem: removing a CRD and its stuck resources

    A shallow embedding of [main.go].  The repository holds two revisions of
    that file; both are embedded, the earlier one in module [V1] and the
    current one in module [V2].  What the two revisions share word for word
    ([getAPIVersion], the loop over the listed objects, the loop of [main]
    over the command line) is defined once.

    The Kubernetes API server is an external collaborator: the program only
    sees it through [client.Get], [client.Delete], [client.List] and
    [client.Patch].  It is modelled as an arbitrary state machine (class
    [Client]); every function of the program is a computation that threads
    the state of the cluster and writes down, in order, the API calls it
    issued (with their outcome), the time it spent waiting and the lines it
    logged.

    Two more things are not in the hands of the program: the signal that
    cancels the context of [main], with the order in which a tick and a
    deadline that fall together are seen (class [Ctx]), and the case tables
    of the Unicode standard behind [strings.ToLower] (class [Unicode]).
    Nothing is assumed about either. *)

From Stdlib Require Import List String Ascii ZArith Bool Lia.
Import ListNotations.
Open Scope string_scope.
Open Scope Z_scope.

Set Warnings "-register-all".

(** ** Errors *)

(** What the program asks about an error coming back from the client:
    [kerrors.IsNotFound] and [wait.Interrupted].  The error of a call on the
    client is kept as its reason and its text: the API server has answered
    not-found, or the call was cut short because the context passed to it
    was cancelled or ran out of time ([ReasonContextDone]), or anything
    else.  [Canceled] and [DeadlineExceeded] are [context.Canceled] and
    [context.DeadlineExceeded] themselves, as [ctx.Err()] returns them. *)
Inductive Reason : Type :=
| ReasonNotFound
| ReasonContextDone
| ReasonOther.

Inductive error : Type :=
| ClientError (reason : Reason) (msg : string)
| Canceled
| DeadlineExceeded
| ErrorfNew (msg : string)
| ErrorfWrap (prefix : string) (cause : error).

(** [err.Error()] *)
Fixpoint Error (e : error) : string :=
  match e with
  | ClientError _ msg => msg
  | Canceled => "context canceled"
  | DeadlineExceeded => "context deadline exceeded"
  | ErrorfNew msg => msg
  | ErrorfWrap prefix cause => prefix ++ Error cause
  end.

(** [kerrors.IsNotFound(err)]: looks through [%w] wrappers for an API status
    whose reason is NotFound. *)
Fixpoint IsNotFound (e : error) : bool :=
  match e with
  | ClientError ReasonNotFound _ => true
  | ErrorfWrap _ cause => IsNotFound cause
  | _ => false
  end.

(** [wait.Interrupted(err)]: the error is, or wraps, a cancelled context or a
    passed deadline. *)
Fixpoint Interrupted (e : error) : bool :=
  match e with
  | ClientError ReasonContextDone _ => true
  | Canceled => true
  | DeadlineExceeded => true
  | ErrorfWrap _ cause => Interrupted cause
  | _ => false
  end.

(** [fmt.Errorf("CRD has no version marked as `served`")] *)
Definition NoServedVersion : error :=
  ErrorfNew "CRD has no version marked as `served`".

Inductive result (A : Type) : Type :=
| Ok (a : A)
| Err (e : error).
Arguments Ok {A} a.
Arguments Err {A} e.

(** ** Data model *)

Inductive ResourceScope : Type :=
| NamespaceScoped
| ClusterScoped.

Record CustomResourceDefinitionVersion : Type := {
  ver_Name : string;
  ver_Served : bool
}.

(** [apiextensionsv1.CustomResourceDefinition], with the fields the program
    reads: [Name], [Spec.Group], [Spec.Names.Kind], [Spec.Scope] and
    [Spec.Versions]. *)
Record CustomResourceDefinition : Type := {
  crd_Name : string;
  spec_Group : string;
  spec_Kind : string;
  spec_Scope : ResourceScope;
  spec_Versions : list CustomResourceDefinitionVersion
}.

Record Namespace : Type := {
  ns_Name : string
}.

(** An [unstructured.Unstructured] is a [map[string]interface{}]: a tree of
    fields keyed by strings.  A map is kept as an association list; a lookup
    takes the first binding of a key and a delete removes every binding. *)
Inductive value : Type :=
| VNil
| VBool (b : bool)
| VNumber (n : Z)
| VString (s : string)
| VSlice (l : list value)
| VMap (m : list (string * value)).

Definition Object : Type := list (string * value).

Record Unstructured : Type := {
  u_Object : Object
}.

Fixpoint lookup (k : string) (m : Object) : option value :=
  match m with
  | [] => None
  | (k', v) :: rest => if String.eqb k k' then Some v else lookup k rest
  end.

Fixpoint remove (k : string) (m : Object) : Object :=
  match m with
  | [] => []
  | (k', v) :: rest =>
      if String.eqb k k' then remove k rest else (k', v) :: remove k rest
  end.

Fixpoint replace (k : string) (v : value) (m : Object) : Object :=
  match m with
  | [] => []
  | (k', v') :: rest =>
      if String.eqb k k' then (k', v) :: rest else (k', v') :: replace k v rest
  end.

(** [m["metadata"].(map[string]interface{})] *)
Definition metadata (u : Unstructured) : option Object :=
  match lookup "metadata" (u_Object u) with
  | Some (VMap m) => Some m
  | _ => None
  end.

(** [NestedString(u.Object, "metadata", field)], the empty string when the
    field is missing or is not a string. *)
Definition getNestedString (u : Unstructured) (field : string) : string :=
  match metadata u with
  | Some m => match lookup field m with
              | Some (VString s) => s
              | _ => ""
              end
  | None => ""
  end.

Definition GetName (u : Unstructured) : string := getNestedString u "name".
Definition GetNamespace (u : Unstructured) : string :=
  getNestedString u "namespace".

(** The elements of a slice when all of them are strings. *)
Fixpoint stringSlice (l : list value) : option (list string) :=
  match l with
  | [] => Some []
  | VString s :: rest =>
      match stringSlice rest with
      | Some ss => Some (s :: ss)
      | None => None
      end
  | _ :: _ => None
  end.

(** [u.GetFinalizers()]: [NestedStringSlice(u.Object, "metadata",
    "finalizers")], nil when the field is missing or is not a slice of
    strings. *)
Definition GetFinalizers (u : Unstructured) : list string :=
  match metadata u with
  | Some m => match lookup "finalizers" m with
              | Some (VSlice l) => match stringSlice l with
                                   | Some ss => ss
                                   | None => []
                                   end
              | _ => []
              end
  | None => []
  end.

(** [u.SetFinalizers(nil)], the only way the program calls it: with a nil
    slice it is [RemoveNestedField(u.Object, "metadata", "finalizers")], which
    does nothing when there is no metadata map. *)
Definition SetFinalizers_nil (u : Unstructured) : Unstructured :=
  match metadata u with
  | Some m =>
      {| u_Object := replace "metadata" (VMap (remove "finalizers" m))
                       (u_Object u) |}
  | None => u
  end.

(** [u.DeepCopy()]: values are immutable here, a copy is the value itself. *)
Definition DeepCopy (u : Unstructured) : Unstructured := u.

(** ** API calls, events and the client *)

(** [ctrlruntimeclient.MergeFrom(obj)] *)
Inductive Patch : Type :=
| MergeFrom (original : Unstructured).

(** The [opts ...ListOption] of an object list: either nothing, or
    [&ListOptions{Namespace: ns}]. *)
Definition ListOptions : Type := option string.

Inductive Call : Type :=
| CallGet (name : string)
| CallDelete (crd : CustomResourceDefinition)
| CallListNamespaces
| CallListObjects (apiVersion kind : string) (opts : ListOptions)
| CallPatch (obj : Unstructured) (patch : Patch).

Inductive Level : Type :=
| DebugLevel
| InfoLevel
| WarnLevel
| ErrorLevel
| FatalLevel.

(** A [logrus.FieldLogger] is the list of the fields added by [WithField]. *)
Definition Logger : Type := list (string * string).

Definition WithField (log : Logger) (key val : string) : Logger :=
  (log ++ [(key, val)])%list.

Inductive Event : Type :=
| Api (call : Call) (err : option error)
| Wait (milliseconds : Z)
| Log (level : Level) (fields : Logger) (msg : string).

(** The cluster as the program sees it.  [W] is the state of the cluster (and
    of everything else that decides what a call returns); a call maps it to
    the answer and the next state.  A list call that fails leaves the list
    object it was given as it was: empty. *)
Class Client (W : Type) : Type := {
  client_Get : string -> W -> result CustomResourceDefinition * W;
  client_Delete : CustomResourceDefinition -> W -> option error * W;
  client_ListNamespaces : W -> result (list Namespace) * W;
  client_ListObjects :
    string -> string -> ListOptions -> W -> result (list Unstructured) * W;
  client_Patch : Unstructured -> Patch -> W -> option error * W
}.

(** The context [ctx] that [main] hands down, as a wait on it sees it.  In
    the current revision it is the context of [signals.SetupSignalHandler],
    cancelled by SIGINT or SIGTERM.  When and whether the signal comes is
    not in the hands of the program, and neither is which of a tick and a
    deadline that fall on the same instant is seen first; both are read off
    the state [W], like the answers of the cluster.

    [ctx_signal w] is [Some d] if, from the moment the program starts to
    wait in state [w], the signal comes after [d] milliseconds (nought or
    less: it has come already), and [None] if it does not come while the
    program waits.  [ctx_deadlineFirst w] says, for a wait in state [w]
    whose tick falls on the deadline of the context, whether the expiry of
    the deadline is seen before the tick is served: the deadline and the
    ticker are set one right after the other, and when the timeout is a
    multiple of the period it is the scheduler that decides which of the
    two the loop sees first. *)
Class Ctx (W : Type) : Type := {
  ctx_signal : W -> option Z;
  ctx_deadlineFirst : W -> bool
}.

(** [strings.Map(unicode.ToLower, s)]: the lower-casing of a string by the
    case tables of the Unicode standard.  The tables belong to the Go
    library and are not reproduced here; everything below holds whatever
    they say. *)
Class Unicode : Type := {
  Map_unicode_ToLower : string -> string
}.

(** The outcome of a call as the trace keeps it. *)
Definition errorOf {A : Type} (r : result A) : option error :=
  match r with
  | Ok _ => None
  | Err e => Some e
  end.

(** ** Computations *)

Section Computations.

Context {W : Type}.

(** A computation returns its value, the next state of the cluster and the
    events it produced, oldest first. *)
Definition M (A : Type) : Type := W -> A * W * list Event.

Definition ret {A : Type} (a : A) : M A := fun w => (a, w, []).

Definition bind {A B : Type} (m : M A) (k : A -> M B) : M B :=
  fun w =>
    let '(a, w1, t1) := m w in
    let '(b, w2, t2) := k a w1 in
    (b, w2, (t1 ++ t2)%list).

Definition emit (e : Event) : M unit := fun w => (tt, w, [e]).

Definition value_of {A : Type} (r : A * W * list Event) : A := fst (fst r).
Definition world_of {A : Type} (r : A * W * list Event) : W := snd (fst r).
Definition trace_of {A : Type} (r : A * W * list Event) : list Event := snd r.

End Computations.

Notation "x <- m ;; k" := (bind m (fun x => k))
  (at level 61, m at next level, right associativity).
Notation "m ;; k" := (bind m (fun _ => k))
  (at level 61, right associativity).

(** ** The program: what both revisions share *)

(** [strings.ToLower].  A string of ASCII bytes only is lower-cased byte
    by byte, [A] to [Z] becoming [a] to [z]; a string with a byte from 0x80
    on goes through [strings.Map(unicode.ToLower, s)]. *)
Definition lowerAscii (c : ascii) : ascii :=
  let n := nat_of_ascii c in
  if ((65 <=? n) && (n <=? 90))%nat then ascii_of_nat (n + 32) else c.

Fixpoint isASCII (s : string) : bool :=
  match s with
  | EmptyString => true
  | String c rest => (nat_of_ascii c <? 128)%nat && isASCII rest
  end.

Fixpoint lowerBytes (s : string) : string :=
  match s with
  | EmptyString => EmptyString
  | String c rest => String (lowerAscii c) (lowerBytes rest)
  end.

Definition ToLower {unicode : Unicode} (s : string) : string :=
  if isASCII s then lowerBytes s else Map_unicode_ToLower s.

(** The loop of [getAPIVersion] over [crd.Spec.Versions]. *)
Fixpoint getAPIVersion_loop (group : string)
    (versions : list CustomResourceDefinitionVersion) : result string :=
  match versions with
  | [] => Err NoServedVersion
  | version :: rest =>
      if ver_Served version
      then Ok (group ++ "/" ++ ver_Name version)
      else getAPIVersion_loop group rest
  end.

Definition getAPIVersion (crd : CustomResourceDefinition) : result string :=
  getAPIVersion_loop (spec_Group crd) (spec_Versions crd).

Section Program.

Context {W : Type} {client : Client W} {ctx : Ctx W} {unicode : Unicode}.

(** *** The calls on the client and the logger *)

Definition Get (name : string) : M (result CustomResourceDefinition) :=
  fun w =>
    let (r, w') := client_Get name w in
    (r, w', [Api (CallGet name) (errorOf r)]).

Definition Delete (crd : CustomResourceDefinition) : M (option error) :=
  fun w =>
    let (r, w') := client_Delete crd w in
    (r, w', [Api (CallDelete crd) r]).

Definition ListNamespaces : M (result (list Namespace)) :=
  fun w =>
    let (r, w') := client_ListNamespaces w in
    (r, w', [Api CallListNamespaces (errorOf r)]).

Definition ListObjects (apiVersion kind : string) (opts : ListOptions)
  : M (result (list Unstructured)) :=
  fun w =>
    let (r, w') := client_ListObjects apiVersion kind opts w in
    (r, w', [Api (CallListObjects apiVersion kind opts) (errorOf r)]).

Definition PatchObject (obj : Unstructured) (patch : Patch)
  : M (option error) :=
  fun w =>
    let (r, w') := client_Patch obj patch w in
    (r, w', [Api (CallPatch obj patch) r]).

Definition logf (level : Level) (log : Logger) (msg : string) : M unit :=
  emit (W := W) (Log level log msg).

(** [time.Sleep], and the wait for the next tick of a poll. *)
Definition Sleep (milliseconds : Z) : M unit :=
  emit (W := W) (Wait milliseconds).

(** *** The loop over the listed objects

    Lines 153-171 of the first revision and 381-399 of the second, the
    same text in both. *)

Definition objIdent (obj : Unstructured) : string :=
  let ident := GetName obj in
  let ns := GetNamespace obj in
  if (0 <? String.length ns)%nat then ns ++ "/" ++ ident else ident.

Fixpoint removeResourcesWithOpts_loop (log : Logger) (items : list Unstructured)
  : M (option error) :=
  match items with
  | [] => ret None
  | obj :: rest =>
      if (List.length (GetFinalizers obj) =? 0)%nat
      then removeResourcesWithOpts_loop log rest
      else
        logf DebugLevel (WithField log "resource" (objIdent obj)) "Nuking…" ;;
        let oldObj := DeepCopy obj in
        let obj' := SetFinalizers_nil obj in
        err <- PatchObject obj' (MergeFrom oldObj) ;;
        match err with
        | Some err =>
            ret (Some (ErrorfWrap
                         ("failed to delete " ++ objIdent obj ++ ": ") err))
        | None => removeResourcesWithOpts_loop log rest
        end
  end.

(** *** [main], from the test of [flag.NArg()] on

    Lines 42-76 and 261-295, without the set-up of the client in between:
    the client is given.  [nukeCRD] is the function of the revision at
    hand; the result is the exit status of the process ([log.Fatal] exits
    with status 1). *)

Section Main.

Variable nukeCRD : Logger -> string -> M (W := W) (option error).

Fixpoint main_loop (log : Logger) (args : list string) (success : bool)
  : M bool :=
  match args with
  | [] => ret success
  | crdName :: rest =>
      let crdName := ToLower crdName in
      let crdLog := WithField log "crd" crdName in
      err <- nukeCRD crdLog crdName ;;
      match err with
      | Some err =>
          logf ErrorLevel crdLog ("Failed to nuke: " ++ Error err) ;;
          main_loop log rest true
      | None => main_loop log rest success
      end
  end.

Definition main_with (args : list string) : M Z :=
  let log : Logger := [] in
  if (List.length args =? 0)%nat
  then logf FatalLevel log "No CRD names provided." ;; ret 1
  else
    success <- main_loop log args false ;;
    if success : bool
    then logf InfoLevel log "Everything nuked successfully." ;; ret 0
    else ret 1.

End Main.

(** *** [wait.PollUntilContextTimeout]

    The library function of k8s.io/apimachinery, in virtual time: a call
    on the client takes no time, the clock only moves while the loop waits.
    [PollUntilContextTimeout] derives a context with the deadline [timeout]
    from [ctx] and hands it to [loopConditionUntilContext] with a ticker of
    period [interval].  That loop runs the condition at once when
    [immediate] is set, without a look at the context, and then keeps
    doing this: it waits for the context to be done or for the next tick,
    whichever comes first; it returns [ctx.Err()] if the context is done,
    also when the tick has been the one it woke up for; and else it runs
    the condition.  It stops at the first run of the condition that says
    done or fails. *)

Definition ConditionFunc : Type := M (W := W) (bool * option error).

(** One wait of the loop: the [select] on [ctx.Done()] and the ticker, and
    the test of [ctx.Err()] that follows it.  The next tick is [interval]
    away and the deadline [remaining]; the result is the error of the
    context if the context is done, nothing if the tick is to be served.
    The context is done with [Canceled] if the signal comes before the
    tick and before the deadline, and with [DeadlineExceeded] if the
    deadline comes before the tick or, when the two fall together, if its
    expiry is seen first. *)
Definition awaitTick (interval remaining : Z) : M (option error) :=
  fun w =>
    let next := Z.min interval remaining in
    let signalled :=
      match ctx_signal w with
      | Some d => if d <? next then Some d else None
      | None => None
      end in
    match signalled with
    | Some d => (Some Canceled, w, [Wait (Z.max 0 d)])
    | None =>
        if (remaining <? interval)
           || ((remaining =? interval) && ctx_deadlineFirst w)
        then (Some DeadlineExceeded, w, [Wait (Z.max 0 remaining)])
        else (None, w, [Wait interval])
    end.

(** The [for] of the loop.  [rounds] bounds the number of its rounds; a
    round that serves its tick brings the deadline nearer by [interval], so
    with more rounds than ticks up to the deadline the bound is never what
    ends the loop. *)
Fixpoint loopConditionUntilContext (rounds : nat) (interval remaining : Z)
    (condition : ConditionFunc) : M (option error) :=
  match rounds with
  | O => ret (Some DeadlineExceeded)
  | S rounds' =>
      done <- awaitTick interval remaining ;;
      match done with
      | Some err => ret (Some err)
      | None =>
          r <- condition ;;
          match r with
          | (_, Some err) => ret (Some err)
          | (true, None) => ret None
          | (false, None) =>
              loopConditionUntilContext rounds' interval
                (remaining - interval) condition
          end
      end
  end.

Definition PollUntilContextTimeout (interval timeout : Z) (immediate : bool)
    (condition : ConditionFunc) : M (option error) :=
  let rounds := S (Z.to_nat (timeout / interval)) in
  if immediate
  then
    r <- condition ;;
    match r with
    | (_, Some err) => ret (Some err)
    | (true, None) => ret None
    | (false, None) =>
        loopConditionUntilContext rounds interval timeout condition
    end
  else loopConditionUntilContext rounds interval timeout condition.

End Program.

(** ** The first revision (lines 1-184) *)

Module V1.
Section Program.

Context {W : Type} {client : Client W} {ctx : Ctx W} {unicode : Unicode}.

Definition removeResourcesWithOpts (log : Logger)
    (crd : CustomResourceDefinition) (opts : ListOptions)
  : M (option error) :=
  match getAPIVersion crd with
  | Err err => ret (Some err)
  | Ok apiVersion =>
      r <- ListObjects apiVersion (spec_Kind crd) opts ;;
      match r with
      | Err err => ret (Some (ErrorfWrap "failed to list objects: " err))
      | Ok items => removeResourcesWithOpts_loop log items
      end
  end.

(** The loop of [removeResources] over [nsList.Items]. *)
Fixpoint removeResources_loop (log : Logger)
    (crd : CustomResourceDefinition) (namespaces : list Namespace)
  : M (option error) :=
  match namespaces with
  | [] => ret None
  | namespace :: rest =>
      let opt := Some (ns_Name namespace) in
      err <- removeResourcesWithOpts log crd opt ;;
      match err with
      | Some err => ret (Some err)
      | None => removeResources_loop log crd rest
      end
  end.

Definition removeResources (log : Logger) (crd : CustomResourceDefinition)
  : M (option error) :=
  match spec_Scope crd with
  | NamespaceScoped =>
      r <- ListNamespaces ;;
      match r with
      | Err err => ret (Some (ErrorfWrap "failed to list namespaces: " err))
      | Ok items =>
          err <- removeResources_loop log crd items ;;
          match err with
          | Some err => ret (Some err)
          | None => removeResourcesWithOpts log crd None
          end
      end
  | ClusterScoped => removeResourcesWithOpts log crd None
  end.

Definition nukeCRD (log : Logger) (crdName : string) : M (option error) :=
  logf InfoLevel log "Nuking…" ;;
  r <- Get crdName ;;
  match r with
  | Err err =>
      if IsNotFound err
      then logf DebugLevel log "CRD does not exist." ;; ret None
      else ret (Some (ErrorfWrap "failed to retrieve CRD: " err))
  | Ok crd =>
      err <- Delete crd ;;
      match err with
      | Some err =>
          ret (Some (ErrorfWrap "failed to delete CRD resource: " err))
      | None =>
          err <- removeResources log crd ;;
          match err with
          | Some err => ret (Some err)
          | None =>
              Sleep 3000 ;;
              r <- Get crdName ;;
              match r with
              | Err err =>
                  if negb (IsNotFound err)
                  then ret (Some (ErrorfWrap
                               "failed to check final CRD existence: " err))
                  else ret None
              | Ok _ =>
                  logf WarnLevel log
                    "CRD still exists, some resources might be blocked by owner references to them." ;;
                  ret None
              end
          end
      end
  end.

Definition main (args : list string) : M Z := main_with nukeCRD args.

End Program.
End V1.

(** ** The second revision (lines 185-412) *)

Module V2.
Section Program.

Context {W : Type} {client : Client W} {ctx : Ctx W} {unicode : Unicode}.

Definition removeResourcesWithOpts (log : Logger)
    (crd : CustomResourceDefinition) (opts : ListOptions)
  : M (option error) :=
  match getAPIVersion crd with
  | Err err => ret (Some err)
  | Ok apiVersion =>
      r <- ListObjects apiVersion (spec_Kind crd) opts ;;
      match r with
      | Err err =>
          if negb (IsNotFound err)
          then ret (Some (ErrorfWrap "failed to list objects: " err))
          else removeResourcesWithOpts_loop log []
      | Ok items => removeResourcesWithOpts_loop log items
      end
  end.

(** The loop of [removeResources] over [nsList.Items]. *)
Fixpoint removeResources_loop (log : Logger)
    (crd : CustomResourceDefinition) (namespaces : list Namespace)
  : M (option error) :=
  match namespaces with
  | [] => ret None
  | namespace :: rest =>
      let opt := Some (ns_Name namespace) in
      err <- removeResourcesWithOpts log crd opt ;;
      match err with
      | Some err => ret (Some err)
      | None => removeResources_loop log crd rest
      end
  end.

Definition removeResources (log : Logger) (crd : CustomResourceDefinition)
  : M (option error) :=
  match spec_Scope crd with
  | NamespaceScoped =>
      r <- ListNamespaces ;;
      match r with
      | Err err =>
          if negb (IsNotFound err)
          then ret (Some (ErrorfWrap "failed to list namespaces: " err))
          else removeResources_loop log crd []
      | Ok items => removeResources_loop log crd items
      end
  | ClusterScoped => removeResourcesWithOpts log crd None
  end.

(** The condition polled by [nukeCRD]. *)
Definition crdGone (crdName : string) : ConditionFunc :=
  r <- Get crdName ;;
  match r with
  | Ok _ => ret (false, None)
  | Err err =>
      if IsNotFound err then ret (true, None) else ret (false, Some err)
  end.

Definition nukeCRD (log : Logger) (crdName : string) : M (option error) :=
  logf InfoLevel log "Nuking…" ;;
  r <- Get crdName ;;
  match r with
  | Err err =>
      if IsNotFound err
      then logf DebugLevel log "CRD does not exist." ;; ret None
      else ret (Some (ErrorfWrap "failed to retrieve CRD: " err))
  | Ok crd =>
      err <- Delete crd ;;
      match err with
      | Some err =>
          ret (Some (ErrorfWrap "failed to delete CRD resource: " err))
      | None =>
          err <- removeResources log crd ;;
          match err with
          | Some err => ret (Some err)
          | None =>
              err <- PollUntilContextTimeout 100 5000 true
                       (crdGone crdName) ;;
              match err with
              | Some err =>
                  if Interrupted err
                  then
                    logf WarnLevel log
                      "CRD still exists, some resources might be blocked by owner references to them." ;;
                    ret None
                  else ret (Some (ErrorfWrap
                               "failed to check final CRD existence: " err))
              | None => ret None
              end
          end
      end
  end.

Definition main (args : list string) : M Z := main_with nukeCRD args.

End Program.
End V2.

(** ** Reading a run *)

(** The API calls of a trace, in order. *)
Fixpoint calls (tr : list Event) : list Call :=
  match tr with
  | [] => []
  | Api c _ :: rest => c :: calls rest
  | _ :: rest => calls rest
  end.

Definition isListCall (c : Call) : bool :=
  match c with
  | CallListNamespaces | CallListObjects _ _ _ => true
  | _ => false
  end.

Definition isPatchCall (c : Call) : bool :=
  match c with
  | CallPatch _ _ => true
  | _ => false
  end.

Definition isDeleteCall (c : Call) : bool :=
  match c with
  | CallDelete _ => true
  | _ => false
  end.

(** The lines logged at a level. *)
Fixpoint logged (level : Level) (tr : list Event) : list string :=
  match tr with
  | [] => []
  | Log l _ msg :: rest =>
      match level, l with
      | DebugLevel, DebugLevel | InfoLevel, InfoLevel | WarnLevel, WarnLevel
      | ErrorLevel, ErrorLevel | FatalLevel, FatalLevel =>
          msg :: logged level rest
      | _, _ => logged level rest
      end
  | _ :: rest => logged level rest
  end.

(** The time spent waiting, in milliseconds. *)
Fixpoint waited (tr : list Event) : Z :=
  match tr with
  | [] => 0
  | Wait d :: rest => d + waited rest
  | _ :: rest => waited rest
  end.

(** Every call that failed in a trace was a list call, and it failed with
    not-found. *)
Definition onlyListNotFound (tr : list Event) : Prop :=
  forall c e,
    In (Api c (Some e)) tr -> isListCall c = true /\ IsNotFound e = true.

(** The fetches of a convergence wait as events: the first one at once, each
    later one after a tick of 100 milliseconds.  [outcomes] are the outcomes
    of the fetches, in order. *)
Fixpoint laterFetches (crdName : string) (outcomes : list (option error))
  : list Event :=
  match outcomes with
  | [] => []
  | o :: rest =>
      Wait 100 :: Api (CallGet crdName) o :: laterFetches crdName rest
  end.

Definition pollFetches (crdName : string) (outcomes : list (option error))
  : list Event :=
  match outcomes with
  | [] => []
  | o :: rest => Api (CallGet crdName) o :: laterFetches crdName rest
  end.

(** The line logged when the CRD is still there at the end. *)
Definition stillExists : string :=
  "CRD still exists, some resources might be blocked by owner references to them.".

(** What [nukeCRD] does before the sweep when the CRD is there and the
    delete goes through. *)
Definition fetchedAndDeleted (log : Logger) (crdName : string)
    (crd : CustomResourceDefinition) : list Event :=
  [Log InfoLevel log "Nuking…"; Api (CallGet crdName) None;
   Api (CallDelete crd) None].

(** A failed patch, wherever it is in the trace, is the last event of the
    trace, and the result is the error that names the patched object. *)
Definition abortsOnFailedPatch (r : option error) (tr : list Event) : Prop :=
  forall before obj patch e after,
    tr = (before ++ Api (CallPatch obj patch) (Some e) :: after)%list ->
    after = []
    /\ exists original,
         patch = MergeFrom original
         /\ obj = SetFinalizers_nil original
         /\ r = Some (ErrorfWrap
                        ("failed to delete " ++ objIdent original ++ ": ") e).

(** Does the sweep have to patch this object? *)
Definition hasFinalizers (u : Unstructured) : bool :=
  negb (List.length (GetFinalizers u) =? 0)%nat.

(** [list.Items] after a list call: what the call listed, nothing when it
    failed. *)
Definition listed {A S : Type} (r : result (list A) * S) : list A :=
  match fst r with
  | Ok items => items
  | Err _ => []
  end.

(** The API version [removeResourcesWithOpts] puts into the object list. *)
Definition apiVersionOf (crd : CustomResourceDefinition) : string :=
  match getAPIVersion crd with
  | Ok apiVersion => apiVersion
  | Err _ => ""
  end.

(** The object list call of a sweep, for one namespace or for all. *)
Definition listIn (crd : CustomResourceDefinition) (ns : Namespace) : Call :=
  CallListObjects (apiVersionOf crd) (spec_Kind crd) (Some (ns_Name ns)).

Definition listAll (crd : CustomResourceDefinition) : Call :=
  CallListObjects (apiVersionOf crd) (spec_Kind crd) None.

(** The patch call of the sweep for one listed object. *)
Definition patchOf (obj : Unstructured) : Call :=
  CallPatch (SetFinalizers_nil obj) (MergeFrom obj).

(** The runs of [nukeCRD] that a run of [main] is made of: for each target
    of the command line, in order and each from the state the one before
    left, the error returned and the events. *)
Section TargetRuns.

Context {W : Type} {unicode : Unicode}.

Variable nukeCRD : Logger -> string -> M (W := W) (option error).

Fixpoint targetRuns (log : Logger) (args : list string) (w : W)
  : list (option error * list Event) :=
  match args with
  | [] => []
  | crdName :: rest =>
      let crdName := ToLower crdName in
      let '(r, w', tr) := nukeCRD (WithField log "crd" crdName) crdName w in
      (r, tr) :: targetRuns log rest w'
  end.

End TargetRuns.

Definition failed (run : option error * list Event) : bool :=
  match fst run with
  | Some _ => true
  | None => false
  end.

(** ** The body of a merge patch

    What [MergeFrom(original)] makes of the object it is given: the JSON
    merge patch from [original] to the object, as the patch library computes
    it.  A field that is new or has changed is in the patch with its new
    value, a map that has changed with the patch of the map; a field that is
    gone is in the patch as null; a field that is the same is not in it. *)

Fixpoint value_eqb (a b : value) {struct a} : bool :=
  match a, b with
  | VNil, VNil => true
  | VBool x, VBool y => Bool.eqb x y
  | VNumber x, VNumber y => Z.eqb x y
  | VString x, VString y => String.eqb x y
  | VSlice xs, VSlice ys =>
      (fix all (xs ys : list value) {struct xs} : bool :=
         match xs, ys with
         | [], [] => true
         | x :: xs', y :: ys' => value_eqb x y && all xs' ys'
         | _, _ => false
         end) xs ys
  | VMap xs, VMap ys =>
      (fix all (xs ys : Object) {struct xs} : bool :=
         match xs, ys with
         | [], [] => true
         | (k, x) :: xs', (k', y) :: ys' =>
             String.eqb k k' && value_eqb x y && all xs' ys'
         | _, _ => false
         end) xs ys
  | _, _ => false
  end.

(** The fields of [a] that are not in [b]: they are patched to null. *)
Fixpoint removedFields (a b : Object) : Object :=
  match a with
  | [] => []
  | (k, _) :: rest =>
      match lookup k b with
      | None => (k, VNil) :: removedFields rest b
      | Some _ => removedFields rest b
      end
  end.

(** The fields of [b] that are new or have changed, with their entry in the
    patch; [diff] says what has become of a field that was there before. *)
Definition changedFields (diff : value -> value -> option value) (a : Object)
  : Object -> Object :=
  fix changed (b : Object) : Object :=
    match b with
    | [] => []
    | (k, v) :: rest =>
        match lookup k a with
        | None => (k, v) :: changed rest
        | Some av =>
            match diff av v with
            | Some d => (k, d) :: changed rest
            | None => changed rest
            end
        end
    end.

(** The entry of the patch for a field that went from [av] to [bv], if the
    field has to be in the patch at all. *)
Fixpoint diffValue (av bv : value) {struct bv} : option value :=
  match bv with
  | VMap bt =>
      match av with
      | VMap at_ =>
          match (changedFields (fun av' v => diffValue av' v) at_ bt
                 ++ removedFields at_ bt)%list with
          | [] => None
          | d => Some (VMap d)
          end
      | _ => Some bv
      end
  | _ => if value_eqb av bv then None else Some bv
  end.

Definition mergePatch (original modified : Unstructured) : Object :=
  match diffValue (VMap (u_Object original)) (VMap (u_Object modified)) with
  | Some (VMap d) => d
  | _ => []
  end.

(** The keys of every map of a value are distinct, as they are in a Go
    map. *)
Fixpoint distinct (keys : list string) : bool :=
  match keys with
  | [] => true
  | k :: rest => negb (existsb (String.eqb k) rest) && distinct rest
  end.

Fixpoint wellFormed (v : value) : bool :=
  match v with
  | VSlice l => forallb wellFormed l
  | VMap m =>
      distinct (map fst m) && forallb (fun '(_, x) => wellFormed x) m
  | _ => true
  end.

(** Induction on a value, with the fields of a slice and of a map. *)
Section ValueInduction.

Variable P : value -> Prop.

Hypothesis HNil : P VNil.
Hypothesis HBool : forall b, P (VBool b).
Hypothesis HNumber : forall n, P (VNumber n).
Hypothesis HString : forall s, P (VString s).
Hypothesis HSlice : forall l, Forall P l -> P (VSlice l).
Hypothesis HMap : forall m, Forall (fun p => P (snd p)) m -> P (VMap m).

Fixpoint value_induction (v : value) : P v :=
  match v with
  | VNil => HNil
  | VBool b => HBool b
  | VNumber n => HNumber n
  | VString s => HString s
  | VSlice l =>
      HSlice l
        ((fix all (l : list value) : Forall P l :=
            match l with
            | [] => Forall_nil P
            | x :: rest => Forall_cons x (value_induction x) (all rest)
            end) l)
  | VMap m =>
      HMap m
        ((fix all (m : Object) : Forall (fun p => P (snd p)) m :=
            match m with
            | [] => Forall_nil _
            | (k, x) :: rest =>
                Forall_cons (k, x) (value_induction x) (all rest)
            end) m)
  end.

End ValueInduction.

(** ** Two clients to run the program on *)

(** *** A scripted client

    The state is the list of the answers still to be given, one per call, in
    the order of the calls.  A call that finds no answer of its kind at the
    head of the script fails with an API error and leaves the script alone. *)

Inductive Reply : Type :=
| ReplyGet (r : result CustomResourceDefinition)
| ReplyDelete (r : option error)
| ReplyNamespaces (r : result (list Namespace))
| ReplyObjects (r : result (list Unstructured))
| ReplyPatch (r : option error).

Definition Script : Type := list Reply.

Definition unexpected : error := ClientError ReasonOther "unexpected call".

#[export] Instance ScriptClient : Client Script := {|
  client_Get := fun _ w =>
    match w with
    | ReplyGet r :: w' => (r, w')
    | _ => (Err unexpected, w)
    end;
  client_Delete := fun _ w =>
    match w with
    | ReplyDelete r :: w' => (r, w')
    | _ => (Some unexpected, w)
    end;
  client_ListNamespaces := fun w =>
    match w with
    | ReplyNamespaces r :: w' => (r, w')
    | _ => (Err unexpected, w)
    end;
  client_ListObjects := fun _ _ _ w =>
    match w with
    | ReplyObjects r :: w' => (r, w')
    | _ => (Err unexpected, w)
    end;
  client_Patch := fun _ _ w =>
    match w with
    | ReplyPatch r :: w' => (r, w')
    | _ => (Some unexpected, w)
    end
|}.

(** Nobody interrupts a scripted run, and a tick that falls on the deadline
    is served before the expiry is seen. *)
#[export] Instance ScriptCtx : Ctx Script := {|
  ctx_signal := fun _ => None;
  ctx_deadlineFirst := fun _ => false
|}.

(** *** A scripted client and a user who interrupts

    The scripted client, and the time the user takes to interrupt once
    the script is used up; on the deadline, the expiry is seen first. *)

Definition SignalledScript : Type := (Script * Z)%type.

Definition onScript {A : Type} (call : Script -> A * Script)
    (w : SignalledScript) : A * SignalledScript :=
  let (r, script) := call (fst w) in (r, (script, snd w)).

#[export] Instance SignalledClient : Client SignalledScript := {|
  client_Get := fun name => onScript (client_Get name);
  client_Delete := fun crd => onScript (client_Delete crd);
  client_ListNamespaces := onScript client_ListNamespaces;
  client_ListObjects := fun apiVersion kind opts =>
    onScript (client_ListObjects apiVersion kind opts);
  client_Patch := fun obj patch => onScript (client_Patch obj patch)
|}.

#[export] Instance SignalledCtx : Ctx SignalledScript := {|
  ctx_signal := fun w =>
    match fst w with
    | [] => Some (snd w)
    | _ :: _ => None
    end;
  ctx_deadlineFirst := fun _ => true
|}.

(** *** A small cluster

    CRDs, namespaces and the instances of the CRDs.  Deleting a CRD collects
    its instances that carry no finalizer; the CRD itself goes once no
    instance of its kind is left, unless [cl_blocked] says that something
    else holds it back.  A patch stores the patched object, and an instance
    of a CRD under deletion goes as soon as it carries no finalizer. *)

Record Cluster : Type := {
  cl_crds : list (CustomResourceDefinition * bool);
  cl_namespaces : list Namespace;
  cl_objects : list Unstructured;
  cl_blocked : bool
}.

Definition kindOf (u : Unstructured) : string :=
  match lookup "kind" (u_Object u) with
  | Some (VString s) => s
  | _ => ""
  end.

Definition sameObject (a b : Unstructured) : bool :=
  String.eqb (kindOf a) (kindOf b)
  && String.eqb (GetNamespace a) (GetNamespace b)
  && String.eqb (GetName a) (GetName b).

Definition findCRD (name : string) (c : Cluster)
  : option (CustomResourceDefinition * bool) :=
  find (fun p => String.eqb (crd_Name (fst p)) name) (cl_crds c).

(** Is a CRD of this kind registered, and is one under deletion? *)
Definition kindServed (kind : string) (c : Cluster) : bool :=
  existsb (fun p => String.eqb (spec_Kind (fst p)) kind) (cl_crds c).

Definition kindTerminating (kind : string) (c : Cluster) : bool :=
  existsb (fun p => String.eqb (spec_Kind (fst p)) kind && snd p) (cl_crds c).

(** Garbage collection: instances of a kind under deletion that carry no
    finalizer go, and then the CRDs under deletion without instances. *)
Definition collect (c : Cluster) : Cluster :=
  let objects :=
    filter (fun u => negb (kindTerminating (kindOf u) c) || hasFinalizers u)
      (cl_objects c) in
  let crds :=
    filter (fun p =>
              negb (snd p) || cl_blocked c
              || existsb (fun u => String.eqb (kindOf u) (spec_Kind (fst p)))
                   objects)
      (cl_crds c) in
  {| cl_crds := crds; cl_namespaces := cl_namespaces c;
     cl_objects := objects; cl_blocked := cl_blocked c |}.

Definition notFound (what : string) : error :=
  ClientError ReasonNotFound (what ++ " not found").

#[export] Instance ClusterClient : Client Cluster := {|
  client_Get := fun name c =>
    match findCRD name c with
    | Some (crd, _) => (Ok crd, c)
    | None => (Err (notFound name), c)
    end;
  client_Delete := fun crd c =>
    match findCRD (crd_Name crd) c with
    | Some _ =>
        let crds :=
          map (fun p => if String.eqb (crd_Name (fst p)) (crd_Name crd)
                        then (fst p, true) else p) (cl_crds c) in
        (None, collect {| cl_crds := crds; cl_namespaces := cl_namespaces c;
                          cl_objects := cl_objects c;
                          cl_blocked := cl_blocked c |})
    | None => (Some (notFound (crd_Name crd)), c)
    end;
  client_ListNamespaces := fun c => (Ok (cl_namespaces c), c);
  client_ListObjects := fun _ kind opts c =>
    if kindServed kind c
    then
      (Ok (filter (fun u =>
                     String.eqb (kindOf u) kind
                     && match opts with
                        | Some ns => String.eqb (GetNamespace u) ns
                        | None => true
                        end) (cl_objects c)), c)
    else (Err (notFound kind), c);
  client_Patch := fun obj _ c =>
    if existsb (sameObject obj) (cl_objects c)
    then
      let objects :=
        map (fun u => if sameObject obj u then obj else u) (cl_objects c) in
      (None, collect {| cl_crds := cl_crds c;
                        cl_namespaces := cl_namespaces c;
                        cl_objects := objects;
                        cl_blocked := cl_blocked c |})
    else (Some (notFound (objIdent obj)), c)
|}.

#[export] Instance ClusterCtx : Ctx Cluster := {|
  ctx_signal := fun _ => None;
  ctx_deadlineFirst := fun _ => false
|}.

(** *** Objects to run on *)

(** The targets of the runs below are ASCII: the case tables are never
    looked at. *)
Definition asciiOnly : Unicode := {| Map_unicode_ToLower := fun s => s |}.

Definition mkObject (kind namespace name : string) (finalizers : list string)
    (others : Object) : Unstructured :=
  {| u_Object :=
       ([("apiVersion", VString "omnicorp.com/v1");
         ("kind", VString kind);
         ("metadata",
          VMap ((if (0 <? String.length namespace)%nat
                 then [("namespace", VString namespace)] else [])
                ++ [("name", VString name);
                    ("finalizers", VSlice (map VString finalizers));
                    ("labels", VMap [("app", VString "demo")])]))]
        ++ others)%list |}.

Definition testCRD (scope : ResourceScope)
    (versions : list CustomResourceDefinitionVersion)
  : CustomResourceDefinition :=
  {| crd_Name := "mytestcrds.omnicorp.com";
     spec_Group := "omnicorp.com";
     spec_Kind := "MyTestCrd";
     spec_Scope := scope;
     spec_Versions := versions |}.

Definition v1served : list CustomResourceDefinitionVersion :=
  [{| ver_Name := "v1"; ver_Served := true |}].

(** A cluster that has never heard of the CRD. *)
Definition emptyCluster : Cluster :=
  {| cl_crds := []; cl_namespaces := [{| ns_Name := "default" |}];
     cl_objects := []; cl_blocked := false |}.

Definition unserved : list CustomResourceDefinitionVersion :=
  [{| ver_Name := "v1alpha1"; ver_Served := false |};
   {| ver_Name := "v1"; ver_Served := false |}].

(** The versions of section 8 of the specification. *)
Definition threeVersions : list CustomResourceDefinitionVersion :=
  [{| ver_Name := "v1alpha1"; ver_Served := false |};
   {| ver_Name := "v1beta1"; ver_Served := true |};
   {| ver_Name := "v1"; ver_Served := true |}].

(** A cluster with one CRD and the given namespaces and instances. *)
Definition clusterOf (crd : CustomResourceDefinition)
    (namespaces : list string) (objects : list Unstructured) : Cluster :=
  {| cl_crds := [(crd, false)];
     cl_namespaces := map (fun n => {| ns_Name := n |}) namespaces;
     cl_objects := objects;
     cl_blocked := false |}.

(** Instances of the test CRD: two that are stuck and one that is not. *)
Definition stuckA : Unstructured :=
  mkObject "MyTestCrd" "ns1" "a" ["a.b/finalizer"]
    [("spec", VMap [("size", VNumber 3)])].

Definition freeB : Unstructured := mkObject "MyTestCrd" "ns1" "b" [] [].

Definition stuckC : Unstructured :=
  mkObject "MyTestCrd" "ns2" "c" ["x.y/one"; "x.y/two"] [].

(** A cluster-scoped instance: it has no namespace. *)
Definition stuckD : Unstructured :=
  mkObject "MyTestCrd" "" "d" ["a.b/finalizer"] [].

Definition demoCRD : CustomResourceDefinition :=
  testCRD NamespaceScoped v1served.

Definition demoCluster : Cluster :=
  clusterOf demoCRD ["ns1"; "ns2"] [stuckA; freeB; stuckC].

Definition notFoundError : error :=
  ClientError ReasonNotFound "the server could not find the requested resource".

Definition forbidden : error :=
  ClientError ReasonOther "forbidden".

Definition canceled : error :=
  ClientError ReasonContextDone "context canceled".

(** The demo cluster with the deletion of the CRD held back. *)
Definition blockedCluster : Cluster :=
  {| cl_crds := cl_crds demoCluster;
     cl_namespaces := cl_namespaces demoCluster;
     cl_objects := cl_objects demoCluster;
     cl_blocked := true |}.

(** A cluster-scoped CRD without instances, on the scripted client: the CRD
    is fetched and deleted, the object list is empty, and [polls] are the
    answers to the fetches of the wait. *)
Definition clusterCRD : CustomResourceDefinition :=
  testCRD ClusterScoped v1served.

Definition waitScript (polls : list Reply) : Script :=
  ([ReplyGet (Ok clusterCRD); ReplyDelete None; ReplyObjects (Ok [])]
   ++ polls)%list.

(** ** Tactics *)

(** Unfolding one step of a computation. *)
Ltac step :=
  repeat (progress (unfold bind, ret, logf, Sleep, emit, Get, Delete,
                      ListNamespaces, ListObjects, PatchObject; simpl)).

Ltac step_in H :=
  repeat (progress (unfold bind, ret, logf, Sleep, emit, Get, Delete,
                      ListNamespaces, ListObjects, PatchObject in H;
                    simpl in H)).

(** Finding an event in a trace that is put together with [::] and [++]. *)
Ltac find_event :=
  repeat first [ left; reflexivity | apply in_or_app; right | right ].

(** ** The errors of [nukeCRD], read off a trace *)

(** The text [nukeCRD] puts before the error of a call that failed; for the
    fetch of the CRD it depends on whether the fetch is the first call of
    the run ([first]) or one of the fetches at the end.  Lines 309, 314,
    338, 348, 378 and 397. *)
Definition phase (first : bool) (c : Call) : string :=
  match c with
  | CallGet _ =>
      if first then "failed to retrieve CRD: "
      else "failed to check final CRD existence: "
  | CallDelete _ => "failed to delete CRD resource: "
  | CallListNamespaces => "failed to list namespaces: "
  | CallListObjects _ _ _ => "failed to list objects: "
  | CallPatch _ (MergeFrom original) =>
      "failed to delete " ++ objIdent original ++ ": "
  end.

(** The failed calls the second revision passes over: a fetch or a list
    that answers not-found, and a fetch at the end that was interrupted. *)
Definition tolerated (first : bool) (c : Call) (e : error) : bool :=
  match c with
  | CallGet _ => IsNotFound e || (negb first && Interrupted e)
  | CallListNamespaces | CallListObjects _ _ _ => IsNotFound e
  | CallDelete _ | CallPatch _ _ => false
  end.

(** The first revision passes over not-found on a fetch and nothing else. *)
Definition toleratedV1 (c : Call) (e : error) : bool :=
  match c with
  | CallGet _ => IsNotFound e
  | _ => false
  end.

Definition noCallYet (tr : list Event) : bool :=
  match calls tr with
  | [] => true
  | _ :: _ => false
  end.

(** A run that fails fast: a failed call that is not passed over is the last
    event of the trace, and the result is its error behind the text of its
    phase; and a run that returns an error has ended on such a call, unless
    the error is that no version is served.  [tol] says what is passed
    over, [first] whether the trace starts the run. *)
Definition failsFast (tol : bool -> Call -> error -> bool) (first : bool)
    (r : option error) (tr : list Event) : Prop :=
  (forall before c e after,
      tr = (before ++ Api c (Some e) :: after)%list ->
      tol (first && noCallYet before)%bool c e = false ->
      after = []
      /\ r = Some (ErrorfWrap (phase (first && noCallYet before)%bool c) e))
  /\ (forall err,
         r = Some err ->
         err = NoServedVersion
         \/ exists before c e,
              tr = (before ++ [Api c (Some e)])%list
              /\ tol (first && noCallYet before)%bool c e = false).

(** ** The calls of a sweep *)

(** What a sweep for [crd] may call: for a NamespaceScoped CRD the namespace
    list and the list of the objects of its kind in one namespace, for a
    ClusterScoped CRD the list of all the objects of its kind, and the patch
    that clears the finalizers of an object that has some. *)
Definition sweepCall (crd : CustomResourceDefinition) (c : Call) : Prop :=
  (spec_Scope crd = NamespaceScoped
   /\ (c = CallListNamespaces
       \/ exists ns,
            c = CallListObjects (apiVersionOf crd) (spec_Kind crd) (Some ns)))
  \/ (spec_Scope crd = ClusterScoped
      /\ c = CallListObjects (apiVersionOf crd) (spec_Kind crd) None)
  \/ exists original,
       GetFinalizers original <> []
       /\ c = CallPatch (SetFinalizers_nil original) (MergeFrom original).

(** ** The whole of [main]

    [main] from its first line: the flags, the version, the kubeconfig, the
    logger and the client, and then the loop over the targets.  The command
    line comes parsed; what lies outside the program ([os.Getenv], the
    variables set by the linker, [runtime.Version], and whether
    [clientcmd.BuildConfigFromFlags], [ctrlruntimeclient.New] and
    [apiextensionsv1.AddToScheme] fail) is given. *)

Record CommandLine : Type := {
  (** [--kubeconfig], if it is on the command line *)
  opt_kubeconfig : option string;
  (** [--verbose] *)
  opt_verbose : bool;
  (** [--version], in the second revision *)
  opt_version : bool;
  (** [flag.Args()] *)
  opt_args : list string
}.

Record Outside : Type := {
  env_KUBECONFIG : string;
  BuildTag : string;
  BuildCommit : string;
  BuildDate : string;
  runtime_Version : string;
  BuildConfigFromFlags : string -> option error;
  client_New : option error;
  AddToScheme : option error
}.

(** How the process ends: with an exit status, or in a panic. *)
Inductive Exit : Type :=
| ExitStatus (code : Z)
| Panic.

(** What a run of [main] leaves behind beside its calls and its log: how it
    ended, what it printed, and the kubeconfig it asked a client for, if it
    came to ask. *)
Record Ended : Type := {
  ended_exit : Exit;
  ended_stdout : list string;
  ended_kubeconfig : option string
}.

Definition newline : string := String (ascii_of_nat 10) EmptyString.

(** [printVersion] (lines 219-227): the line it prints, or nothing when
    [BuildCommit[:10]] is out of range and the program panics. *)
Definition printVersion (o : Outside) : option string :=
  if (String.length (BuildCommit o) <? 10)%nat then None
  else Some ("Kube Nukem " ++ BuildTag o
             ++ " (" ++ substring 0 10 (BuildCommit o)
             ++ "), built with " ++ runtime_Version o
             ++ " on " ++ BuildDate o ++ newline).

(** [log.SetLevel]: the logger writes a debug line only when it is verbose. *)
Definition written (verbose : bool) (ev : Event) : bool :=
  match ev with
  | Log DebugLevel _ _ => verbose
  | _ => true
  end.

Section Process.

Context {W : Type} {client : Client W} {ctx : Ctx W} {unicode : Unicode}.

Definition atLevel {A : Type} (verbose : bool) (m : M A) : M (W := W) A :=
  fun w => let '(a, w', tr) := m w in (a, w', filter (written verbose) tr).

(** [log.Fatal] and [log.Fatalf]: the line, and exit status 1. *)
Definition Fatal (kubeconfig : option string) (msg : string) : M Ended :=
  logf (W := W) FatalLevel [] msg ;;
  ret {| ended_exit := ExitStatus 1; ended_stdout := [];
         ended_kubeconfig := kubeconfig |}.

(** Lines 42-76 and 261-295: from the test of [flag.NArg()] to the end. *)
Definition main_from_NArg
    (nukeCRD : Logger -> string -> M (W := W) (option error))
    (o : Outside) (kubeconfig : string) (args : list string) : M Ended :=
  let log : Logger := [] in
  if (List.length args =? 0)%nat
  then Fatal None "No CRD names provided."
  else
    match BuildConfigFromFlags o kubeconfig with
    | Some err =>
        Fatal (Some kubeconfig) ("Failed to create kube client: " ++ Error err)
    | None =>
        match client_New o with
        | Some err =>
            Fatal (Some kubeconfig) ("Failed to create client: " ++ Error err)
        | None =>
            match AddToScheme o with
            | Some err =>
                Fatal (Some kubeconfig)
                  ("Failed to add apiextensions/v1 to scheme: " ++ Error err)
            | None =>
                success <- main_loop nukeCRD log args false ;;
                if success : bool
                then
                  logf InfoLevel log "Everything nuked successfully." ;;
                  ret {| ended_exit := ExitStatus 0; ended_stdout := [];
                         ended_kubeconfig := Some kubeconfig |}
                else
                  ret {| ended_exit := ExitStatus 1; ended_stdout := [];
                         ended_kubeconfig := Some kubeconfig |}
            end
        end
    end.

(** [main] of the first revision (lines 21-77): the default of the
    kubeconfig flag is [$KUBECONFIG]. *)
Definition V1_main (cl : CommandLine) (o : Outside) : M Ended :=
  let kubeconfig :=
    match opt_kubeconfig cl with
    | Some path => path
    | None => env_KUBECONFIG o
    end in
  atLevel (opt_verbose cl)
    (main_from_NArg V1.nukeCRD o kubeconfig (opt_args cl)).

(** [main] of the second revision (lines 229-296): the version first; the
    default of the kubeconfig flag is empty, and an empty kubeconfig is
    taken from [$KUBECONFIG]. *)
Definition V2_main (cl : CommandLine) (o : Outside) : M Ended :=
  if opt_version cl
  then
    match printVersion o with
    | Some line =>
        ret {| ended_exit := ExitStatus 0; ended_stdout := [line];
               ended_kubeconfig := None |}
    | None =>
        ret {| ended_exit := Panic; ended_stdout := [];
               ended_kubeconfig := None |}
    end
  else
    let kubeconfig :=
      match opt_kubeconfig cl with
      | Some path => path
      | None => ""
      end in
    let kubeconfig :=
      if String.eqb kubeconfig "" then env_KUBECONFIG o else kubeconfig in
    atLevel (opt_verbose cl)
      (main_from_NArg V2.nukeCRD o kubeconfig (opt_args cl)).

End Process.

(** A command line and surroundings to run on. *)
Definition builtWith (commit : string) : Outside :=
  {| env_KUBECONFIG := "/home/me/.kube/config";
     BuildTag := "v1.2.0";
     BuildCommit := commit;
     BuildDate := "2023-05-01T10:00:00Z";
     runtime_Version := "go1.20.4";
     BuildConfigFromFlags := fun _ => None;
     client_New := None;
     AddToScheme := None |}.

(** The same surroundings with one kubeconfig that cannot be loaded. *)
Definition withoutFile (file : string) (o : Outside) : Outside :=
  {| env_KUBECONFIG := env_KUBECONFIG o;
     BuildTag := BuildTag o;
     BuildCommit := BuildCommit o;
     BuildDate := BuildDate o;
     runtime_Version := runtime_Version o;
     BuildConfigFromFlags := fun path =>
       if String.eqb path file
       then Some (ErrorfNew ("stat " ++ file ++ ": no such file or directory"))
       else BuildConfigFromFlags o path;
     client_New := client_New o;
     AddToScheme := AddToScheme o |}.

Definition commandLine (kubeconfig : option string) (verbose version : bool)
    (args : list string) : CommandLine :=
  {| opt_kubeconfig := kubeconfig; opt_verbose := verbose;
     opt_version := version; opt_args := args |}.

(** ** The log of a run *)

Definition isLine (ev : Event) : bool :=
  match ev with
  | Log _ _ _ => true
  | _ => false
  end.

(** A trace without its log lines: the calls, with their outcomes, and the
    waits. *)
Definition unlogged (tr : list Event) : list Event :=
  filter (fun ev => negb (isLine ev)) tr.

(** What the sweep logs (lines 164 and 392): in front of every patch, a
    debug line with the identity of the object in the field [resource]. *)
Fixpoint announced (log : Logger) (tr : list Event) : list Event :=
  match tr with
  | [] => []
  | Api (CallPatch obj (MergeFrom original)) o :: rest =>
      Log DebugLevel (WithField log "resource" (objIdent original)) "Nuking…"
      :: Api (CallPatch obj (MergeFrom original)) o :: announced log rest
  | ev :: rest => ev :: announced log rest
  end.

(** A stretch of a run whose lines are these and no others. *)
Definition told (log : Logger) (tr : list Event) : Prop :=
  tr = announced log (unlogged tr).

Definition Level_eqb (a b : Level) : bool :=
  match a, b with
  | DebugLevel, DebugLevel | InfoLevel, InfoLevel | WarnLevel, WarnLevel
  | ErrorLevel, ErrorLevel | FatalLevel, FatalLevel => true
  | _, _ => false
  end.

(** The lines logged at a level, with their fields. *)
Fixpoint lines (level : Level) (tr : list Event) : list (Logger * string) :=
  match tr with
  | [] => []
  | Log l fields msg :: rest =>
      if Level_eqb level l then (fields, msg) :: lines level rest
      else lines level rest
  | _ :: rest => lines level rest
  end.

(** The line [main] logs for a target that failed (lines 67 and 286). *)
Definition failure {unicode : Unicode} (target : string)
    (run : option error * list Event) : list (Logger * string) :=
  match fst run with
  | Some err =>
      [(WithField [] "crd" (ToLower target), "Failed to nuke: " ++ Error err)]
  | None => []
  end.

Fixpoint failures {unicode : Unicode} (args : list string)
    (runs : list (option error * list Event)) : list (Logger * string) :=
  match args, runs with
  | target :: args, run :: runs =>
      (failure target run ++ failures args runs)%list
  | _, _ => []
  end.

(** The lines of a run of [nukeCRD]: the line at the head, what the sweep
    and the wait tell, and at most one line at the end. *)
Definition logOf (log : Logger) (crdName : string) (r : option error)
    (tr : list Event) : Prop :=
  exists middle last,
    tr = (Log InfoLevel log "Nuking…" :: middle ++ last)%list
    /\ told log middle
    /\ (last = []
        \/ r = None
           /\ (last = [Log DebugLevel log "CRD does not exist."]
               /\ (exists e, middle = [Api (CallGet crdName) (Some e)])
               \/ last = [Log WarnLevel log stillExists])).

(** * Properties *)

(** ** Traces *)

Lemma calls_app (t1 t2 : list Event) :
  calls (t1 ++ t2) = (calls t1 ++ calls t2)%list.
Proof.
  induction t1 as [| e t1 IH]; simpl; [reflexivity |].
  destruct e; simpl; rewrite IH; reflexivity.
Qed.

Lemma logged_app (level : Level) (t1 t2 : list Event) :
  logged level (t1 ++ t2) = (logged level t1 ++ logged level t2)%list.
Proof.
  induction t1 as [| e t1 IH]; simpl; [reflexivity |].
  destruct e; simpl; try assumption.
  destruct level, level0; simpl; rewrite IH; reflexivity.
Qed.

Lemma waited_app (t1 t2 : list Event) :
  waited (t1 ++ t2) = waited t1 + waited t2.
Proof.
  induction t1 as [| e t1 IH]; simpl; [reflexivity |].
  destruct e; simpl; lia.
Qed.

(** ** No-op on a missing CRD *)

Section Missing.

Context {W : Type} {client : Client W} {ctx : Ctx W} {unicode : Unicode}.

Lemma V1_nukeCRD_missing (log : Logger) (crdName : string) (w w' : W)
    (e : error) :
  client_Get crdName w = (Err e, w') ->
  IsNotFound e = true ->
  V1.nukeCRD log crdName w =
    (None, w', [Log InfoLevel log "Nuking…";
                Api (CallGet crdName) (Some e);
                Log DebugLevel log "CRD does not exist."]).
Proof.
  intros Hget Hnf. unfold V1.nukeCRD. step.
  rewrite Hget. simpl. rewrite Hnf. reflexivity.
Qed.

Lemma V2_nukeCRD_missing (log : Logger) (crdName : string) (w w' : W)
    (e : error) :
  client_Get crdName w = (Err e, w') ->
  IsNotFound e = true ->
  V2.nukeCRD log crdName w =
    (None, w', [Log InfoLevel log "Nuking…";
                Api (CallGet crdName) (Some e);
                Log DebugLevel log "CRD does not exist."]).
Proof.
  intros Hget Hnf. unfold V2.nukeCRD. step.
  rewrite Hget. simpl. rewrite Hnf. reflexivity.
Qed.

(** C8.  When the first fetch of the CRD answers not-found, [nukeCRD]
    returns nil, and the only call it has issued is that fetch: no delete,
    no list and no patch.  The same in both revisions. *)
Theorem nukeCRD_missing_is_noop (log : Logger) (crdName : string)
    (w w' : W) (e : error) :
  client_Get crdName w = (Err e, w') ->
  IsNotFound e = true ->
  (value_of (V2.nukeCRD log crdName w) = None
   /\ world_of (V2.nukeCRD log crdName w) = w'
   /\ calls (trace_of (V2.nukeCRD log crdName w)) = [CallGet crdName])
  /\ (value_of (V1.nukeCRD log crdName w) = None
      /\ world_of (V1.nukeCRD log crdName w) = w'
      /\ calls (trace_of (V1.nukeCRD log crdName w)) = [CallGet crdName]).
Proof.
  intros Hget Hnf.
  rewrite (V2_nukeCRD_missing log _ _ _ _ Hget Hnf).
  rewrite (V1_nukeCRD_missing log _ _ _ _ Hget Hnf).
  repeat split.
Qed.

End Missing.

Lemma nukeCRD_missing_is_noop_witness :
  let r2 := V2.nukeCRD [] "mytestcrds.omnicorp.com" emptyCluster in
  let r1 := V1.nukeCRD [] "mytestcrds.omnicorp.com" emptyCluster in
  (value_of r2 = None /\ world_of r2 = emptyCluster
   /\ calls (trace_of r2) = [CallGet "mytestcrds.omnicorp.com"])
  /\ (value_of r1 = None /\ world_of r1 = emptyCluster
      /\ calls (trace_of r1) = [CallGet "mytestcrds.omnicorp.com"]).
Proof.
  apply (nukeCRD_missing_is_noop (client := ClusterClient) []
           "mytestcrds.omnicorp.com" emptyCluster emptyCluster
           (notFound "mytestcrds.omnicorp.com")).
  - reflexivity.
  - reflexivity.
Defined.

(** ** API version resolution *)

Lemma getAPIVersion_loop_find (group : string)
    (versions : list CustomResourceDefinitionVersion) :
  getAPIVersion_loop group versions =
    match find ver_Served versions with
    | Some v => Ok (group ++ "/" ++ ver_Name v)
    | None => Err NoServedVersion
    end.
Proof.
  induction versions as [| v rest IH]; simpl; [reflexivity |].
  destruct (ver_Served v); [reflexivity | exact IH].
Qed.

(** The first served version, said with the versions before it. *)
Lemma getAPIVersion_first_served (crd : CustomResourceDefinition)
    (before after : list CustomResourceDefinitionVersion)
    (v : CustomResourceDefinitionVersion) :
  spec_Versions crd = (before ++ v :: after)%list ->
  (forall u, In u before -> ver_Served u = false) ->
  ver_Served v = true ->
  getAPIVersion crd = Ok (spec_Group crd ++ "/" ++ ver_Name v).
Proof.
  unfold getAPIVersion. intros -> Hbefore Hv.
  induction before as [| u before IH]; simpl.
  - rewrite Hv. reflexivity.
  - rewrite (Hbefore u (or_introl eq_refl)).
    apply IH. intros u' Hu'. apply Hbefore. right. exact Hu'.
Qed.

Lemma getAPIVersion_none_served (crd : CustomResourceDefinition) :
  find ver_Served (spec_Versions crd) = None ->
  getAPIVersion crd = Err NoServedVersion.
Proof.
  intros H. unfold getAPIVersion. rewrite getAPIVersion_loop_find, H.
  reflexivity.
Qed.

Example getAPIVersion_three_versions :
  getAPIVersion (testCRD ClusterScoped threeVersions)
  = Ok "omnicorp.com/v1beta1".
Proof. reflexivity. Qed.

Section Resolution.

Context {W : Type} {client : Client W} {ctx : Ctx W} {unicode : Unicode}.

Lemma V2_removeResourcesWithOpts_unserved (log : Logger)
    (crd : CustomResourceDefinition) (opts : ListOptions) (w : W) :
  getAPIVersion crd = Err NoServedVersion ->
  V2.removeResourcesWithOpts log crd opts w = (Some NoServedVersion, w, []).
Proof.
  intros H. unfold V2.removeResourcesWithOpts. rewrite H. reflexivity.
Qed.

(** C4, as the code has it.  [getAPIVersion] answers ["<group>/<name>"]
    for the first version, in the listed order, that is served, and fails
    with [NoServedVersion] when none is.  With no served version, a sweep
    that comes to resolve the version fails with that error before any
    object list and any patch: for a ClusterScoped CRD it has issued no
    call at all, for a NamespaceScoped CRD in a cluster with at least one
    namespace its only call is the namespace list.  The error is what
    [nukeCRD] returns for the target.  The sweep of a NamespaceScoped CRD
    that finds no namespace does not resolve the version, and returns
    nil. *)
Theorem no_served_version_is_fatal_once_resolved
    (log : Logger) (crd : CustomResourceDefinition) :
  getAPIVersion crd =
    match find ver_Served (spec_Versions crd) with
    | Some v => Ok (spec_Group crd ++ "/" ++ ver_Name v)
    | None => Err NoServedVersion
    end
  /\ (find ver_Served (spec_Versions crd) = None ->
      (forall opts w,
          V2.removeResourcesWithOpts log crd opts w
          = (Some NoServedVersion, w, []))
      /\ (spec_Scope crd = ClusterScoped ->
          forall w, V2.removeResources log crd w
                    = (Some NoServedVersion, w, []))
      /\ (spec_Scope crd = NamespaceScoped ->
          forall w w' ns rest,
            client_ListNamespaces w = (Ok (ns :: rest), w') ->
            V2.removeResources log crd w
            = (Some NoServedVersion, w', [Api CallListNamespaces None]))
      /\ (spec_Scope crd = NamespaceScoped ->
          forall w w',
            client_ListNamespaces w = (Ok [], w') ->
            V2.removeResources log crd w
            = (None, w', [Api CallListNamespaces None]))
      /\ (forall crdName w w1 w2 r w3 tr,
            client_Get crdName w = (Ok crd, w1) ->
            client_Delete crd w1 = (None, w2) ->
            V2.removeResources log crd w2 = (Some r, w3, tr) ->
            V2.nukeCRD log crdName w
            = (Some r, w3,
               [Log InfoLevel log "Nuking…"; Api (CallGet crdName) None;
                Api (CallDelete crd) None] ++ tr)%list)).
Proof.
  split; [apply getAPIVersion_loop_find |].
  intros Hnone.
  pose proof (getAPIVersion_none_served crd Hnone) as Herr.
  split; [| split; [| split; [| split]]].
  - intros opts w. apply V2_removeResourcesWithOpts_unserved, Herr.
  - intros Hscope w. unfold V2.removeResources. rewrite Hscope.
    apply V2_removeResourcesWithOpts_unserved, Herr.
  - intros Hscope w w' ns rest Hlist.
    unfold V2.removeResources. rewrite Hscope. step. rewrite Hlist. step.
    rewrite (V2_removeResourcesWithOpts_unserved log crd _ w' Herr).
    reflexivity.
  - intros Hscope w w' Hlist.
    unfold V2.removeResources. rewrite Hscope. step. rewrite Hlist.
    reflexivity.
  - intros crdName w w1 w2 r w3 tr Hget Hdel Hsweep.
    unfold V2.nukeCRD. step. rewrite Hget. simpl. rewrite Hdel. simpl.
    rewrite Hsweep. simpl. rewrite app_nil_r. reflexivity.
Qed.

(** C10.  In the second revision, the sweep of a NamespaceScoped CRD whose
    namespace list comes back empty returns nil at once: the namespace
    list is its only call, the API version is not looked at, so a CRD
    without a served version passes as well. *)
Theorem removeResources_no_namespace (log : Logger)
    (crd : CustomResourceDefinition) (w w' : W) :
  spec_Scope crd = NamespaceScoped ->
  client_ListNamespaces w = (Ok [], w') ->
  V2.removeResources log crd w = (None, w', [Api CallListNamespaces None]).
Proof.
  intros Hscope Hlist. unfold V2.removeResources. rewrite Hscope. step.
  rewrite Hlist. reflexivity.
Qed.

End Resolution.

Lemma no_served_version_is_fatal_once_resolved_witness :
  let crd := testCRD NamespaceScoped unserved in
  find ver_Served (spec_Versions crd) = None
  /\ V2.nukeCRD [] "mytestcrds.omnicorp.com" (clusterOf crd ["default"] [])
     = (Some NoServedVersion,
        {| cl_crds := [];
           cl_namespaces := [{| ns_Name := "default" |}];
           cl_objects := []; cl_blocked := false |},
        [Log InfoLevel [] "Nuking…";
         Api (CallGet "mytestcrds.omnicorp.com") None;
         Api (CallDelete crd) None;
         Api CallListNamespaces None]).
Proof.
  intros crd. split; [reflexivity |].
  pose proof (no_served_version_is_fatal_once_resolved
                (client := ClusterClient) [] crd) as [_ H].
  destruct (H eq_refl) as (_ & _ & Hns & _ & Hnuke).
  set (w2 := {| cl_crds := [];
                cl_namespaces := [{| ns_Name := "default" |}];
                cl_objects := []; cl_blocked := false |}).
  exact (Hnuke "mytestcrds.omnicorp.com" (clusterOf crd ["default"] [])
           (clusterOf crd ["default"] []) w2 NoServedVersion w2
           [Api CallListNamespaces None] eq_refl eq_refl
           (Hns eq_refl w2 w2 {| ns_Name := "default" |} [] eq_refl)).
Defined.

(** The claim C4 as it is written does not hold.  No version of the CRD is
    served; in a cluster with a namespace the sweep does fail, but only
    after it has issued a list call (the namespace list); in a cluster where
    the namespace list is empty the target does not fail at all. *)
Lemma no_served_version_counterexample :
  let crd := testCRD NamespaceScoped unserved in
  let one := V2.nukeCRD [] "mytestcrds.omnicorp.com"
               (clusterOf crd ["default"] []) in
  let none := V2.nukeCRD [] "mytestcrds.omnicorp.com"
                (clusterOf crd [] []) in
  getAPIVersion crd = Err NoServedVersion
  /\ value_of one = Some NoServedVersion
  /\ filter isListCall (calls (trace_of one)) = [CallListNamespaces]
  /\ value_of none = None
  /\ logged WarnLevel (trace_of none) = [].
Proof. vm_compute. repeat split. Qed.

Lemma removeResources_no_namespace_witness :
  let crd := testCRD NamespaceScoped unserved in
  getAPIVersion crd = Err NoServedVersion
  /\ V2.removeResources [] crd (clusterOf crd [] [])
     = (None, clusterOf crd [] [], [Api CallListNamespaces None]).
Proof.
  split; [reflexivity |].
  apply (removeResources_no_namespace (client := ClusterClient)).
  - reflexivity.
  - reflexivity.
Defined.

(** ** The sweep *)

Section Sweep.

Context {W : Type} {client : Client W} {ctx : Ctx W} {unicode : Unicode}.

(** *** The loop over the listed objects *)

Lemma removeResourcesWithOpts_loop_skip (log : Logger) (obj : Unstructured)
    (rest : list Unstructured) (w : W) :
  GetFinalizers obj = [] ->
  removeResourcesWithOpts_loop log (obj :: rest) w
    = removeResourcesWithOpts_loop log rest w.
Proof. intros H. simpl. rewrite H. reflexivity. Qed.

Lemma removeResourcesWithOpts_loop_patch (log : Logger) (obj : Unstructured)
    (rest : list Unstructured) (w : W) :
  GetFinalizers obj <> [] ->
  removeResourcesWithOpts_loop log (obj :: rest) w =
    let line := Log DebugLevel (WithField log "resource" (objIdent obj))
                  "Nuking…" in
    let call := Api (patchOf obj)
                  (fst (client_Patch (SetFinalizers_nil obj) (MergeFrom obj) w)) in
    match client_Patch (SetFinalizers_nil obj) (MergeFrom obj) w with
    | (Some err, w') =>
        (Some (ErrorfWrap ("failed to delete " ++ objIdent obj ++ ": ") err),
         w', [line; call])
    | (None, w') =>
        let '(r, w'', tr) := removeResourcesWithOpts_loop log rest w' in
        (r, w'', line :: call :: tr)
    end.
Proof.
  intros H. simpl.
  destruct (GetFinalizers obj) as [| f fs]; [contradiction |]. step.
  unfold DeepCopy, patchOf.
  destruct (client_Patch (SetFinalizers_nil obj) (MergeFrom obj) w)
    as [[err |] w']; simpl; [reflexivity |].
  destruct (removeResourcesWithOpts_loop log rest w')
    as [[r w''] tr]. reflexivity.
Qed.

(** The calls of the loop are the patches of the objects that carry a
    finalizer, in the listed order, up to the first patch that fails. *)
Lemma removeResourcesWithOpts_loop_calls (log : Logger)
  (items : list Unstructured) :
  forall (w : W) r w' tr,
    removeResourcesWithOpts_loop log items w = (r, w', tr) ->
    exists processed remaining,
      items = (processed ++ remaining)%list
      /\ calls tr = map patchOf (filter hasFinalizers processed)
      /\ (r = None -> remaining = []).
Proof.
  induction items as [| obj rest IH]; intros w r w' tr Hrun.
  - simpl in Hrun. inversion Hrun; subst.
    exists [], []. repeat split.
  - destruct (GetFinalizers obj) as [| f fs] eqn:Hfin.
    + rewrite removeResourcesWithOpts_loop_skip in Hrun by assumption.
      destruct (IH _ _ _ _ Hrun)
        as (processed & remaining & -> & Hcalls & Hnone).
      exists (obj :: processed), remaining. simpl.
      unfold hasFinalizers at 1. rewrite Hfin. simpl. auto.
    + rewrite removeResourcesWithOpts_loop_patch
        in Hrun by (rewrite Hfin; discriminate).
      cbv zeta in Hrun.
      destruct (client_Patch (SetFinalizers_nil obj) (MergeFrom obj) w)
        as [[err |] w1].
      * inversion Hrun; subst. exists [obj], rest. simpl.
        unfold hasFinalizers. rewrite Hfin. simpl.
        repeat split. discriminate.
      * destruct (removeResourcesWithOpts_loop log rest w1)
          as [[r1 w2] tr1] eqn:Hrest.
        inversion Hrun; subst.
        destruct (IH _ _ _ _ Hrest)
          as (processed & remaining & -> & Hcalls & Hnone).
        exists (obj :: processed), remaining. simpl.
        unfold hasFinalizers at 1. rewrite Hfin. simpl.
        rewrite Hcalls. auto.
Qed.

Lemma removeResourcesWithOpts_loop_no_list_call (log : Logger)
    (items : list Unstructured) (w : W) :
  filter isListCall
    (calls (trace_of (removeResourcesWithOpts_loop log items w))) = [].
Proof.
  destruct (removeResourcesWithOpts_loop log items w) as [[r w'] tr] eqn:Hrun.
  destruct (removeResourcesWithOpts_loop_calls _ _ _ _ _ _ Hrun)
    as (processed & _ & _ & Hcalls & _).
  unfold trace_of. simpl. rewrite Hcalls. clear.
  induction (filter hasFinalizers processed); simpl; auto.
Qed.

(** *** One scope *)

Lemma V2_removeResourcesWithOpts_run (log : Logger)
    (crd : CustomResourceDefinition) (opts : ListOptions)
    (apiVersion : string) (w : W) :
  getAPIVersion crd = Ok apiVersion ->
  V2.removeResourcesWithOpts log crd opts w =
    let call := CallListObjects apiVersion (spec_Kind crd) opts in
    match client_ListObjects apiVersion (spec_Kind crd) opts w with
    | (Ok items, w1) =>
        let '(r, w2, tr) := removeResourcesWithOpts_loop log items w1 in
        (r, w2, Api call None :: tr)
    | (Err e, w1) =>
        if IsNotFound e
        then (None, w1, [Api call (Some e)])
        else (Some (ErrorfWrap "failed to list objects: " e), w1,
              [Api call (Some e)])
    end.
Proof.
  intros Hv. unfold V2.removeResourcesWithOpts. rewrite Hv. step.
  destruct (client_ListObjects apiVersion (spec_Kind crd) opts w)
    as [[items | e] w1]; simpl.
  - destruct (removeResourcesWithOpts_loop log items w1)
      as [[r w2] tr]. reflexivity.
  - destruct (IsNotFound e); reflexivity.
Qed.

Lemma V2_removeResourcesWithOpts_list_calls (log : Logger)
    (crd : CustomResourceDefinition) (opts : ListOptions) (w : W) :
  filter isListCall
    (calls (trace_of (V2.removeResourcesWithOpts log crd opts w)))
  = match getAPIVersion crd with
    | Ok apiVersion => [CallListObjects apiVersion (spec_Kind crd) opts]
    | Err _ => []
    end.
Proof.
  destruct (getAPIVersion crd) as [apiVersion | e] eqn:Hv.
  - rewrite (V2_removeResourcesWithOpts_run log crd opts _ w Hv). cbv zeta.
    destruct (client_ListObjects apiVersion (spec_Kind crd) opts w)
      as [[items | e] w1].
    + pose proof (removeResourcesWithOpts_loop_no_list_call log items w1)
        as Hno.
      destruct (removeResourcesWithOpts_loop log items w1) as [[r w2] tr].
      unfold trace_of in *. simpl in *. rewrite Hno. reflexivity.
    + destruct (IsNotFound e); reflexivity.
  - unfold V2.removeResourcesWithOpts. rewrite Hv. reflexivity.
Qed.

(** A scope that ends well has resolved the API version. *)
Lemma V2_removeResourcesWithOpts_success (log : Logger)
    (crd : CustomResourceDefinition) (opts : ListOptions) (w : W) :
  value_of (V2.removeResourcesWithOpts log crd opts w) = None ->
  getAPIVersion crd = Ok (apiVersionOf crd).
Proof.
  unfold V2.removeResourcesWithOpts, apiVersionOf.
  destruct (getAPIVersion crd); [reflexivity | discriminate].
Qed.

(** *** The namespaces, one after the other *)

Lemma V2_removeResources_loop_list_calls (log : Logger)
    (crd : CustomResourceDefinition) (namespaces : list Namespace) :
  forall (w : W) r w' tr,
    V2.removeResources_loop log crd namespaces w = (r, w', tr) ->
    exists processed remaining,
      namespaces = (processed ++ remaining)%list
      /\ filter isListCall (calls tr) = map (listIn crd) processed
      /\ (r = None -> remaining = []).
Proof.
  induction namespaces as [| ns rest IH]; intros w r w' tr Hrun.
  - inversion Hrun; subst. exists [], []. repeat split.
  - simpl in Hrun. unfold bind in Hrun.
    pose proof (V2_removeResourcesWithOpts_list_calls log crd
                  (Some (ns_Name ns)) w) as Hcalls.
    pose proof (V2_removeResourcesWithOpts_success log crd
                  (Some (ns_Name ns)) w) as Hok.
    destruct (V2.removeResourcesWithOpts log crd (Some (ns_Name ns)) w)
      as [[r1 w1] t1].
    unfold trace_of, value_of in *. simpl in *.
    destruct r1 as [err |].
    + inversion Hrun; subst. rewrite app_nil_r.
      destruct (getAPIVersion crd) as [apiVersion | e] eqn:Hv.
      * exists [ns], rest. unfold listIn, apiVersionOf. rewrite Hv.
        repeat split; [assumption | discriminate].
      * exists [], (ns :: rest). repeat split; [assumption | discriminate].
    + destruct (V2.removeResources_loop log crd rest w1)
        as [[r2 w2] t2] eqn:Hrest.
      inversion Hrun; subst.
      destruct (IH _ _ _ _ Hrest)
        as (processed & remaining & -> & Hrest_calls & Hnone).
      exists (ns :: processed), remaining.
      rewrite calls_app, filter_app, Hcalls, Hrest_calls.
      rewrite (Hok eq_refl). unfold listIn at 2.
      repeat split. assumption.
Qed.

(** *** The whole sweep *)

Lemma V2_removeResources_run (log : Logger) (crd : CustomResourceDefinition)
    (w : W) :
  V2.removeResources log crd w =
    match spec_Scope crd with
    | NamespaceScoped =>
        match client_ListNamespaces w with
        | (Ok items, w1) =>
            let '(r, w2, tr) := V2.removeResources_loop log crd items w1 in
            (r, w2, Api CallListNamespaces None :: tr)
        | (Err e, w1) =>
            if IsNotFound e
            then (None, w1, [Api CallListNamespaces (Some e)])
            else (Some (ErrorfWrap "failed to list namespaces: " e), w1,
                  [Api CallListNamespaces (Some e)])
        end
    | ClusterScoped => V2.removeResourcesWithOpts log crd None w
    end.
Proof.
  unfold V2.removeResources. destruct (spec_Scope crd); [| reflexivity].
  step. destruct (client_ListNamespaces w) as [[items | e] w1]; simpl.
  - destruct (V2.removeResources_loop log crd items w1) as [[r w2] tr].
    reflexivity.
  - destruct (IsNotFound e); reflexivity.
Qed.

(** The list calls of any sweep of a NamespaceScoped CRD, also of one that
    stops on an error: the namespace list, then the namespaces one by one,
    as far as the sweep went. *)
Lemma sweep_fan_out_so_far (log : Logger) (crd : CustomResourceDefinition)
    (w : W) r w' tr :
  spec_Scope crd = NamespaceScoped ->
  V2.removeResources log crd w = (r, w', tr) ->
  exists processed remaining,
    listed (client_ListNamespaces w) = (processed ++ remaining)%list
    /\ filter isListCall (calls tr)
       = CallListNamespaces :: map (listIn crd) processed
    /\ (r = None -> remaining = []).
Proof.
  intros Hscope. rewrite V2_removeResources_run, Hscope. unfold listed.
  destruct (client_ListNamespaces w) as [[items | e] w1]; simpl.
  - destruct (V2.removeResources_loop log crd items w1)
      as [[r2 w2] t2] eqn:Hloop.
    intros Hrun. inversion Hrun; subst.
    destruct (V2_removeResources_loop_list_calls _ _ _ _ _ _ _ Hloop)
      as (processed & remaining & -> & Hcalls & Hnone).
    exists processed, remaining. simpl. rewrite Hcalls. auto.
  - intros Hrun. exists [], [].
    destruct (IsNotFound e); inversion Hrun; subst; repeat split.
Qed.

(** C2.  A sweep of the second revision that runs through has issued,
    for a NamespaceScoped CRD, one namespace list call and then one object
    list call for each namespace that call listed, each restricted to its
    namespace, and no unrestricted object list; for a ClusterScoped CRD it
    has issued one unrestricted object list call and no other list call. *)
Theorem sweep_fan_out (log : Logger) (crd : CustomResourceDefinition)
    (w w' : W) (tr : list Event) :
  V2.removeResources log crd w = (None, w', tr) ->
  filter isListCall (calls tr) =
    match spec_Scope crd with
    | NamespaceScoped =>
        CallListNamespaces
        :: map (fun ns =>
                  CallListObjects (apiVersionOf crd) (spec_Kind crd)
                    (Some (ns_Name ns)))
             (listed (client_ListNamespaces w))
    | ClusterScoped =>
        [CallListObjects (apiVersionOf crd) (spec_Kind crd) None]
    end.
Proof.
  intros Hrun. destruct (spec_Scope crd) eqn:Hscope.
  - destruct (sweep_fan_out_so_far log crd w _ _ _ Hscope Hrun)
      as (processed & remaining & Hall & Hcalls & Hnone).
    rewrite Hall, (Hnone eq_refl), app_nil_r. exact Hcalls.
  - rewrite V2_removeResources_run, Hscope in Hrun.
    pose proof (V2_removeResourcesWithOpts_list_calls log crd None w) as Hcalls.
    pose proof (V2_removeResourcesWithOpts_success log crd None w) as Hok.
    rewrite Hrun in Hcalls, Hok. unfold trace_of, value_of in *. simpl in *.
    rewrite (Hok eq_refl) in Hcalls. exact Hcalls.
Qed.

End Sweep.

Lemma sweep_fan_out_witness :
  filter isListCall
    (calls (trace_of (V2.removeResources [] demoCRD demoCluster)))
  = [CallListNamespaces;
     CallListObjects "omnicorp.com/v1" "MyTestCrd" (Some "ns1");
     CallListObjects "omnicorp.com/v1" "MyTestCrd" (Some "ns2")].
Proof.
  apply (sweep_fan_out (client := ClusterClient) [] demoCRD demoCluster
           (world_of (V2.removeResources [] demoCRD demoCluster))).
  vm_compute. reflexivity.
Defined.

(** The first revision goes on, after the namespaces, to list the objects
    of the whole cluster once more. *)
Example V1_sweep_lists_cluster_wide_too :
  value_of (V1.removeResources [] demoCRD demoCluster) = None
  /\ filter isListCall
       (calls (trace_of (V1.removeResources [] demoCRD demoCluster)))
     = [CallListNamespaces;
        CallListObjects "omnicorp.com/v1" "MyTestCrd" (Some "ns1");
        CallListObjects "omnicorp.com/v1" "MyTestCrd" (Some "ns2");
        CallListObjects "omnicorp.com/v1" "MyTestCrd" None].
Proof. vm_compute. split; reflexivity. Qed.

(** ** Not-found on a list call *)

Lemma getAPIVersion_error (crd : CustomResourceDefinition) (e : error) :
  getAPIVersion crd = Err e -> e = NoServedVersion.
Proof.
  unfold getAPIVersion. rewrite getAPIVersion_loop_find.
  destruct (find ver_Served (spec_Versions crd)); congruence.
Qed.

Lemma onlyListNotFound_tail (ev : Event) (tr : list Event) :
  onlyListNotFound (ev :: tr) -> onlyListNotFound tr.
Proof. intros H c e Hin. apply H. right. exact Hin. Qed.

Lemma onlyListNotFound_app (t1 t2 : list Event) :
  onlyListNotFound (t1 ++ t2) -> onlyListNotFound t1 /\ onlyListNotFound t2.
Proof.
  intros H. split; intros c e Hin; apply H; apply in_or_app; auto.
Qed.

Section Tolerance.

Context {W : Type} {client : Client W} {ctx : Ctx W} {unicode : Unicode}.

Lemma removeResourcesWithOpts_loop_no_failure (log : Logger)
  (items : list Unstructured) :
  forall (w : W) r w' tr,
    removeResourcesWithOpts_loop log items w = (r, w', tr) ->
    onlyListNotFound tr -> r = None.
Proof.
  induction items as [| obj rest IH]; intros w r w' tr Hrun Honly.
  - inversion Hrun. reflexivity.
  - destruct (GetFinalizers obj) as [| f fs] eqn:Hfin.
    + rewrite removeResourcesWithOpts_loop_skip in Hrun by assumption. eauto.
    + rewrite removeResourcesWithOpts_loop_patch
        in Hrun by (rewrite Hfin; discriminate).
      cbv zeta in Hrun.
      destruct (client_Patch (SetFinalizers_nil obj) (MergeFrom obj) w)
        as [[err |] w1]; simpl in Hrun.
      * inversion Hrun; subst.
        destruct (Honly (patchOf obj) err) as [Hlist _];
          [right; left; reflexivity | discriminate Hlist].
      * destruct (removeResourcesWithOpts_loop log rest w1)
          as [[r1 w2] tr1] eqn:Hrest.
        inversion Hrun; subst.
        apply (IH _ _ _ _ Hrest).
        apply onlyListNotFound_tail with (ev := Api (patchOf obj) None).
        apply onlyListNotFound_tail in Honly. exact Honly.
Qed.

Lemma V2_removeResourcesWithOpts_no_failure (log : Logger)
    (crd : CustomResourceDefinition) (opts : ListOptions) (w : W) r w' tr :
  V2.removeResourcesWithOpts log crd opts w = (r, w', tr) ->
  onlyListNotFound tr -> r = None \/ r = Some NoServedVersion.
Proof.
  destruct (getAPIVersion crd) as [apiVersion | e] eqn:Hv.
  - rewrite (V2_removeResourcesWithOpts_run log crd opts _ w Hv). cbv zeta.
    destruct (client_ListObjects apiVersion (spec_Kind crd) opts w)
      as [[items | e] w1].
    + destruct (removeResourcesWithOpts_loop log items w1)
        as [[r1 w2] t1] eqn:Hloop.
      intros Hrun Honly. inversion Hrun; subst. left.
      apply (removeResourcesWithOpts_loop_no_failure _ _ _ _ _ _ Hloop).
      apply onlyListNotFound_tail in Honly. exact Honly.
    + intros Hrun Honly.
      destruct (IsNotFound e) eqn:Hnf; inversion Hrun; subst.
      * left. reflexivity.
      * destruct (Honly (CallListObjects apiVersion (spec_Kind crd) opts) e)
          as [_ Hnf']; [left; reflexivity | congruence].
  - unfold V2.removeResourcesWithOpts. rewrite Hv.
    intros Hrun _. inversion Hrun; subst. right.
    rewrite (getAPIVersion_error _ _ Hv). reflexivity.
Qed.

Lemma V2_removeResources_loop_no_failure (log : Logger)
    (crd : CustomResourceDefinition) (namespaces : list Namespace) :
  forall (w : W) r w' tr,
    V2.removeResources_loop log crd namespaces w = (r, w', tr) ->
    onlyListNotFound tr -> r = None \/ r = Some NoServedVersion.
Proof.
  induction namespaces as [| ns rest IH]; intros w r w' tr Hrun Honly.
  - inversion Hrun. left. reflexivity.
  - simpl in Hrun. unfold bind in Hrun.
    destruct (V2.removeResourcesWithOpts log crd (Some (ns_Name ns)) w)
      as [[r1 w1] t1] eqn:Hone.
    destruct r1 as [err |].
    + inversion Hrun; subst. rewrite app_nil_r in Honly.
      apply (V2_removeResourcesWithOpts_no_failure _ _ _ _ _ _ _ Hone Honly).
    + destruct (V2.removeResources_loop log crd rest w1)
        as [[r2 w2] t2] eqn:Hrest.
      inversion Hrun; subst.
      apply onlyListNotFound_app in Honly. destruct Honly as [_ Honly].
      apply (IH _ _ _ _ Hrest Honly).
Qed.

(** C3.  In the sweep of the second revision a list call that answers
    not-found is taken as an empty list, for the namespace list as for the
    object list of a scope: the sweep of that scope returns nil after the
    list call alone, the loop over the namespaces goes on with the next
    namespace, and a sweep in which nothing failed but list calls, with
    not-found, does not fail the target -- the one error it can still
    return is that the CRD has no served version. *)
Theorem list_not_found_is_tolerated (log : Logger)
    (crd : CustomResourceDefinition) :
  (forall (w w' : W) e,
      spec_Scope crd = NamespaceScoped ->
      client_ListNamespaces w = (Err e, w') ->
      IsNotFound e = true ->
      V2.removeResources log crd w
      = (None, w', [Api CallListNamespaces (Some e)]))
  /\ (forall opts apiVersion (w w' : W) e,
        getAPIVersion crd = Ok apiVersion ->
        client_ListObjects apiVersion (spec_Kind crd) opts w = (Err e, w') ->
        IsNotFound e = true ->
        V2.removeResourcesWithOpts log crd opts w
        = (None, w',
           [Api (CallListObjects apiVersion (spec_Kind crd) opts) (Some e)]))
  /\ (forall ns rest apiVersion (w w' : W) e,
        getAPIVersion crd = Ok apiVersion ->
        client_ListObjects apiVersion (spec_Kind crd) (Some (ns_Name ns)) w
        = (Err e, w') ->
        IsNotFound e = true ->
        V2.removeResources_loop log crd (ns :: rest) w
        = let next := V2.removeResources_loop log crd rest w' in
          (value_of next, world_of next,
           Api (CallListObjects apiVersion (spec_Kind crd)
                  (Some (ns_Name ns))) (Some e) :: trace_of next))
  /\ (forall (w : W) r w' tr,
        V2.removeResources log crd w = (r, w', tr) ->
        onlyListNotFound tr ->
        r = None \/ r = Some NoServedVersion).
Proof.
  split; [| split; [| split]].
  - intros w w' e Hscope Hlist Hnf.
    rewrite V2_removeResources_run, Hscope, Hlist, Hnf. reflexivity.
  - intros opts apiVersion w w' e Hv Hlist Hnf.
    rewrite (V2_removeResourcesWithOpts_run log crd opts _ w Hv). cbv zeta.
    rewrite Hlist, Hnf. reflexivity.
  - intros ns rest apiVersion w w' e Hv Hlist Hnf. simpl. unfold bind.
    rewrite (V2_removeResourcesWithOpts_run log crd _ _ w Hv). cbv zeta.
    rewrite Hlist, Hnf.
    destruct (V2.removeResources_loop log crd rest w') as [[r2 w2] t2].
    reflexivity.
  - intros w r w' tr. rewrite V2_removeResources_run.
    destruct (spec_Scope crd).
    + destruct (client_ListNamespaces w) as [[items | e] w1].
      * destruct (V2.removeResources_loop log crd items w1)
          as [[r2 w2] t2] eqn:Hloop.
        intros Hrun Honly. inversion Hrun; subst.
        apply (V2_removeResources_loop_no_failure _ _ _ _ _ _ _ Hloop).
        apply onlyListNotFound_tail in Honly. exact Honly.
      * intros Hrun Honly.
        destruct (IsNotFound e) eqn:Hnf; inversion Hrun; subst.
        -- left. reflexivity.
        -- destruct (Honly CallListNamespaces e) as [_ Hnf'];
             [left; reflexivity | congruence].
    + apply V2_removeResourcesWithOpts_no_failure.
Qed.

End Tolerance.

Lemma list_not_found_is_tolerated_witness :
  (* the namespace list answers not-found *)
  V2.removeResources [] demoCRD [ReplyNamespaces (Err notFoundError)]
  = (None, [], [Api CallListNamespaces (Some notFoundError)])
  (* the object list of a scope answers not-found *)
  /\ V2.removeResourcesWithOpts [] demoCRD (Some "ns1")
       [ReplyObjects (Err notFoundError)]
     = (None, [],
        [Api (CallListObjects "omnicorp.com/v1" "MyTestCrd" (Some "ns1"))
           (Some notFoundError)])
  (* a sweep where the first namespace answers not-found and the second has
     a stuck instance *)
  /\ (let script :=
        [ReplyNamespaces (Ok [{| ns_Name := "ns1" |}; {| ns_Name := "ns2" |}]);
         ReplyObjects (Err notFoundError);
         ReplyObjects (Ok [stuckC]);
         ReplyPatch None] in
      value_of (V2.removeResources [] demoCRD script) = None
      \/ value_of (V2.removeResources [] demoCRD script)
         = Some NoServedVersion).
Proof.
  destruct (list_not_found_is_tolerated (client := ScriptClient) [] demoCRD)
    as (Hns & Hobj & _ & Hall).
  split; [| split].
  - apply Hns; reflexivity.
  - apply Hobj; reflexivity.
  - intros script.
    apply (Hall script
             (value_of (V2.removeResources [] demoCRD script))
             (world_of (V2.removeResources [] demoCRD script))
             (trace_of (V2.removeResources [] demoCRD script))).
    + vm_compute. reflexivity.
    + intros c e Hin. vm_compute in Hin.
      repeat (destruct Hin as [Hin | Hin]; try discriminate Hin).
      * inversion Hin; subst. split; reflexivity.
      * contradiction.
Defined.

(** The first revision takes the same answers as fatal. *)
Example V1_list_not_found_is_fatal :
  value_of (V1.removeResources [] demoCRD [ReplyNamespaces (Err notFoundError)])
  = Some (ErrorfWrap "failed to list namespaces: " notFoundError)
  /\ value_of (V1.removeResourcesWithOpts [] demoCRD (Some "ns1")
                 [ReplyObjects (Err notFoundError)])
     = Some (ErrorfWrap "failed to list objects: " notFoundError).
Proof. split; reflexivity. Qed.

(** ** Clearing the finalizers and nothing else *)

Lemma lookup_remove_same (k : string) (m : Object) :
  lookup k (remove k m) = None.
Proof.
  induction m as [| [k' v] rest IH]; simpl; [reflexivity |].
  destruct (String.eqb k k') eqn:E; simpl; [exact IH |].
  rewrite E. exact IH.
Qed.

Lemma lookup_remove_other (k k' : string) (m : Object) :
  k <> k' -> lookup k' (remove k m) = lookup k' m.
Proof.
  intros Hne. induction m as [| [k0 v] rest IH]; simpl; [reflexivity |].
  destruct (String.eqb k k0) eqn:E; simpl.
  - apply String.eqb_eq in E. subst k0.
    destruct (String.eqb k' k) eqn:E'; [| exact IH].
    apply String.eqb_eq in E'. congruence.
  - rewrite IH. reflexivity.
Qed.

Lemma lookup_replace_same (k : string) (v v0 : value) (m : Object) :
  lookup k m = Some v0 -> lookup k (replace k v m) = Some v.
Proof.
  induction m as [| [k' v'] rest IH]; simpl; [discriminate |].
  destruct (String.eqb k k') eqn:E; simpl; rewrite E; auto.
Qed.

Lemma lookup_replace_other (k k' : string) (v : value) (m : Object) :
  k <> k' -> lookup k' (replace k v m) = lookup k' m.
Proof.
  intros Hne. induction m as [| [k0 v0] rest IH]; simpl; [reflexivity |].
  destruct (String.eqb k k0) eqn:E; simpl.
  - apply String.eqb_eq in E. subst k0.
    destruct (String.eqb k' k) eqn:E'; [| reflexivity].
    apply String.eqb_eq in E'. congruence.
  - rewrite IH. reflexivity.
Qed.

Lemma metadata_lookup (u : Unstructured) (m : Object) :
  metadata u = Some m -> lookup "metadata" (u_Object u) = Some (VMap m).
Proof.
  unfold metadata. destruct (lookup "metadata" (u_Object u)) as [[] |];
    congruence.
Qed.

Lemma SetFinalizers_nil_metadata (u : Unstructured) (m : Object) :
  metadata u = Some m ->
  metadata (SetFinalizers_nil u) = Some (remove "finalizers" m).
Proof.
  intros Hm. unfold SetFinalizers_nil. rewrite Hm.
  unfold metadata. simpl.
  rewrite (lookup_replace_same _ _ _ _ (metadata_lookup _ _ Hm)). reflexivity.
Qed.

Lemma SetFinalizers_nil_no_metadata (u : Unstructured) :
  metadata u = None -> SetFinalizers_nil u = u.
Proof. intros Hm. unfold SetFinalizers_nil. rewrite Hm. reflexivity. Qed.

Lemma SetFinalizers_nil_GetFinalizers (u : Unstructured) :
  GetFinalizers (SetFinalizers_nil u) = [].
Proof.
  destruct (metadata u) as [m |] eqn:Hm.
  - unfold GetFinalizers. rewrite (SetFinalizers_nil_metadata _ _ Hm).
    rewrite lookup_remove_same. reflexivity.
  - rewrite (SetFinalizers_nil_no_metadata _ Hm).
    unfold GetFinalizers. rewrite Hm. reflexivity.
Qed.

Lemma SetFinalizers_nil_other_fields (u : Unstructured) (k : string) :
  k <> "metadata" ->
  lookup k (u_Object (SetFinalizers_nil u)) = lookup k (u_Object u).
Proof.
  intros Hne. unfold SetFinalizers_nil.
  destruct (metadata u) as [m |]; [| reflexivity].
  simpl. apply lookup_replace_other. congruence.
Qed.

Lemma SetFinalizers_nil_other_metadata (u : Unstructured) (k : string) :
  k <> "finalizers" ->
  match metadata u, metadata (SetFinalizers_nil u) with
  | Some m, Some m' => lookup k m' = lookup k m
  | None, None => True
  | _, _ => False
  end.
Proof.
  intros Hne. destruct (metadata u) as [m |] eqn:Hm.
  - rewrite (SetFinalizers_nil_metadata _ _ Hm).
    apply lookup_remove_other. congruence.
  - rewrite (SetFinalizers_nil_no_metadata _ Hm), Hm. exact I.
Qed.

Lemma SetFinalizers_nil_identity (u : Unstructured) :
  GetName (SetFinalizers_nil u) = GetName u
  /\ GetNamespace (SetFinalizers_nil u) = GetNamespace u.
Proof.
  unfold GetName, GetNamespace, getNestedString.
  destruct (metadata u) as [m |] eqn:Hm.
  - rewrite (SetFinalizers_nil_metadata _ _ Hm).
    rewrite !lookup_remove_other by discriminate. split; reflexivity.
  - rewrite (SetFinalizers_nil_no_metadata _ Hm), Hm. split; reflexivity.
Qed.

Section Surgical.

Context {W : Type} {client : Client W} {ctx : Ctx W} {unicode : Unicode}.

(** C5.  In the sweep of one scope, the calls after the object list are
    patches, one for each listed instance that carries a finalizer, in the
    listed order and as far as the sweep went (all of them when it returns
    nil); an instance without finalizers gets no patch.  The patch of an
    instance sends the instance with its finalizers cleared as a merge patch
    from the instance as it was listed, and the two differ in the
    finalizers alone: every other top-level field and every other field of
    the metadata is the same, the name and the namespace among them. *)
Theorem finalizers_cleared_and_nothing_else (log : Logger)
    (crd : CustomResourceDefinition) (opts : ListOptions)
    (apiVersion : string) (w : W) r w' tr :
  getAPIVersion crd = Ok apiVersion ->
  V2.removeResourcesWithOpts log crd opts w = (r, w', tr) ->
  (exists processed remaining,
      listed (client_ListObjects apiVersion (spec_Kind crd) opts w)
      = (processed ++ remaining)%list
      /\ calls tr
         = CallListObjects apiVersion (spec_Kind crd) opts
           :: map (fun obj => CallPatch (SetFinalizers_nil obj) (MergeFrom obj))
                (filter (fun obj =>
                           negb (List.length (GetFinalizers obj) =? 0)%nat)
                   processed)
      /\ (r = None -> remaining = [])
      /\ (forall obj,
             GetFinalizers obj = [] ->
             ~ In (CallPatch (SetFinalizers_nil obj) (MergeFrom obj))
                 (calls tr)))
  /\ (forall obj,
         GetFinalizers (SetFinalizers_nil obj) = []
         /\ GetName (SetFinalizers_nil obj) = GetName obj
         /\ GetNamespace (SetFinalizers_nil obj) = GetNamespace obj
         /\ (forall k, k <> "metadata" ->
                lookup k (u_Object (SetFinalizers_nil obj))
                = lookup k (u_Object obj))
         /\ (forall k, k <> "finalizers" ->
                match metadata obj, metadata (SetFinalizers_nil obj) with
                | Some m, Some m' => lookup k m' = lookup k m
                | None, None => True
                | _, _ => False
                end)).
Proof.
  intros Hv Hrun. split.
  - rewrite (V2_removeResourcesWithOpts_run log crd opts _ w Hv) in Hrun.
    cbv zeta in Hrun. unfold listed.
    assert (Hskip : forall (l : list Unstructured) obj,
               GetFinalizers obj = [] ->
               ~ In (patchOf obj) (map patchOf (filter hasFinalizers l))).
    { intros l obj Hfin Hin. apply in_map_iff in Hin.
      destruct Hin as (obj' & Heq & Hin). apply filter_In in Hin.
      destruct Hin as [_ Hhas]. unfold patchOf in Heq.
      inversion Heq; subst. unfold hasFinalizers in Hhas.
      rewrite Hfin in Hhas. discriminate. }
    destruct (client_ListObjects apiVersion (spec_Kind crd) opts w)
      as [[items | e] w1]; simpl.
    + destruct (removeResourcesWithOpts_loop log items w1)
        as [[r1 w2] t1] eqn:Hloop.
      inversion Hrun; subst.
      destruct (removeResourcesWithOpts_loop_calls _ _ _ _ _ _ Hloop)
        as (processed & remaining & -> & Hcalls & Hnone).
      exists processed, remaining. simpl. rewrite Hcalls.
      repeat split; [assumption |].
      intros obj Hfin [Heq | Hin]; [discriminate |].
      exact (Hskip _ _ Hfin Hin).
    + exists [], [].
      destruct (IsNotFound e); inversion Hrun; subst; simpl;
        repeat split; try discriminate;
        intros obj _ [Heq | []]; discriminate.
  - intros obj.
    split; [apply SetFinalizers_nil_GetFinalizers |].
    split; [apply SetFinalizers_nil_identity |].
    split; [apply SetFinalizers_nil_identity |].
    split.
    + intros k. apply SetFinalizers_nil_other_fields.
    + intros k. apply SetFinalizers_nil_other_metadata.
Qed.

End Surgical.

Lemma finalizers_cleared_and_nothing_else_witness :
  let run := V2.removeResourcesWithOpts [] demoCRD (Some "ns1") demoCluster in
  value_of run = None
  /\ calls (trace_of run)
     = [CallListObjects "omnicorp.com/v1" "MyTestCrd" (Some "ns1");
        CallPatch (SetFinalizers_nil stuckA) (MergeFrom stuckA)]
  /\ u_Object stuckA
     = [("apiVersion", VString "omnicorp.com/v1");
        ("kind", VString "MyTestCrd");
        ("metadata",
         VMap [("namespace", VString "ns1"); ("name", VString "a");
               ("finalizers", VSlice [VString "a.b/finalizer"]);
               ("labels", VMap [("app", VString "demo")])]);
        ("spec", VMap [("size", VNumber 3)])]
  /\ u_Object (SetFinalizers_nil stuckA)
     = [("apiVersion", VString "omnicorp.com/v1");
        ("kind", VString "MyTestCrd");
        ("metadata",
         VMap [("namespace", VString "ns1"); ("name", VString "a");
               ("labels", VMap [("app", VString "demo")])]);
        ("spec", VMap [("size", VNumber 3)])].
Proof.
  intros run.
  destruct (finalizers_cleared_and_nothing_else (client := ClusterClient)
              [] demoCRD (Some "ns1") "omnicorp.com/v1" demoCluster
              (value_of run) (world_of run) (trace_of run)
              eq_refl eq_refl)
    as [(processed & remaining & Hall & Hcalls & Hnone & _) _].
  split; [reflexivity |].
  split; [| split; reflexivity].
  rewrite Hcalls.
  assert (Hp : processed = [stuckA; freeB]).
  { rewrite (Hnone eq_refl), app_nil_r in Hall. symmetry. exact Hall. }
  rewrite Hp. reflexivity.
Defined.

(** ** The body of the merge patch *)

Lemma value_eqb_refl (v : value) : value_eqb v v = true.
Proof.
  induction v using value_induction; simpl.
  - reflexivity.
  - apply Bool.eqb_reflx.
  - apply Z.eqb_refl.
  - apply String.eqb_refl.
  - induction H as [| x l Hx Hl IH]; [reflexivity |].
    rewrite Hx, IH. reflexivity.
  - induction H as [| [k x] m Hx Hm IH]; [reflexivity |].
    simpl in Hx. rewrite String.eqb_refl, Hx, IH. reflexivity.
Qed.

Lemma existsb_eqb_In (k : string) (keys : list string) :
  existsb (String.eqb k) keys = false -> ~ In k keys.
Proof.
  intros H Hin.
  assert (Ht : existsb (String.eqb k) keys = true).
  { apply existsb_exists. exists k. split; [exact Hin | apply String.eqb_refl]. }
  congruence.
Qed.

Lemma lookup_distinct (m : Object) (k : string) (v : value) :
  distinct (map fst m) = true -> In (k, v) m -> lookup k m = Some v.
Proof.
  induction m as [| [k' v'] rest IH]; simpl; [contradiction |].
  intros Hd [Heq | Hin].
  - inversion Heq; subst. rewrite String.eqb_refl. reflexivity.
  - apply andb_true_iff in Hd. destruct Hd as [Hk Hd].
    destruct (String.eqb k k') eqn:E.
    + apply String.eqb_eq in E. subst k'.
      apply negb_true_iff, existsb_eqb_In in Hk.
      exfalso. apply Hk. apply in_map_iff. exists (k, v). auto.
    + apply IH; assumption.
Qed.

Lemma changedFields_unchanged (diff : value -> value -> option value)
    (a b : Object) :
  (forall k v, In (k, v) b -> lookup k a = Some v /\ diff v v = None) ->
  changedFields diff a b = [].
Proof.
  induction b as [| [k v] rest IH]; intros H; simpl; [reflexivity |].
  destruct (H k v (or_introl eq_refl)) as [Hl Hd]. rewrite Hl, Hd.
  apply IH. intros k' v' Hin. apply H. right. exact Hin.
Qed.

Lemma removedFields_none (a b : Object) :
  (forall k v, In (k, v) a -> lookup k b <> None) ->
  removedFields a b = [].
Proof.
  induction a as [| [k v] rest IH]; intros H; simpl; [reflexivity |].
  destruct (lookup k b) eqn:E.
  - apply IH. intros k' v' Hin. apply (H k' v'). right. exact Hin.
  - exfalso. apply (H k v); [left; reflexivity | exact E].
Qed.

(** A value that has not changed has no entry in the patch. *)
Lemma diffValue_same (v : value) :
  wellFormed v = true -> diffValue v v = None.
Proof.
  induction v using value_induction; intros Hwf;
    try (simpl; rewrite ?Bool.eqb_reflx, ?Z.eqb_refl, ?String.eqb_refl;
         reflexivity).
  - change (diffValue (VSlice l) (VSlice l))
      with (if value_eqb (VSlice l) (VSlice l) then None
            else Some (VSlice l)).
    rewrite value_eqb_refl. reflexivity.
  - simpl in Hwf. apply andb_true_iff in Hwf. destruct Hwf as [Hd Hall].
    cbn [diffValue].
    rewrite changedFields_unchanged, removedFields_none; [reflexivity | |].
    + intros k v Hin. rewrite (lookup_distinct m k v Hd Hin). discriminate.
    + intros k v Hin. split; [apply lookup_distinct; assumption |].
      rewrite Forall_forall in H. apply (H (k, v) Hin).
      rewrite forallb_forall in Hall. apply (Hall (k, v) Hin).
Qed.

Lemma In_remove (k : string) (m : Object) (k' : string) (v : value) :
  In (k', v) (remove k m) -> In (k', v) m /\ k' <> k.
Proof.
  induction m as [| [k0 v0] rest IH]; simpl; [contradiction |].
  destruct (String.eqb k k0) eqn:E.
  - intros Hin. destruct (IH Hin). auto.
  - intros [Heq | Hin].
    + inversion Heq; subst. split; [left; reflexivity |].
      intros ->. rewrite String.eqb_refl in E. discriminate.
    + destruct (IH Hin). auto.
Qed.

Lemma removedFields_remove (k : string) (m s : Object) :
  distinct (map fst s) = true ->
  (forall k' v, In (k', v) s -> lookup k' m <> None) ->
  removedFields s (remove k m)
  = if existsb (String.eqb k) (map fst s) then [(k, VNil)] else [].
Proof.
  induction s as [| [k0 v0] rest IH]; intros Hd Hin; [reflexivity |].
  simpl in Hd. apply andb_true_iff in Hd. destruct Hd as [Hk0 Hd].
  assert (Hrest : forall k' v, In (k', v) rest -> lookup k' m <> None).
  { intros k' v H. apply (Hin k' v). right. exact H. }
  cbn [removedFields map fst existsb].
  destruct (String.eqb k k0) eqn:E.
  - apply String.eqb_eq in E. subst k0.
    rewrite lookup_remove_same, (IH Hd Hrest).
    apply negb_true_iff in Hk0. rewrite Hk0. reflexivity.
  - rewrite lookup_remove_other
      by (intros ->; rewrite String.eqb_refl in E; discriminate).
    destruct (lookup k0 m) eqn:El.
    + simpl. apply (IH Hd Hrest).
    + exfalso. apply (Hin k0 v0); [left; reflexivity | exact El].
Qed.

Lemma lookup_In (k : string) (m : Object) (v : value) :
  lookup k m = Some v -> In (k, v) m.
Proof.
  induction m as [| [k' v'] rest IH]; simpl; [discriminate |].
  destruct (String.eqb k k') eqn:E.
  - apply String.eqb_eq in E. subst k'. intros H. inversion H. auto.
  - auto.
Qed.

Lemma wellFormed_field (m : Object) (k : string) (v : value) :
  wellFormed (VMap m) = true -> In (k, v) m -> wellFormed v = true.
Proof.
  simpl. intros Hwf Hin. apply andb_true_iff in Hwf. destruct Hwf as [_ Hall].
  rewrite forallb_forall in Hall. apply (Hall (k, v) Hin).
Qed.

(** The patch of a map from which one field has been removed. *)
Lemma diffValue_remove (k : string) (m : Object) (v : value) :
  wellFormed (VMap m) = true ->
  lookup k m = Some v ->
  diffValue (VMap m) (VMap (remove k m)) = Some (VMap [(k, VNil)]).
Proof.
  intros Hwf Hl. pose proof Hwf as Hwf'.
  simpl in Hwf'. apply andb_true_iff in Hwf'. destruct Hwf' as [Hd _].
  cbn [diffValue].
  rewrite changedFields_unchanged.
  - rewrite removedFields_remove.
    + assert (He : existsb (String.eqb k) (map fst m) = true).
      { apply existsb_exists. exists k. split; [| apply String.eqb_refl].
        apply in_map_iff. exists (k, v). split; [reflexivity |].
        apply lookup_In. exact Hl. }
      rewrite He. reflexivity.
    + exact Hd.
    + intros k' v' Hin. rewrite (lookup_distinct m k' v' Hd Hin). discriminate.
  - intros k' v' Hin. apply In_remove in Hin. destruct Hin as [Hin _].
    split; [apply lookup_distinct; assumption |].
    apply diffValue_same. apply (wellFormed_field m k' v' Hwf Hin).
Qed.

Lemma lookup_replace_None (k k' : string) (v : value) (m : Object) :
  lookup k' (replace k v m) = None <-> lookup k' m = None.
Proof.
  induction m as [| [k0 v0] rest IH]; simpl; [tauto |].
  destruct (String.eqb k k0) eqn:E; simpl.
  - destruct (String.eqb k' k0); [split; discriminate | tauto].
  - destruct (String.eqb k' k0); [split; discriminate | exact IH].
Qed.

(** The changed fields of a map in which the value of one field has been
    replaced. *)
Lemma changedFields_replace (diff : value -> value -> option value)
    (a s : Object) (k : string) (old new d : value) :
  distinct (map fst s) = true ->
  (forall k' v, In (k', v) s -> lookup k' a = Some v /\ diff v v = None) ->
  lookup k a = Some old ->
  diff old new = Some d ->
  changedFields diff a (replace k new s)
  = if existsb (String.eqb k) (map fst s) then [(k, d)] else [].
Proof.
  intros Hd Hs Hold Hdiff.
  induction s as [| [k0 v0] rest IH]; [reflexivity |].
  simpl in Hd. apply andb_true_iff in Hd. destruct Hd as [Hk0 Hd].
  assert (Hrest : forall k' v, In (k', v) rest ->
                               lookup k' a = Some v /\ diff v v = None).
  { intros k' v H. apply Hs. right. exact H. }
  cbn [replace map fst existsb].
  destruct (String.eqb k k0) eqn:E.
  - apply String.eqb_eq in E. subst k0.
    cbn [changedFields]. rewrite Hold, Hdiff.
    rewrite (changedFields_unchanged diff a rest Hrest). reflexivity.
  - cbn [changedFields].
    destruct (Hs k0 v0 (or_introl eq_refl)) as [Hl Hsame].
    rewrite Hl, Hsame. simpl. apply (IH Hd Hrest).
Qed.

(** The body of the patch that the sweep sends for a stuck instance: it
    sets the finalizers to null and says nothing of any other field. *)
Lemma mergePatch_clears_finalizers (obj : Unstructured) :
  wellFormed (VMap (u_Object obj)) = true ->
  GetFinalizers obj <> [] ->
  mergePatch obj (SetFinalizers_nil obj)
  = [("metadata", VMap [("finalizers", VNil)])].
Proof.
  intros Hwf Hfin.
  destruct (metadata obj) as [m |] eqn:Hm;
    [| unfold GetFinalizers in Hfin; rewrite Hm in Hfin; contradiction].
  destruct (lookup "finalizers" m) as [f |] eqn:Hf;
    [| unfold GetFinalizers in Hfin; rewrite Hm, Hf in Hfin; contradiction].
  pose proof (metadata_lookup _ _ Hm) as Hmeta.
  pose proof (lookup_In _ _ _ Hmeta) as Hin.
  pose proof (wellFormed_field _ _ _ Hwf Hin) as Hwfm.
  pose proof Hwf as Hwf'.
  simpl in Hwf'. apply andb_true_iff in Hwf'. destruct Hwf' as [Hd _].
  unfold mergePatch, SetFinalizers_nil. rewrite Hm. cbn [u_Object diffValue].
  rewrite (changedFields_replace _ (u_Object obj) (u_Object obj) "metadata"
             (VMap m) (VMap (remove "finalizers" m))
             (VMap [("finalizers", VNil)])).
  - rewrite removedFields_none.
    + assert (He : existsb (String.eqb "metadata") (map fst (u_Object obj))
                   = true).
      { apply existsb_exists. exists "metadata". split; [| reflexivity].
        apply in_map_iff. exists ("metadata", VMap m). auto. }
      rewrite He. reflexivity.
    + intros k v Hk Hnone. apply lookup_replace_None in Hnone.
      rewrite (lookup_distinct _ k v Hd Hk) in Hnone. discriminate.
  - exact Hd.
  - intros k v Hk. split; [apply lookup_distinct; assumption |].
    apply diffValue_same. apply (wellFormed_field _ k v Hwf Hk).
  - exact Hmeta.
  - apply (diffValue_remove "finalizers" m f Hwfm Hf).
Qed.

Example mergePatch_of_a_stuck_instance :
  mergePatch stuckA (SetFinalizers_nil stuckA)
  = [("metadata", VMap [("finalizers", VNil)])]
  /\ mergePatch stuckD (SetFinalizers_nil stuckD)
     = [("metadata", VMap [("finalizers", VNil)])].
Proof. split; reflexivity. Qed.

(** ** The convergence wait *)

Lemma laterFetches_app (crdName : string) (o1 o2 : list (option error)) :
  laterFetches crdName (o1 ++ o2)
  = (laterFetches crdName o1 ++ laterFetches crdName o2)%list.
Proof.
  induction o1 as [| o rest IH]; simpl; [reflexivity |].
  rewrite IH. reflexivity.
Qed.

Lemma laterFetches_waited (crdName : string) (outcomes : list (option error)) :
  waited (laterFetches crdName outcomes)
    = 100 * Z.of_nat (List.length outcomes).
Proof.
  induction outcomes as [| o rest IH]; [reflexivity |].
  cbn [laterFetches waited List.length]. rewrite IH. lia.
Qed.

Lemma laterFetches_calls (crdName : string) (outcomes : list (option error)) :
  calls (laterFetches crdName outcomes)
  = repeat (CallGet crdName) (List.length outcomes).
Proof.
  induction outcomes as [| o rest IH]; simpl; [reflexivity |].
  rewrite IH. reflexivity.
Qed.

Lemma pollFetches_waited (crdName : string) (outcomes : list (option error)) :
  waited (pollFetches crdName outcomes)
  = 100 * Z.of_nat (Nat.pred (List.length outcomes)).
Proof.
  destruct outcomes as [| o rest]; [reflexivity |].
  cbn [pollFetches waited List.length Nat.pred].
  apply laterFetches_waited.
Qed.

Lemma pollFetches_calls (crdName : string) (outcomes : list (option error)) :
  calls (pollFetches crdName outcomes)
  = repeat (CallGet crdName) (List.length outcomes).
Proof.
  destruct outcomes as [| o rest]; [reflexivity |].
  cbn [pollFetches calls List.length repeat]. f_equal.
  apply laterFetches_calls.
Qed.

Section Wait.

Context {W : Type} {client : Client W} {ctx : Ctx W} {unicode : Unicode}.

Lemma crdGone_run (crdName : string) (w : W) :
  V2.crdGone crdName w =
    match client_Get crdName w with
    | (Ok _, w1) => ((false, None), w1, [Api (CallGet crdName) None])
    | (Err e, w1) =>
        (if IsNotFound e then (true, None) else (false, Some e), w1,
         [Api (CallGet crdName) (Some e)])
    end.
Proof.
  unfold V2.crdGone. step.
  destruct (client_Get crdName w) as [[crd | e] w1]; simpl; [reflexivity |].
  destruct (IsNotFound e); reflexivity.
Qed.

(** One wait of the loop: the tick is served, or the deadline has come, or
    the signal has. *)
Lemma awaitTick_run (interval remaining : Z) (w : W) res w' tr :
  0 < interval ->
  0 <= remaining ->
  awaitTick interval remaining w = (res, w', tr) ->
  w' = w
  /\ ((res = None /\ tr = [Wait interval] /\ interval <= remaining)
      \/ (res = Some DeadlineExceeded /\ tr = [Wait remaining]
          /\ remaining <= interval)
      \/ (res = Some Canceled
          /\ (exists d,
                 tr = [Wait d] /\ 0 <= d <= remaining /\ d < interval)
          /\ exists s, ctx_signal w = Some s)).
Proof.
  intros Hinterval Hremaining. unfold awaitTick. cbv zeta.
  assert (Hdeadline :
            (if (remaining <? interval)
                || ((remaining =? interval) && ctx_deadlineFirst w)
             then (Some DeadlineExceeded, w, [Wait (Z.max 0 remaining)])
             else (None, w, [Wait interval])) = (res, w', tr) ->
            w' = w
            /\ ((res = None /\ tr = [Wait interval] /\ interval <= remaining)
                \/ (res = Some DeadlineExceeded /\ tr = [Wait remaining]
                    /\ remaining <= interval)
                \/ (res = Some Canceled
                    /\ (exists d,
                           tr = [Wait d] /\ 0 <= d <= remaining
                           /\ d < interval)
                    /\ exists s, ctx_signal w = Some s))).
  { destruct (Z.ltb_spec remaining interval) as [Hlt | Hge]; cbn [orb].
    - intros H. inversion H; subst. split; [reflexivity |].
      right. left. rewrite Z.max_r by lia. repeat split. lia.
    - destruct (Z.eqb_spec remaining interval) as [Heq | Hne]; cbn [andb].
      + destruct (ctx_deadlineFirst w); intros H; inversion H; subst.
        * split; [reflexivity |]. right. left.
          rewrite Z.max_r by lia. repeat split. lia.
        * split; [reflexivity |]. left. repeat split. lia.
      + intros H. inversion H; subst. split; [reflexivity |].
        left. repeat split. exact Hge. }
  destruct (ctx_signal w) as [s |] eqn:Hsignal; [| exact Hdeadline].
  destruct (Z.ltb_spec s (Z.min interval remaining)) as [Hlt | Hge];
    [| exact Hdeadline].
  intros H. inversion H; subst. split; [reflexivity |].
  right. right. split; [reflexivity |]. split; [| exists s; reflexivity].
  exists (Z.max 0 s). split; [reflexivity |]. lia.
Qed.

(** One round of the loop. *)
Lemma loopConditionUntilContext_round (rounds : nat) (interval remaining : Z)
    (condition : ConditionFunc) (w : W) :
  loopConditionUntilContext (S rounds) interval remaining condition w =
    let '(done, w0, t0) := awaitTick interval remaining w in
    match done with
    | Some err => (Some err, w0, t0)
    | None =>
        let '(r, w1, t1) := condition w0 in
        match r with
        | (_, Some err) => (Some err, w1, (t0 ++ t1)%list)
        | (true, None) => (None, w1, (t0 ++ t1)%list)
        | (false, None) =>
            let '(res, w2, t2) :=
              loopConditionUntilContext rounds interval
                (remaining - interval) condition w1 in
            (res, w2, (t0 ++ t1 ++ t2)%list)
        end
    end.
Proof.
  cbn [loopConditionUntilContext]. unfold bind at 1.
  destruct (awaitTick interval remaining w) as [[[err |] w0] t0].
  - unfold ret. rewrite app_nil_r. reflexivity.
  - unfold bind at 1.
    destruct (condition w0) as [[[[|] [err |]] w1] t1]; unfold ret;
      cbn iota beta; rewrite ?app_nil_r; try reflexivity.
    destruct (loopConditionUntilContext rounds interval
                (remaining - interval) condition w1) as [[res w2] t2].
    reflexivity.
Qed.

(** The loop after the first fetch, with [m] ticks up to the deadline: [n]
    ticks find the CRD still there, and then either the context is done,
    because the deadline has come (with the last tick, or after the fetch
    of the last tick) or because the signal has, or the next fetch fails,
    with not-found or with something else. *)
Lemma loopConditionUntilContext_crdGone (crdName : string) (m : nat) :
  forall (w : W) res w' tr,
    loopConditionUntilContext (S m) 100 (100 * Z.of_nat m)
      (V2.crdGone crdName) w
    = (res, w', tr) ->
    exists n : nat,
      (exists d err,
          res = Some err
          /\ tr = (laterFetches crdName (repeat None n) ++ [Wait d])%list
          /\ ((err = DeadlineExceeded
               /\ ((n = m /\ d = 0) \/ (S n = m /\ d = 100)))
              \/ (err = Canceled
                  /\ (n <= m)%nat /\ 0 <= d < 100 /\ (n = m -> d = 0)
                  /\ exists w0 s, ctx_signal w0 = Some s)))
      \/ ((n < m)%nat
          /\ exists e w0,
               client_Get crdName w0 = (Err e, w')
               /\ tr = laterFetches crdName (repeat None n ++ [Some e])
               /\ res = if IsNotFound e then None else Some e).
Proof.
  induction m as [| m IH]; intros w res w' tr Hrun;
    rewrite loopConditionUntilContext_round in Hrun;
    destruct (awaitTick 100 (100 * Z.of_nat _) w) as [[done w0] t0] eqn:Hwait;
    apply awaitTick_run in Hwait; try lia;
    destruct Hwait
      as [-> [(-> & -> & Hle) | [(-> & -> & Hle)
                                | (-> & (d & -> & Hd & Hd') & s & Hs)]]].
  - exfalso. simpl in Hle. lia.
  - inversion Hrun; subst. exists 0%nat. left.
    exists 0, DeadlineExceeded.
    split; [reflexivity |]. split; [reflexivity |]. left. auto.
  - inversion Hrun; subst. exists 0%nat. left.
    exists d, Canceled.
    split; [reflexivity |]. split; [reflexivity |]. right.
    simpl in Hd. repeat split; try lia. exists w', s. exact Hs.
  - rewrite crdGone_run in Hrun.
    replace (100 * Z.of_nat (S m) - 100) with (100 * Z.of_nat m) in Hrun
      by lia.
    destruct (client_Get crdName w) as [[crd | e] w1] eqn:Hget.
    + destruct (loopConditionUntilContext (S m) 100 (100 * Z.of_nat m)
                  (V2.crdGone crdName) w1) as [[res1 w2] t1] eqn:Hloop.
      inversion Hrun; subst.
      destruct (IH _ _ _ _ Hloop)
        as [n [(d & err & -> & -> & Hwhy)
              | (Hlt & e & w0 & Hg & -> & ->)]].
      * exists (S n). left. exists d, err.
        split; [reflexivity |]. split; [reflexivity |].
        destruct Hwhy as [(-> & Hnd) | (-> & Hn & Hd & Hnm & Hsig)].
        -- left. split; [reflexivity |]. lia.
        -- right. repeat split; try lia. exact Hsig.
      * exists (S n). right. split; [lia |].
        exists e, w0. repeat split. assumption.
    + exists 0%nat. right. split; [lia |].
      exists e, w.
      destruct (IsNotFound e); inversion Hrun; subst; repeat split;
        assumption.
  - inversion Hrun; subst. exists 0%nat. left.
    exists (100 * Z.of_nat (S m)), DeadlineExceeded.
    split; [reflexivity |]. split; [reflexivity |].
    left. split; [reflexivity |]. right. lia.
  - inversion Hrun; subst. exists 0%nat. left.
    exists d, Canceled.
    split; [reflexivity |]. split; [reflexivity |]. right.
    repeat split; try lia. exists w', s. exact Hs.
Qed.

(** The wait of [nukeCRD]: [n] fetches find the CRD still there, the first
    at once and the others 100 milliseconds apart, and then either the
    context is done or the next fetch fails.  The deadline of five seconds
    falls on the tick of the 51st fetch: it ends the wait in place of that
    fetch, or right after it. *)
Lemma PollUntilContextTimeout_crdGone (crdName : string) :
  forall (w : W) res w' tr,
    PollUntilContextTimeout 100 5000 true (V2.crdGone crdName) w
    = (res, w', tr) ->
    exists n : nat,
      (exists d err,
          res = Some err
          /\ tr = (pollFetches crdName (repeat None n) ++ [Wait d])%list
          /\ ((err = DeadlineExceeded
               /\ ((n = 51%nat /\ d = 0) \/ (n = 50%nat /\ d = 100)))
              \/ (err = Canceled
                  /\ (1 <= n <= 51)%nat /\ 0 <= d < 100
                  /\ (n = 51%nat -> d = 0)
                  /\ exists w0 s, ctx_signal w0 = Some s)))
      \/ ((n < 51)%nat
          /\ exists e w0,
               client_Get crdName w0 = (Err e, w')
               /\ tr = pollFetches crdName (repeat None n ++ [Some e])
               /\ res = if IsNotFound e then None else Some e).
Proof.
  intros w res w' tr. unfold PollUntilContextTimeout.
  change (S (Z.to_nat (5000 / 100))) with 51%nat.
  change 5000 with (100 * Z.of_nat 50).
  unfold bind at 1. rewrite crdGone_run.
  destruct (client_Get crdName w) as [[crd | e] w1] eqn:Hget.
  - destruct (loopConditionUntilContext 51 100 (100 * Z.of_nat 50)
                (V2.crdGone crdName) w1)
      as [[res1 w2] t1] eqn:Hloop.
    intros Hrun. inversion Hrun; subst.
    destruct (loopConditionUntilContext_crdGone _ _ _ _ _ _ Hloop)
      as [n [(d & err & -> & -> & Hwhy) | (Hlt & e & w0 & Hg & -> & ->)]].
    + exists (S n). left. exists d, err.
      split; [reflexivity |]. split; [reflexivity |].
      destruct Hwhy as [(-> & Hnd) | (-> & Hn & Hd & Hnm & Hsig)].
      * left. split; [reflexivity |]. lia.
      * right. repeat split; try lia. exact Hsig.
    + exists (S n). right. split; [lia |].
      exists e, w0. repeat split. assumption.
  - intros Hrun. exists 0%nat. right. split; [lia |].
    exists e, w.
    destruct (IsNotFound e); inversion Hrun; subst; repeat split; assumption.
Qed.

Lemma PollUntilContextTimeout_crdGone_calls (crdName : string) (w : W)
    res w' tr :
  PollUntilContextTimeout 100 5000 true (V2.crdGone crdName) w
  = (res, w', tr) ->
  forall c, In c (calls tr) -> c = CallGet crdName.
Proof.
  intros Hpoll c Hin.
  destruct (PollUntilContextTimeout_crdGone _ _ _ _ _ Hpoll)
    as [n [(d & err & _ & -> & _) | (_ & e & _ & _ & -> & _)]].
  - rewrite calls_app, pollFetches_calls in Hin. simpl in Hin.
    rewrite app_nil_r in Hin. apply repeat_spec in Hin. exact Hin.
  - rewrite pollFetches_calls in Hin. apply repeat_spec in Hin. exact Hin.
Qed.

(** [nukeCRD] once the CRD is fetched and deleted and the sweep is through:
    the wait, and what is made of its result. *)
Lemma V2_nukeCRD_wait (log : Logger) (crdName : string)
    (crd : CustomResourceDefinition) (w w1 w2 w3 : W) (ts : list Event) :
  client_Get crdName w = (Ok crd, w1) ->
  client_Delete crd w1 = (None, w2) ->
  V2.removeResources log crd w2 = (None, w3, ts) ->
  V2.nukeCRD log crdName w =
    let '(res, w4, tp) :=
      PollUntilContextTimeout 100 5000 true (V2.crdGone crdName) w3 in
    match res with
    | Some e =>
        if Interrupted e
        then (None, w4,
              fetchedAndDeleted log crdName crd ++ ts ++ tp
              ++ [Log WarnLevel log stillExists])%list
        else (Some (ErrorfWrap "failed to check final CRD existence: " e), w4,
              fetchedAndDeleted log crdName crd ++ ts ++ tp)%list
    | None => (None, w4, fetchedAndDeleted log crdName crd ++ ts ++ tp)%list
    end.
Proof.
  intros Hget Hdel Hsweep. unfold V2.nukeCRD.
  unfold bind, logf, emit, Get, Delete, ret.
  rewrite Hget. cbn iota beta. rewrite Hdel. cbn iota beta. rewrite Hsweep.
  cbn iota beta.
  destruct (PollUntilContextTimeout 100 5000 true (V2.crdGone crdName) w3)
    as [[res w4] tp].
  destruct res as [e |]; [destruct (Interrupted e) |];
    simpl; rewrite ?app_nil_r; reflexivity.
Qed.

(** C7, as the code has it.  After the delete and a sweep that went
    through, [nukeCRD] fetches the CRD by its name at once and then again
    after every 100 milliseconds of waiting, and never waits more than 5
    seconds in all.  With [n] the number of fetches that found the CRD
    still there, the wait ends in one of five ways.  The next fetch answers
    not-found, and [nukeCRD] returns nil.  Or the 5 seconds are over: the
    deadline falls on the tick of the 51st fetch and ends the wait in place
    of that fetch or, if the tick is served first, after it; [nukeCRD] logs
    the warning and returns nil.  Or the context of [main] is cancelled
    while the wait is between two fetches: no further fetch, the warning,
    and nil.  Or the next fetch fails with an error that is neither
    not-found nor a cancelled or expired context, and [nukeCRD] returns
    that error, wrapped.  Or the next fetch fails because its context was
    cancelled or has expired, which goes the way of the timeout: the
    warning, and nil. *)
Theorem convergence_wait (log : Logger) (crdName : string)
    (crd : CustomResourceDefinition) (w w1 w2 w3 : W) (ts : list Event)
    r w4 tr :
  client_Get crdName w = (Ok crd, w1) ->
  client_Delete crd w1 = (None, w2) ->
  V2.removeResources log crd w2 = (None, w3, ts) ->
  V2.nukeCRD log crdName w = (r, w4, tr) ->
  exists (n : nat) (tw : list Event),
    tr = (fetchedAndDeleted log crdName crd ++ ts ++ tw)%list
    /\ waited tw <= 5000
    /\ (forall c, In c (calls tw) -> c = CallGet crdName)
    /\ (((n < 51)%nat
         /\ exists e,
              IsNotFound e = true
              /\ tw = pollFetches crdName (repeat None n ++ [Some e])
              /\ waited tw = 100 * Z.of_nat n
              /\ r = None)
        \/ (exists d,
               ((n = 50%nat /\ d = 100) \/ (n = 51%nat /\ d = 0))
               /\ tw = (pollFetches crdName (repeat None n)
                        ++ [Wait d; Log WarnLevel log stillExists])%list
               /\ waited tw = 5000
               /\ r = None)
        \/ (exists d,
               (1 <= n <= 51)%nat /\ 0 <= d < 100
               /\ (exists w0 s, ctx_signal w0 = Some s)
               /\ tw = (pollFetches crdName (repeat None n)
                        ++ [Wait d; Log WarnLevel log stillExists])%list
               /\ waited tw = 100 * Z.of_nat (n - 1) + d
               /\ r = None)
        \/ ((n < 51)%nat
            /\ exists e,
                 IsNotFound e = false /\ Interrupted e = false
                 /\ tw = pollFetches crdName (repeat None n ++ [Some e])
                 /\ waited tw = 100 * Z.of_nat n
                 /\ r = Some (ErrorfWrap
                                "failed to check final CRD existence: " e))
        \/ ((n < 51)%nat
            /\ exists e,
                 IsNotFound e = false /\ Interrupted e = true
                 /\ tw = (pollFetches crdName (repeat None n ++ [Some e])
                          ++ [Log WarnLevel log stillExists])%list
                 /\ waited tw = 100 * Z.of_nat n
                 /\ r = None)).
Proof.
  intros Hget Hdel Hsweep.
  rewrite (V2_nukeCRD_wait log crdName crd w w1 w2 w3 ts Hget Hdel Hsweep).
  destruct (PollUntilContextTimeout 100 5000 true (V2.crdGone crdName) w3)
    as [[res w5] tp] eqn:Hpoll.
  assert (Hgets : forall (outcomes : list (option error))
                         (tail : list Event) c,
             calls tail = [] ->
             In c (calls (pollFetches crdName outcomes ++ tail)%list) ->
             c = CallGet crdName).
  { intros outcomes tail c Htail Hin.
    rewrite calls_app, Htail, app_nil_r, pollFetches_calls in Hin.
    apply repeat_spec in Hin. exact Hin. }
  assert (Hwait : forall n (e : error) (tail : list Event),
             waited tail = 0 ->
             waited (pollFetches crdName (repeat None n ++ [Some e])
                     ++ tail)%list = 100 * Z.of_nat n).
  { intros n e tail Htail.
    rewrite waited_app, Htail, pollFetches_waited, length_app, repeat_length.
    simpl. replace (Nat.pred (n + 1)) with n by lia. lia. }
  assert (Hdone : forall n d,
             waited (pollFetches crdName (repeat None n)
                     ++ [Wait d; Log WarnLevel log stillExists])%list
             = 100 * Z.of_nat (n - 1) + d).
  { intros n d.
    rewrite waited_app, pollFetches_waited, repeat_length.
    cbn [waited]. replace (Nat.pred n) with (n - 1)%nat by lia. lia. }
  destruct (PollUntilContextTimeout_crdGone _ _ _ _ _ Hpoll)
    as [n [(d & err & -> & -> & Hwhy) | (Hlt & e & w0 & Hg & -> & ->)]].
  - assert (Hint : Interrupted err = true)
      by (destruct Hwhy as [[-> _] | [-> _]]; reflexivity).
    rewrite Hint. intros Hrun. inversion Hrun; subst.
    exists n, (pollFetches crdName (repeat None n)
               ++ [Wait d; Log WarnLevel log stillExists])%list.
    split; [rewrite <- app_assoc; reflexivity |].
    split; [rewrite Hdone;
            destruct Hwhy as [(_ & [[-> ->] | [-> ->]])
                             | (_ & Hn & Hd & Hnd & _)];
            [vm_compute; discriminate | vm_compute; discriminate |];
            destruct (Nat.eq_dec n 51) as [-> | Hne];
            [rewrite (Hnd eq_refl); vm_compute; discriminate | lia] |].
    split; [intros c; apply Hgets; reflexivity |].
    destruct Hwhy as [(_ & Hnd) | (_ & Hn & Hd & Hnd & Hsig)].
    + right. left. exists d.
      split; [tauto |]. split; [reflexivity |]. split; [| reflexivity].
      rewrite Hdone. destruct Hnd as [[-> ->] | [-> ->]]; reflexivity.
    + right. right. left. exists d.
      split; [exact Hn |]. split; [exact Hd |]. split; [exact Hsig |].
      split; [reflexivity |]. split; [apply Hdone | reflexivity].
  - destruct (IsNotFound e) eqn:Hnf.
    + intros Hrun. inversion Hrun; subst.
      exists n, (pollFetches crdName (repeat None n ++ [Some e])).
      split; [reflexivity |].
      pose proof (Hwait n e [] eq_refl) as Hw. rewrite app_nil_r in Hw.
      split; [lia |].
      split; [intros c Hin; apply (Hgets (repeat None n ++ [Some e])%list [] c eq_refl);
              rewrite app_nil_r; exact Hin |].
      left. split; [exact Hlt |]. exists e. auto.
    + destruct (Interrupted e) eqn:Hint.
      * intros Hrun. inversion Hrun; subst.
        exists n, (pollFetches crdName (repeat None n ++ [Some e])
                   ++ [Log WarnLevel log stillExists])%list.
        split; [reflexivity |].
        pose proof (Hwait n e [Log WarnLevel log stillExists] eq_refl) as Hw.
        split; [lia |].
        split; [intros c; apply Hgets; reflexivity |].
        right. right. right. right. split; [exact Hlt |]. exists e. auto.
      * intros Hrun. inversion Hrun; subst.
        exists n, (pollFetches crdName (repeat None n ++ [Some e])).
        split; [reflexivity |].
        pose proof (Hwait n e [] eq_refl) as Hw. rewrite app_nil_r in Hw.
        split; [lia |].
        split; [intros c Hin; apply (Hgets (repeat None n ++ [Some e])%list [] c eq_refl);
                rewrite app_nil_r; exact Hin |].
        right. right. right. left. split; [exact Hlt |]. exists e. auto.
Qed.

End Wait.

Lemma convergence_wait_witness :
  let script := waitScript [ReplyGet (Ok clusterCRD);
                            ReplyGet (Err notFoundError)] in
  let run := V2.nukeCRD [] "mytestcrds.omnicorp.com" script in
  exists (n : nat) (tw : list Event),
    trace_of run
    = (fetchedAndDeleted [] "mytestcrds.omnicorp.com" clusterCRD
       ++ [Api (CallListObjects "omnicorp.com/v1" "MyTestCrd" None) None]
       ++ tw)%list
    /\ waited tw <= 5000
    /\ (forall c, In c (calls tw) -> c = CallGet "mytestcrds.omnicorp.com")
    /\ (((n < 51)%nat
         /\ exists e,
              IsNotFound e = true
              /\ tw = pollFetches "mytestcrds.omnicorp.com"
                        (repeat None n ++ [Some e])
              /\ waited tw = 100 * Z.of_nat n
              /\ value_of run = None)
        \/ (exists d,
               ((n = 50%nat /\ d = 100) \/ (n = 51%nat /\ d = 0))
               /\ tw = (pollFetches "mytestcrds.omnicorp.com"
                          (repeat None n)
                        ++ [Wait d; Log WarnLevel [] stillExists])%list
               /\ waited tw = 5000
               /\ value_of run = None)
        \/ (exists d,
               (1 <= n <= 51)%nat /\ 0 <= d < 100
               /\ (exists w0 s, ctx_signal (W := Script) w0 = Some s)
               /\ tw = (pollFetches "mytestcrds.omnicorp.com"
                          (repeat None n)
                        ++ [Wait d; Log WarnLevel [] stillExists])%list
               /\ waited tw = 100 * Z.of_nat (n - 1) + d
               /\ value_of run = None)
        \/ ((n < 51)%nat
            /\ exists e,
                 IsNotFound e = false /\ Interrupted e = false
                 /\ tw = pollFetches "mytestcrds.omnicorp.com"
                           (repeat None n ++ [Some e])
                 /\ waited tw = 100 * Z.of_nat n
                 /\ value_of run
                    = Some (ErrorfWrap
                              "failed to check final CRD existence: " e))
        \/ ((n < 51)%nat
            /\ exists e,
                 IsNotFound e = false /\ Interrupted e = true
                 /\ tw = (pollFetches "mytestcrds.omnicorp.com"
                            (repeat None n ++ [Some e])
                          ++ [Log WarnLevel [] stillExists])%list
                 /\ waited tw = 100 * Z.of_nat n
                 /\ value_of run = None)).
Proof.
  intros script run.
  apply (convergence_wait (client := ScriptClient) []
           "mytestcrds.omnicorp.com" clusterCRD script
           [ReplyDelete None; ReplyObjects (Ok []);
            ReplyGet (Ok clusterCRD); ReplyGet (Err notFoundError)]
           [ReplyObjects (Ok []);
            ReplyGet (Ok clusterCRD); ReplyGet (Err notFoundError)]
           [ReplyGet (Ok clusterCRD); ReplyGet (Err notFoundError)]
           [Api (CallListObjects "omnicorp.com/v1" "MyTestCrd" None) None]
           (value_of run) (world_of run)).
  - reflexivity.
  - reflexivity.
  - reflexivity.
  - reflexivity.
Defined.

(** The ways out of the wait, run. *)

Example wait_converged :
  let run := V2.nukeCRD [] "mytestcrds.omnicorp.com"
               (waitScript [ReplyGet (Ok clusterCRD);
                            ReplyGet (Ok clusterCRD);
                            ReplyGet (Err notFoundError)]) in
  value_of run = None
  /\ trace_of run
     = [Log InfoLevel [] "Nuking…";
        Api (CallGet "mytestcrds.omnicorp.com") None;
        Api (CallDelete clusterCRD) None;
        Api (CallListObjects "omnicorp.com/v1" "MyTestCrd" None) None;
        Api (CallGet "mytestcrds.omnicorp.com") None;
        Wait 100;
        Api (CallGet "mytestcrds.omnicorp.com") None;
        Wait 100;
        Api (CallGet "mytestcrds.omnicorp.com") (Some notFoundError)].
Proof. split; reflexivity. Qed.

(** The timeout when the tick on the deadline is served first: the fetch
    of the sweep and 51 fetches of the wait. *)
Example wait_timed_out :
  let run := V2.nukeCRD [] "mytestcrds.omnicorp.com" blockedCluster in
  value_of run = None
  /\ logged WarnLevel (trace_of run) = [stillExists]
  /\ waited (trace_of run) = 5000
  /\ List.length
       (filter (fun c => match c with CallGet _ => true | _ => false end)
          (calls (trace_of run))) = 52%nat
  /\ cl_crds (world_of run) = [(demoCRD, true)].
Proof. vm_compute. repeat split. Qed.

(** The timeout when the expiry of the deadline is seen first: 50 fetches
    of the wait, and the answer to a 51st is never asked for. *)
Example wait_timed_out_before_the_last_tick :
  let script := waitScript (repeat (ReplyGet (Ok clusterCRD)) 50
                            ++ [ReplyGet (Err forbidden)]) in
  let run := V2.nukeCRD [] "mytestcrds.omnicorp.com" (script, 1000) in
  value_of run = None
  /\ logged WarnLevel (trace_of run) = [stillExists]
  /\ waited (trace_of run) = 5000
  /\ List.length
       (filter (fun c => match c with CallGet _ => true | _ => false end)
          (calls (trace_of run))) = 51%nat
  /\ world_of run = ([ReplyGet (Err forbidden)], 1000).
Proof. vm_compute. repeat split. Qed.

(** The same answers when the tick on the deadline is served first: the
    51st fetch is made, and its error is the result. *)
Example wait_failed_on_the_last_tick :
  let script := waitScript (repeat (ReplyGet (Ok clusterCRD)) 50
                            ++ [ReplyGet (Err forbidden)]) in
  let run := V2.nukeCRD [] "mytestcrds.omnicorp.com" script in
  value_of run
  = Some (ErrorfWrap "failed to check final CRD existence: " forbidden)
  /\ logged WarnLevel (trace_of run) = []
  /\ waited (trace_of run) = 5000
  /\ List.length
       (filter (fun c => match c with CallGet _ => true | _ => false end)
          (calls (trace_of run))) = 52%nat
  /\ world_of run = [].
Proof. vm_compute. repeat split. Qed.

(** The user interrupts 30 milliseconds after the second fetch of the
    wait. *)
Example wait_interrupted :
  let script := waitScript [ReplyGet (Ok clusterCRD);
                            ReplyGet (Ok clusterCRD)] in
  let run := V2.nukeCRD [] "mytestcrds.omnicorp.com" (script, 30) in
  value_of run = None
  /\ trace_of run
     = [Log InfoLevel [] "Nuking…";
        Api (CallGet "mytestcrds.omnicorp.com") None;
        Api (CallDelete clusterCRD) None;
        Api (CallListObjects "omnicorp.com/v1" "MyTestCrd" None) None;
        Api (CallGet "mytestcrds.omnicorp.com") None;
        Wait 100;
        Api (CallGet "mytestcrds.omnicorp.com") None;
        Wait 30;
        Log WarnLevel [] stillExists].
Proof. split; reflexivity. Qed.

Example wait_failed :
  let run := V2.nukeCRD [] "mytestcrds.omnicorp.com"
               (waitScript [ReplyGet (Ok clusterCRD);
                            ReplyGet (Err forbidden)]) in
  value_of run
  = Some (ErrorfWrap "failed to check final CRD existence: " forbidden)
  /\ logged WarnLevel (trace_of run) = [].
Proof. split; reflexivity. Qed.

(** The claim C7 as it is written does not hold: a fetch of the wait that
    fails because the context was cancelled fails with an error that is not
    not-found, and yet [nukeCRD] does not return it: it logs the warning of
    the timeout and returns nil. *)
Lemma convergence_wait_counterexample :
  let run := V2.nukeCRD [] "mytestcrds.omnicorp.com"
               (waitScript [ReplyGet (Ok clusterCRD);
                            ReplyGet (Err canceled)]) in
  IsNotFound canceled = false
  /\ In (Api (CallGet "mytestcrds.omnicorp.com") (Some canceled))
       (trace_of run)
  /\ waited (trace_of run) = 100
  /\ value_of run = None
  /\ logged WarnLevel (trace_of run) = [stillExists].
Proof. vm_compute. repeat split. find_event. Qed.

(** ** A patch that fails *)

Lemma abortsOnFailedPatch_nil (r : option error) : abortsOnFailedPatch r [].
Proof.
  intros before obj patch e after H.
  destruct before; discriminate H.
Qed.

Lemma abortsOnFailedPatch_cons (ev : Event) (r : option error)
    (tr : list Event) :
  (forall obj patch e, ev <> Api (CallPatch obj patch) (Some e)) ->
  abortsOnFailedPatch r tr ->
  abortsOnFailedPatch r (ev :: tr).
Proof.
  intros Hev Htr before obj patch e after H.
  destruct before as [| b before]; simpl in H.
  - inversion H. subst. exfalso. exact (Hev obj patch e eq_refl).
  - inversion H. subst. eapply Htr. reflexivity.
Qed.

Lemma abortsOnFailedPatch_app (r : option error) (t1 t2 : list Event) :
  abortsOnFailedPatch None t1 ->
  abortsOnFailedPatch r t2 ->
  abortsOnFailedPatch r (t1 ++ t2).
Proof.
  intros H1 H2 before obj patch e after H.
  apply app_eq_app in H. destruct H as [l [[Ht1 Hrest] | [Hbefore Ht2]]].
  - destruct l as [| x l].
    + simpl in Hrest. apply (H2 [] obj patch e after). symmetry. exact Hrest.
    + simpl in Hrest. inversion Hrest. subst.
      destruct (H1 before obj patch e l eq_refl) as [_ (original & _ & _ & Hr)].
      discriminate Hr.
  - apply (H2 l obj patch e after). exact Ht2.
Qed.

Lemma abortsOnFailedPatch_no_patch (r : option error) (tr : list Event) :
  (forall c, In c (calls tr) -> isPatchCall c = false) ->
  abortsOnFailedPatch r tr.
Proof.
  intros Hno before obj patch e after H. subst tr.
  assert (Hin : In (CallPatch obj patch)
                  (calls (before ++ Api (CallPatch obj patch) (Some e) :: after))).
  { rewrite calls_app. apply in_or_app. right. left. reflexivity. }
  apply Hno in Hin. discriminate Hin.
Qed.

Section Abort.

Context {W : Type} {client : Client W} {ctx : Ctx W} {unicode : Unicode}.

Lemma removeResourcesWithOpts_loop_aborts (log : Logger)
  (items : list Unstructured) :
  forall (w : W) r w' tr,
    removeResourcesWithOpts_loop log items w = (r, w', tr) ->
    abortsOnFailedPatch r tr.
Proof.
  induction items as [| obj rest IH]; intros w r w' tr Hrun.
  - inversion Hrun. apply abortsOnFailedPatch_nil.
  - destruct (GetFinalizers obj) as [| f fs] eqn:Hfin.
    + rewrite removeResourcesWithOpts_loop_skip in Hrun by assumption. eauto.
    + rewrite removeResourcesWithOpts_loop_patch
        in Hrun by (rewrite Hfin; discriminate).
      cbv zeta in Hrun.
      destruct (client_Patch (SetFinalizers_nil obj) (MergeFrom obj) w)
        as [[err |] w1]; simpl in Hrun.
      * inversion Hrun; subst.
        apply abortsOnFailedPatch_cons; [discriminate |].
        intros before o patch e after H.
        destruct before as [| b before]; simpl in H.
        -- unfold patchOf in H. inversion H; subst.
           split; [reflexivity |]. exists obj. repeat split.
        -- inversion H. destruct before; discriminate.
      * destruct (removeResourcesWithOpts_loop log rest w1)
          as [[r1 w2] t1] eqn:Hrest.
        inversion Hrun; subst.
        apply abortsOnFailedPatch_cons; [discriminate |].
        apply abortsOnFailedPatch_cons; [discriminate |].
        eauto.
Qed.

Lemma V2_removeResourcesWithOpts_aborts (log : Logger)
    (crd : CustomResourceDefinition) (opts : ListOptions) (w : W) r w' tr :
  V2.removeResourcesWithOpts log crd opts w = (r, w', tr) ->
  abortsOnFailedPatch r tr.
Proof.
  destruct (getAPIVersion crd) as [apiVersion | e] eqn:Hv.
  - rewrite (V2_removeResourcesWithOpts_run log crd opts _ w Hv). cbv zeta.
    destruct (client_ListObjects apiVersion (spec_Kind crd) opts w)
      as [[items | e] w1].
    + destruct (removeResourcesWithOpts_loop log items w1)
        as [[r1 w2] t1] eqn:Hloop.
      intros Hrun. inversion Hrun; subst.
      apply abortsOnFailedPatch_cons; [discriminate |].
      apply (removeResourcesWithOpts_loop_aborts _ _ _ _ _ _ Hloop).
    + intros Hrun.
      destruct (IsNotFound e); inversion Hrun; subst;
        (apply abortsOnFailedPatch_cons;
         [discriminate | apply abortsOnFailedPatch_nil]).
  - unfold V2.removeResourcesWithOpts. rewrite Hv.
    intros Hrun. inversion Hrun. apply abortsOnFailedPatch_nil.
Qed.

Lemma V2_removeResources_loop_aborts (log : Logger)
    (crd : CustomResourceDefinition) (namespaces : list Namespace) :
  forall (w : W) r w' tr,
    V2.removeResources_loop log crd namespaces w = (r, w', tr) ->
    abortsOnFailedPatch r tr.
Proof.
  induction namespaces as [| ns rest IH]; intros w r w' tr Hrun.
  - inversion Hrun. apply abortsOnFailedPatch_nil.
  - simpl in Hrun. unfold bind in Hrun.
    destruct (V2.removeResourcesWithOpts log crd (Some (ns_Name ns)) w)
      as [[r1 w1] t1] eqn:Hone.
    apply V2_removeResourcesWithOpts_aborts in Hone.
    destruct r1 as [err |].
    + inversion Hrun; subst. rewrite app_nil_r. exact Hone.
    + destruct (V2.removeResources_loop log crd rest w1)
        as [[r2 w2] t2] eqn:Hrest.
      inversion Hrun; subst.
      apply abortsOnFailedPatch_app; eauto.
Qed.

Lemma V2_removeResources_aborts (log : Logger)
    (crd : CustomResourceDefinition) (w : W) r w' tr :
  V2.removeResources log crd w = (r, w', tr) ->
  abortsOnFailedPatch r tr.
Proof.
  rewrite V2_removeResources_run. destruct (spec_Scope crd).
  - destruct (client_ListNamespaces w) as [[items | e] w1].
    + destruct (V2.removeResources_loop log crd items w1)
        as [[r2 w2] t2] eqn:Hloop.
      intros Hrun. inversion Hrun; subst.
      apply abortsOnFailedPatch_cons; [discriminate |].
      apply (V2_removeResources_loop_aborts _ _ _ _ _ _ _ Hloop).
    + intros Hrun.
      destruct (IsNotFound e); inversion Hrun; subst;
        (apply abortsOnFailedPatch_cons;
         [discriminate | apply abortsOnFailedPatch_nil]).
  - apply V2_removeResourcesWithOpts_aborts.
Qed.

End Abort.

Lemma objIdent_spec (obj : Unstructured) :
  objIdent obj =
    match GetNamespace obj with
    | EmptyString => GetName obj
    | ns => ns ++ "/" ++ GetName obj
    end.
Proof.
  unfold objIdent. destruct (GetNamespace obj); reflexivity.
Qed.

Section PatchFailure.

Context {W : Type} {client : Client W} {ctx : Ctx W} {unicode : Unicode}.

Lemma V2_nukeCRD_aborts (log : Logger) (crdName : string) (w : W) r w' tr :
  V2.nukeCRD log crdName w = (r, w', tr) ->
  abortsOnFailedPatch r tr.
Proof.
  destruct (client_Get crdName w) as [[crd | e] w1] eqn:Hget.
  - destruct (client_Delete crd w1) as [[e |] w2] eqn:Hdel.
    + unfold V2.nukeCRD. step. rewrite Hget. simpl. rewrite Hdel. simpl.
      intros Hrun. inversion Hrun; subst.
      repeat (apply abortsOnFailedPatch_cons; [discriminate |]).
      apply abortsOnFailedPatch_nil.
    + destruct (V2.removeResources log crd w2) as [[rs w3] ts] eqn:Hsweep.
      pose proof (V2_removeResources_aborts _ _ _ _ _ _ Hsweep) as Hts.
      destruct rs as [err |].
      * unfold V2.nukeCRD. unfold bind, logf, emit, Get, Delete, ret.
        rewrite Hget. cbn iota beta. rewrite Hdel. cbn iota beta.
        rewrite Hsweep. cbn iota beta.
        intros Hrun. inversion Hrun; subst. simpl. rewrite app_nil_r.
        repeat (apply abortsOnFailedPatch_cons; [discriminate |]).
        exact Hts.
      * rewrite (V2_nukeCRD_wait log crdName crd w w1 w2 w3 ts Hget Hdel Hsweep).
        destruct (PollUntilContextTimeout 100 5000 true
                    (V2.crdGone crdName) w3) as [[res w4] tp] eqn:Hpoll.
        pose proof (PollUntilContextTimeout_crdGone_calls _ _ _ _ _ Hpoll)
          as Hgets.
        assert (Htail : forall (tail : list Event) r0,
                   calls tail = [] ->
                   abortsOnFailedPatch r0
                     (fetchedAndDeleted log crdName crd ++ ts ++ tp ++ tail)).
        { intros tail r0 Htail. unfold fetchedAndDeleted. simpl.
          repeat (apply abortsOnFailedPatch_cons; [discriminate |]).
          apply abortsOnFailedPatch_app; [exact Hts |].
          apply abortsOnFailedPatch_no_patch.
          intros c Hin. rewrite calls_app, Htail, app_nil_r in Hin.
          rewrite (Hgets c Hin). reflexivity. }
        intros Hrun.
        destruct res as [e |]; [destruct (Interrupted e) |];
          inversion Hrun; subst.
        -- apply Htail. reflexivity.
        -- rewrite <- (app_nil_r tp). apply Htail. reflexivity.
        -- rewrite <- (app_nil_r tp). apply Htail. reflexivity.
  - unfold V2.nukeCRD. step. rewrite Hget. simpl.
    intros Hrun.
    destruct (IsNotFound e); inversion Hrun; subst;
      repeat (apply abortsOnFailedPatch_cons; [discriminate |]);
      apply abortsOnFailedPatch_nil.
Qed.

(** C6.  When a patch fails in a run of [nukeCRD], the failed patch is the
    last thing that happens for the target: no further instance and no
    further scope is listed or patched, and there is no wait.  The error
    [nukeCRD] returns is ["failed to delete <ident>: "] wrapped around the
    error of the patch, where [<ident>] is [namespace/name] of the
    instance, or its bare name when it has no namespace. *)
Theorem patch_failure_aborts (log : Logger) (crdName : string)
    (w : W) r w' tr
    (before after : list Event) (obj : Unstructured) (patch : Patch)
    (e : error) :
  V2.nukeCRD log crdName w = (r, w', tr) ->
  tr = (before ++ Api (CallPatch obj patch) (Some e) :: after)%list ->
  after = []
  /\ exists original,
       patch = MergeFrom original
       /\ obj = SetFinalizers_nil original
       /\ r = Some (ErrorfWrap
                      ("failed to delete "
                       ++ match GetNamespace original with
                          | EmptyString => GetName original
                          | ns => ns ++ "/" ++ GetName original
                          end
                       ++ ": ") e).
Proof.
  intros Hrun Htr.
  pose proof (V2_nukeCRD_aborts _ _ _ _ _ _ Hrun) as Habort.
  destruct (Habort before obj patch e after Htr)
    as [Hafter (original & Hpatch & Hobj & Hr)].
  split; [exact Hafter |]. exists original.
  rewrite <- objIdent_spec. auto.
Qed.

End PatchFailure.

Lemma patch_failure_aborts_witness :
  let script :=
    [ReplyGet (Ok demoCRD); ReplyDelete None;
     ReplyNamespaces (Ok [{| ns_Name := "ns1" |}; {| ns_Name := "ns2" |}]);
     ReplyObjects (Ok [freeB; stuckA; stuckC]);
     ReplyPatch (Some forbidden);
     ReplyPatch None; ReplyObjects (Ok []); ReplyGet (Err notFoundError)] in
  let run := V2.nukeCRD [] "mytestcrds.omnicorp.com" script in
  trace_of run
  = [Log InfoLevel [] "Nuking…";
     Api (CallGet "mytestcrds.omnicorp.com") None;
     Api (CallDelete demoCRD) None;
     Api CallListNamespaces None;
     Api (CallListObjects "omnicorp.com/v1" "MyTestCrd" (Some "ns1")) None;
     Log DebugLevel [("resource", "ns1/a")] "Nuking…";
     Api (CallPatch (SetFinalizers_nil stuckA) (MergeFrom stuckA))
       (Some forbidden)]
  /\ exists original,
       MergeFrom stuckA = MergeFrom original
       /\ SetFinalizers_nil stuckA = SetFinalizers_nil original
       /\ value_of run
          = Some (ErrorfWrap
                    ("failed to delete "
                     ++ match GetNamespace original with
                        | EmptyString => GetName original
                        | ns => ns ++ "/" ++ GetName original
                        end
                     ++ ": ") forbidden).
Proof.
  intros script run. split; [reflexivity |].
  apply (patch_failure_aborts (client := ScriptClient) []
           "mytestcrds.omnicorp.com" script
           (value_of run) (world_of run) (trace_of run)
           [Log InfoLevel [] "Nuking…";
            Api (CallGet "mytestcrds.omnicorp.com") None;
            Api (CallDelete demoCRD) None;
            Api CallListNamespaces None;
            Api (CallListObjects "omnicorp.com/v1" "MyTestCrd" (Some "ns1"))
              None;
            Log DebugLevel [("resource", "ns1/a")] "Nuking…"]
           []).
  - reflexivity.
  - reflexivity.
Defined.

(** The error of a failed patch, as the caller reads it: with the namespace
    for a namespaced instance, with the bare name for one without. *)
Example patch_failure_messages :
  option_map Error
    (value_of (V2.removeResourcesWithOpts [] demoCRD (Some "ns1")
                 [ReplyObjects (Ok [stuckA]); ReplyPatch (Some forbidden)]))
  = Some "failed to delete ns1/a: forbidden"
  /\ option_map Error
       (value_of (V2.removeResourcesWithOpts [] clusterCRD None
                    [ReplyObjects (Ok [stuckD]); ReplyPatch (Some forbidden)]))
     = Some "failed to delete d: forbidden".
Proof. split; reflexivity. Qed.

(** ** The exit status *)

Section ExitStatus.

Context {W : Type} {unicode : Unicode}.

Variable nukeCRD : Logger -> string -> M (W := W) (option error).

Lemma main_loop_runs (log : Logger) (args : list string) :
  forall (success : bool) (w : W),
    value_of (main_loop nukeCRD log args success w)
    = (success || existsb failed (targetRuns nukeCRD log args w))%bool
    /\ calls (trace_of (main_loop nukeCRD log args success w))
       = List.concat (map (fun run => calls (snd run))
                   (targetRuns nukeCRD log args w)).
Proof.
  induction args as [| crdName rest IH]; intros success w.
  - simpl. rewrite orb_false_r. split; reflexivity.
  - simpl. unfold bind.
    destruct (nukeCRD (WithField log "crd" (ToLower crdName))
                (ToLower crdName) w) as [[r w1] t1].
    destruct r as [err |].
    + unfold logf, emit. simpl.
      destruct (IH true w1) as [Hv Hc].
      destruct (main_loop nukeCRD log rest true w1) as [[b w2] t2].
      unfold value_of, trace_of in *. simpl in *.
      rewrite Hv. split; [symmetry; apply orb_true_r |].
      rewrite calls_app. simpl. rewrite Hc. reflexivity.
    + destruct (IH success w1) as [Hv Hc].
      destruct (main_loop nukeCRD log rest success w1) as [[b w2] t2].
      unfold value_of, trace_of in *. simpl in *.
      rewrite Hv. split; [reflexivity |].
      rewrite calls_app, Hc. reflexivity.
Qed.

Lemma targetRuns_length (log : Logger) (args : list string) :
  forall w : W,
    List.length (targetRuns nukeCRD log args w) = List.length args.
Proof.
  induction args as [| crdName rest IH]; intros w; simpl; [reflexivity |].
  destruct (nukeCRD (WithField log "crd" (ToLower crdName))
              (ToLower crdName) w) as [[r w1] t1].
  simpl. rewrite IH. reflexivity.
Qed.

Lemma main_with_runs (args : list string) (w : W) :
  List.length (targetRuns nukeCRD [] args w) = List.length args
  /\ calls (trace_of (main_with nukeCRD args w))
     = List.concat (map (fun run => calls (snd run))
                 (targetRuns nukeCRD [] args w))
  /\ value_of (main_with nukeCRD args w)
     = if existsb failed (targetRuns nukeCRD [] args w) then 0 else 1.
Proof.
  split; [apply targetRuns_length |].
  unfold main_with. destruct args as [| crdName rest].
  - simpl. split; reflexivity.
  - cbn [List.length Nat.eqb]. unfold bind.
    destruct (main_loop_runs [] (crdName :: rest) false w) as [Hv Hc].
    destruct (main_loop nukeCRD [] (crdName :: rest) false w)
      as [[success w1] t1].
    unfold value_of, trace_of in *. cbn [fst snd] in *.
    rewrite orb_false_l in Hv. rewrite <- Hv.
    destruct success; unfold logf, emit, ret; cbn [fst snd];
      rewrite ?calls_app, ?app_nil_r; simpl; rewrite ?app_nil_r; auto.
Qed.

End ExitStatus.

(** C1.  What [main] does, in both revisions: every target of the command
    line is run, in order, whatever became of the targets before it, and
    the calls of [main] are the calls of these runs.  The exit status is 0
    when a target failed and 1 when none did -- the other way round from
    what the claim says, and from what the name of the flag [success] and
    the line logged before exiting with 0 say. *)
Theorem main_exit_status_is_inverted {W : Type} {client : Client W}
    {ctx : Ctx W} {unicode : Unicode} (args : list string) (w : W) :
  (List.length (targetRuns V2.nukeCRD [] args w) = List.length args
   /\ calls (trace_of (V2.main args w))
      = List.concat (map (fun run => calls (snd run))
                  (targetRuns V2.nukeCRD [] args w))
   /\ value_of (V2.main args w)
      = if existsb failed (targetRuns V2.nukeCRD [] args w) then 0 else 1)
  /\ (List.length (targetRuns V1.nukeCRD [] args w) = List.length args
      /\ calls (trace_of (V1.main args w))
         = List.concat (map (fun run => calls (snd run))
                     (targetRuns V1.nukeCRD [] args w))
      /\ value_of (V1.main args w)
         = if existsb failed (targetRuns V1.nukeCRD [] args w) then 0 else 1).
Proof.
  split; apply main_with_runs.
Qed.

(** A run in which every target succeeds exits with 1. *)
Example main_all_targets_succeed :
  let targets := ["MyTestCrds.omnicorp.com"; "other.omnicorp.com"] in
  let run := V2.main (unicode := asciiOnly) targets demoCluster in
  map fst (targetRuns (unicode := asciiOnly) V2.nukeCRD [] targets
             demoCluster)
  = [None; None]
  /\ value_of run = 1
  /\ logged ErrorLevel (trace_of run) = []
  /\ logged InfoLevel (trace_of run) = ["Nuking…"; "Nuking…"].
Proof. vm_compute. repeat split. Qed.

(** A run with a good and a bad target: the bad one fails on its list call,
    the good one is still run to its end, and the process exits with 0
    after logging that everything went well. *)
Example main_one_target_fails :
  let script :=
    [ReplyGet (Ok clusterCRD); ReplyDelete None;
     ReplyObjects (Err forbidden);
     ReplyGet (Ok clusterCRD); ReplyDelete None; ReplyObjects (Ok []);
     ReplyGet (Err notFoundError)] in
  let targets := ["bad.omnicorp.com"; "good.omnicorp.com"] in
  let run := V2.main (unicode := asciiOnly) targets script in
  map fst (targetRuns (unicode := asciiOnly) V2.nukeCRD [] targets script)
  = [Some (ErrorfWrap "failed to list objects: " forbidden); None]
  /\ world_of run = []
  /\ value_of run = 0
  /\ logged ErrorLevel (trace_of run)
     = ["Failed to nuke: failed to list objects: forbidden"]
  /\ logged InfoLevel (trace_of run)
     = ["Nuking…"; "Nuking…"; "Everything nuked successfully."].
Proof. vm_compute. repeat split. Qed.

(** ** Running twice *)

Lemma logged_warning (log : Logger) (msg : string) (tr : list Event) :
  In (Log WarnLevel log msg) tr -> logged WarnLevel tr <> [].
Proof.
  induction tr as [| ev tr IH]; simpl; [contradiction |].
  intros [-> | Hin]; [discriminate |].
  destruct ev as [c o | d | l fields m]; auto.
  destruct l; auto. discriminate.
Qed.

Section Twice.

Context {W : Type} {client : Client W} {ctx : Ctx W} {unicode : Unicode}.

(** A run of [nukeCRD] that returns nil without the warning has ended on a
    fetch of the CRD that answered not-found. *)
Lemma V2_nukeCRD_converged (log : Logger) (crdName : string) (w w' : W)
    (tr : list Event) :
  V2.nukeCRD log crdName w = (None, w', tr) ->
  logged WarnLevel tr = [] ->
  exists w0 e, client_Get crdName w0 = (Err e, w') /\ IsNotFound e = true.
Proof.
  destruct (client_Get crdName w) as [[crd | e] w1] eqn:Hget.
  - destruct (client_Delete crd w1) as [[e |] w2] eqn:Hdel.
    + unfold V2.nukeCRD. step. rewrite Hget. simpl. rewrite Hdel. simpl.
      discriminate.
    + destruct (V2.removeResources log crd w2) as [[rs w3] ts] eqn:Hsweep.
      destruct rs as [err |].
      * unfold V2.nukeCRD. unfold bind, logf, emit, Get, Delete, ret.
        rewrite Hget. cbn iota beta. rewrite Hdel. cbn iota beta.
        rewrite Hsweep. cbn iota beta. discriminate.
      * rewrite (V2_nukeCRD_wait log crdName crd w w1 w2 w3 ts Hget Hdel Hsweep).
        destruct (PollUntilContextTimeout 100 5000 true
                    (V2.crdGone crdName) w3) as [[res w4] tp] eqn:Hpoll.
        destruct (PollUntilContextTimeout_crdGone _ _ _ _ _ Hpoll)
          as [n [(d & err & -> & -> & Hwhy)
                | (Hlt & e & w0 & Hg & -> & ->)]].
        -- assert (Hint : Interrupted err = true)
             by (destruct Hwhy as [[-> _] | [-> _]]; reflexivity).
           rewrite Hint. intros Hrun Hlog.
           inversion Hrun; subst. exfalso.
           revert Hlog. apply (logged_warning log stillExists). find_event.
        -- destruct (IsNotFound e) eqn:Hnf.
           ++ intros Hrun _. inversion Hrun; subst. exists w0, e. auto.
           ++ destruct (Interrupted e); [| discriminate].
              intros Hrun Hlog. inversion Hrun; subst. exfalso.
              revert Hlog. apply (logged_warning log stillExists). find_event.
  - unfold V2.nukeCRD. step. rewrite Hget. simpl.
    destruct (IsNotFound e) eqn:Hnf; [| discriminate].
    intros Hrun _. inversion Hrun; subst. exists w, e. auto.
Qed.

(** C9, as the code has it.  Take a cluster in which a CRD that a fetch has
    found missing is still missing at the next fetch.  When a first run of
    [nukeCRD] has returned nil without the warning that the CRD still
    exists, a second run for the same name returns nil and its only call is
    the fetch of the CRD, which answers not-found: no delete, no list and
    no patch. *)
Theorem second_run_is_noop (log : Logger) (crdName : string) (w w1 : W)
    (tr1 : list Event) :
  (forall w0 e w0',
      client_Get crdName w0 = (Err e, w0') -> IsNotFound e = true ->
      exists e' w0'',
        client_Get crdName w0' = (Err e', w0'') /\ IsNotFound e' = true) ->
  V2.nukeCRD log crdName w = (None, w1, tr1) ->
  logged WarnLevel tr1 = [] ->
  exists e' w2,
    IsNotFound e' = true
    /\ V2.nukeCRD log crdName w1
       = (None, w2, [Log InfoLevel log "Nuking…";
                     Api (CallGet crdName) (Some e');
                     Log DebugLevel log "CRD does not exist."])
    /\ calls (trace_of (V2.nukeCRD log crdName w1)) = [CallGet crdName].
Proof.
  intros Hstable Hrun Hlog.
  destruct (V2_nukeCRD_converged _ _ _ _ _ Hrun Hlog) as (w0 & e & Hget & Hnf).
  destruct (Hstable _ _ _ Hget Hnf) as (e' & w2 & Hget' & Hnf').
  exists e', w2. split; [exact Hnf' |].
  rewrite (V2_nukeCRD_missing log _ _ _ _ Hget' Hnf').
  split; reflexivity.
Qed.

End Twice.

(** In the small cluster nothing brings a CRD back. *)
Lemma Cluster_missing_stays_missing (crdName : string) (c c' : Cluster)
    (e : error) :
  client_Get crdName c = (Err e, c') ->
  IsNotFound e = true ->
  exists e' c'',
    client_Get crdName c' = (Err e', c'') /\ IsNotFound e' = true.
Proof.
  simpl. intros Hget _.
  destruct (findCRD crdName c) as [[crd b] |] eqn:Hfind;
    inversion Hget; subst.
  exists (notFound crdName), c'. rewrite Hfind. split; reflexivity.
Qed.

Lemma second_run_is_noop_witness :
  let first := V2.nukeCRD [] "mytestcrds.omnicorp.com" demoCluster in
  value_of first = None
  /\ logged WarnLevel (trace_of first) = []
  /\ filter isPatchCall (calls (trace_of first))
     = [CallPatch (SetFinalizers_nil stuckA) (MergeFrom stuckA);
        CallPatch (SetFinalizers_nil stuckC) (MergeFrom stuckC)]
  /\ exists e' w2,
       IsNotFound e' = true
       /\ V2.nukeCRD [] "mytestcrds.omnicorp.com" (world_of first)
          = (None, w2, [Log InfoLevel [] "Nuking…";
                        Api (CallGet "mytestcrds.omnicorp.com") (Some e');
                        Log DebugLevel [] "CRD does not exist."])
       /\ calls (trace_of (V2.nukeCRD [] "mytestcrds.omnicorp.com"
                             (world_of first)))
          = [CallGet "mytestcrds.omnicorp.com"].
Proof.
  intros first.
  split; [reflexivity |]. split; [reflexivity |]. split; [reflexivity |].
  apply (second_run_is_noop (client := ClusterClient) []
           "mytestcrds.omnicorp.com" demoCluster (world_of first)
           (trace_of first)).
  - intros w0 e w0'. apply Cluster_missing_stays_missing.
  - reflexivity.
  - reflexivity.
Defined.

(** The claim C9 as it is written does not hold.  Something outside the
    reach of the tool holds the CRD back; the first run sweeps the stuck
    instances, waits its 5 seconds, warns and returns nil; the CRD is still
    there, so the second run, which returns nil as well, deletes it again
    and lists every namespace again. *)
Lemma second_run_counterexample :
  let first := V2.nukeCRD [] "mytestcrds.omnicorp.com" blockedCluster in
  let second := V2.nukeCRD [] "mytestcrds.omnicorp.com" (world_of first) in
  value_of first = None
  /\ value_of second = None
  /\ filter (fun c => isDeleteCall c || isListCall c || isPatchCall c)%bool
       (calls (trace_of second))
     = [CallDelete demoCRD;
        CallListNamespaces;
        CallListObjects "omnicorp.com/v1" "MyTestCrd" (Some "ns1");
        CallListObjects "omnicorp.com/v1" "MyTestCrd" (Some "ns2")].
Proof. vm_compute. repeat split. Qed.

(** ** The first revision, where it does the same *)

Section FirstRevision.

Context {W : Type} {client : Client W} {ctx : Ctx W} {unicode : Unicode}.

Lemma V1_removeResourcesWithOpts_run (log : Logger)
    (crd : CustomResourceDefinition) (opts : ListOptions)
    (apiVersion : string) (w : W) :
  getAPIVersion crd = Ok apiVersion ->
  V1.removeResourcesWithOpts log crd opts w =
    let call := CallListObjects apiVersion (spec_Kind crd) opts in
    match client_ListObjects apiVersion (spec_Kind crd) opts w with
    | (Ok items, w1) =>
        let '(r, w2, tr) := removeResourcesWithOpts_loop log items w1 in
        (r, w2, Api call None :: tr)
    | (Err e, w1) =>
        (Some (ErrorfWrap "failed to list objects: " e), w1,
         [Api call (Some e)])
    end.
Proof.
  intros Hv. unfold V1.removeResourcesWithOpts. rewrite Hv. step.
  destruct (client_ListObjects apiVersion (spec_Kind crd) opts w)
    as [[items | e] w1]; simpl; [| reflexivity].
  destruct (removeResourcesWithOpts_loop log items w1)
    as [[r w2] tr]. reflexivity.
Qed.

(** The patches of a scope are the same in the first revision. *)
Lemma V1_finalizers_cleared (log : Logger) (crd : CustomResourceDefinition)
    (opts : ListOptions) (apiVersion : string) (w : W) r w' tr :
  getAPIVersion crd = Ok apiVersion ->
  V1.removeResourcesWithOpts log crd opts w = (r, w', tr) ->
  exists processed remaining,
    listed (client_ListObjects apiVersion (spec_Kind crd) opts w)
    = (processed ++ remaining)%list
    /\ calls tr
       = CallListObjects apiVersion (spec_Kind crd) opts
         :: map patchOf (filter hasFinalizers processed)
    /\ (r = None -> remaining = []).
Proof.
  intros Hv Hrun.
  rewrite (V1_removeResourcesWithOpts_run log crd opts _ w Hv) in Hrun.
  cbv zeta in Hrun. unfold listed.
  destruct (client_ListObjects apiVersion (spec_Kind crd) opts w)
    as [[items | e] w1]; simpl.
  - destruct (removeResourcesWithOpts_loop log items w1)
      as [[r1 w2] t1] eqn:Hloop.
    inversion Hrun; subst.
    destruct (removeResourcesWithOpts_loop_calls _ _ _ _ _ _ Hloop)
      as (processed & remaining & -> & Hcalls & Hnone).
    exists processed, remaining. simpl. rewrite Hcalls. auto.
  - inversion Hrun; subst. exists [], []. repeat split.
Qed.

Lemma V1_removeResourcesWithOpts_aborts (log : Logger)
    (crd : CustomResourceDefinition) (opts : ListOptions) (w : W) r w' tr :
  V1.removeResourcesWithOpts log crd opts w = (r, w', tr) ->
  abortsOnFailedPatch r tr.
Proof.
  destruct (getAPIVersion crd) as [apiVersion | e] eqn:Hv.
  - rewrite (V1_removeResourcesWithOpts_run log crd opts _ w Hv). cbv zeta.
    destruct (client_ListObjects apiVersion (spec_Kind crd) opts w)
      as [[items | e] w1].
    + destruct (removeResourcesWithOpts_loop log items w1)
        as [[r1 w2] t1] eqn:Hloop.
      intros Hrun. inversion Hrun; subst.
      apply abortsOnFailedPatch_cons; [discriminate |].
      apply (removeResourcesWithOpts_loop_aborts _ _ _ _ _ _ Hloop).
    + intros Hrun. inversion Hrun; subst.
      apply abortsOnFailedPatch_cons;
        [discriminate | apply abortsOnFailedPatch_nil].
  - unfold V1.removeResourcesWithOpts. rewrite Hv.
    intros Hrun. inversion Hrun. apply abortsOnFailedPatch_nil.
Qed.

Lemma V1_removeResources_loop_aborts (log : Logger)
    (crd : CustomResourceDefinition) (namespaces : list Namespace) :
  forall (w : W) r w' tr,
    V1.removeResources_loop log crd namespaces w = (r, w', tr) ->
    abortsOnFailedPatch r tr.
Proof.
  induction namespaces as [| ns rest IH]; intros w r w' tr Hrun.
  - inversion Hrun. apply abortsOnFailedPatch_nil.
  - simpl in Hrun. unfold bind in Hrun.
    destruct (V1.removeResourcesWithOpts log crd (Some (ns_Name ns)) w)
      as [[r1 w1] t1] eqn:Hone.
    apply V1_removeResourcesWithOpts_aborts in Hone.
    destruct r1 as [err |].
    + inversion Hrun; subst. rewrite app_nil_r. exact Hone.
    + destruct (V1.removeResources_loop log crd rest w1)
        as [[r2 w2] t2] eqn:Hrest.
      inversion Hrun; subst.
      apply abortsOnFailedPatch_app; eauto.
Qed.

Lemma V1_removeResources_aborts (log : Logger)
    (crd : CustomResourceDefinition) (w : W) r w' tr :
  V1.removeResources log crd w = (r, w', tr) ->
  abortsOnFailedPatch r tr.
Proof.
  unfold V1.removeResources. destruct (spec_Scope crd).
  - unfold bind, ListNamespaces.
    destruct (client_ListNamespaces w) as [[items | e] w1]; cbn iota beta.
    + destruct (V1.removeResources_loop log crd items w1)
        as [[r2 w2] t2] eqn:Hloop.
      apply V1_removeResources_loop_aborts in Hloop.
      destruct r2 as [err |]; cbn iota beta.
      * intros Hrun. inversion Hrun; subst. simpl. rewrite app_nil_r.
        apply abortsOnFailedPatch_cons; [discriminate | exact Hloop].
      * destruct (V1.removeResourcesWithOpts log crd None w2)
          as [[r3 w3] t3] eqn:Hall.
        apply V1_removeResourcesWithOpts_aborts in Hall.
        intros Hrun. inversion Hrun; subst. simpl.
        apply abortsOnFailedPatch_cons; [discriminate |].
        apply abortsOnFailedPatch_app; assumption.
    + intros Hrun. inversion Hrun; subst.
      apply abortsOnFailedPatch_cons;
        [discriminate | apply abortsOnFailedPatch_nil].
  - apply V1_removeResourcesWithOpts_aborts.
Qed.

(** A failed patch ends the run of [nukeCRD] in the first revision too. *)
Lemma V1_nukeCRD_aborts (log : Logger) (crdName : string) (w : W) r w' tr :
  V1.nukeCRD log crdName w = (r, w', tr) ->
  abortsOnFailedPatch r tr.
Proof.
  unfold V1.nukeCRD. unfold bind, logf, Sleep, emit, Get, Delete, ret.
  destruct (client_Get crdName w) as [[crd | e] w1]; cbn iota beta.
  - destruct (client_Delete crd w1) as [[e |] w2]; cbn iota beta.
    + intros Hrun. inversion Hrun; subst. simpl.
      repeat (apply abortsOnFailedPatch_cons; [discriminate |]).
      apply abortsOnFailedPatch_nil.
    + destruct (V1.removeResources log crd w2) as [[rs w3] ts] eqn:Hsweep.
      apply V1_removeResources_aborts in Hsweep.
      destruct rs as [err |]; cbn iota beta.
      * intros Hrun. inversion Hrun; subst. simpl. rewrite app_nil_r.
        repeat (apply abortsOnFailedPatch_cons; [discriminate |]).
        exact Hsweep.
      * destruct (client_Get crdName w3) as [[crd' | e] w4]; cbn iota beta.
        -- intros Hrun. inversion Hrun; subst. simpl.
           repeat (apply abortsOnFailedPatch_cons; [discriminate |]).
           apply abortsOnFailedPatch_app; [exact Hsweep |].
           repeat (apply abortsOnFailedPatch_cons; [discriminate |]).
           apply abortsOnFailedPatch_nil.
        -- intros Hrun.
           destruct (IsNotFound e); inversion Hrun; subst; simpl;
             repeat (apply abortsOnFailedPatch_cons; [discriminate |]);
             (apply abortsOnFailedPatch_app; [exact Hsweep |]);
             repeat (apply abortsOnFailedPatch_cons; [discriminate |]);
             apply abortsOnFailedPatch_nil.
  - intros Hrun.
    destruct (IsNotFound e); inversion Hrun; subst; simpl;
      repeat (apply abortsOnFailedPatch_cons; [discriminate |]);
      apply abortsOnFailedPatch_nil.
Qed.

End FirstRevision.

(** The end of the first revision: one fetch after three seconds. *)
Example V1_waits_once :
  let run := V1.nukeCRD [] "mytestcrds.omnicorp.com"
               (waitScript [ReplyGet (Ok clusterCRD)]) in
  value_of run = None
  /\ trace_of run
     = [Log InfoLevel [] "Nuking…";
        Api (CallGet "mytestcrds.omnicorp.com") None;
        Api (CallDelete clusterCRD) None;
        Api (CallListObjects "omnicorp.com/v1" "MyTestCrd" None) None;
        Wait 3000;
        Api (CallGet "mytestcrds.omnicorp.com") None;
        Log WarnLevel [] stillExists].
Proof. split; reflexivity. Qed.

(** * More of the program *)

(** ** Failing fast *)

Lemma noCallYet_cons (ev : Event) (tr : list Event) :
  noCallYet (ev :: tr) = (noCallYet [ev] && noCallYet tr)%bool.
Proof.
  unfold noCallYet. destruct ev; simpl; try reflexivity.
Qed.

Lemma noCallYet_app (t1 t2 : list Event) :
  noCallYet (t1 ++ t2) = (noCallYet t1 && noCallYet t2)%bool.
Proof.
  unfold noCallYet. rewrite calls_app.
  destruct (calls t1); simpl; [destruct (calls t2) |]; reflexivity.
Qed.

Section FailsFast.

Variable tol : bool -> Call -> error -> bool.

Lemma failsFast_nil (first : bool) : failsFast tol first None [].
Proof.
  split.
  - intros before c e after H. destruct before; discriminate H.
  - intros err H. discriminate H.
Qed.

Lemma failsFast_unserved (first : bool) :
  failsFast tol first (Some NoServedVersion) [].
Proof.
  split.
  - intros before c e after H. destruct before; discriminate H.
  - intros err H. inversion H. left. reflexivity.
Qed.

Lemma failsFast_fatal (first : bool) (c : Call) (e : error) :
  tol first c e = false ->
  failsFast tol first (Some (ErrorfWrap (phase first c) e)) [Api c (Some e)].
Proof.
  intros Htol. split.
  - intros before c' e' after H.
    destruct before as [| b before]; simpl in H.
    + inversion H; subst. cbn [noCallYet calls]. rewrite andb_true_r. auto.
    + inversion H. destruct before; discriminate.
  - intros err _. right. exists [], c, e.
    cbn [noCallYet calls]. rewrite andb_true_r. auto.
Qed.

(** An event in front that is no failure to account for: a line, a wait, a
    call that went through, or a failed call that is passed over. *)
Lemma failsFast_cons (first : bool) (ev : Event) (r : option error)
    (tr : list Event) :
  (forall c e, ev = Api c (Some e) -> tol first c e = true) ->
  failsFast tol (first && noCallYet [ev]) r tr ->
  failsFast tol first r (ev :: tr).
Proof.
  intros Hev [Hstop Hwhy]. split.
  - intros before c e after H Htol.
    destruct before as [| b before]; simpl in H.
    + inversion H; subst. cbn [noCallYet calls] in Htol.
      rewrite andb_true_r in Htol.
      rewrite (Hev c e eq_refl) in Htol. discriminate.
    + inversion H; subst.
      rewrite noCallYet_cons, andb_assoc in Htol |- *.
      apply (Hstop before c e after eq_refl Htol).
  - intros err Hr. destruct (Hwhy err Hr) as [-> | (before & c & e & -> & Htol)].
    + left. reflexivity.
    + right. exists (ev :: before), c, e. split; [reflexivity |].
      rewrite noCallYet_cons, andb_assoc. exact Htol.
Qed.

Lemma failsFast_app (first : bool) (r : option error) (t1 t2 : list Event) :
  failsFast tol first None t1 ->
  failsFast tol (first && noCallYet t1) r t2 ->
  failsFast tol first r (t1 ++ t2).
Proof.
  revert first. induction t1 as [| ev t1 IH]; intros first H1 H2.
  - cbn [noCallYet calls] in H2. rewrite andb_true_r in H2. exact H2.
  - simpl. apply failsFast_cons.
    + intros c e ->. destruct H1 as [Hstop _].
      destruct (tol first c e) eqn:Htol; [reflexivity |].
      destruct (Hstop [] c e t1 eq_refl) as [_ Hr].
      * cbn [noCallYet calls]. rewrite andb_true_r. exact Htol.
      * discriminate Hr.
    + apply IH.
      * destruct H1 as [Hstop _]. split; [| discriminate].
        intros before c e after H Htol.
        rewrite <- andb_assoc, <- noCallYet_cons in Htol |- *.
        apply (Hstop (ev :: before) c e after); [subst; reflexivity | exact Htol].
      * rewrite <- andb_assoc, <- noCallYet_cons. exact H2.
Qed.

End FailsFast.

Lemma failsFast_quiet (tol : bool -> Call -> error -> bool) (tr : list Event) :
  (forall c e, ~ In (Api c (Some e)) tr) ->
  forall first, failsFast tol first None tr.
Proof.
  induction tr as [| ev tr IH]; intros Hq first; [apply failsFast_nil |].
  apply failsFast_cons.
  - intros c e ->. exfalso. apply (Hq c e). left. reflexivity.
  - apply IH. intros c e Hin. apply (Hq c e). right. exact Hin.
Qed.

Lemma laterFetches_quiet (crdName : string) (n : nat) (c : Call) (e : error) :
  ~ In (Api c (Some e)) (laterFetches crdName (repeat None n)).
Proof.
  induction n as [| n IH]; simpl; [tauto |].
  intros [H | [H | H]]; try discriminate. exact (IH H).
Qed.

Lemma pollFetches_quiet (crdName : string) (n : nat) (c : Call) (e : error) :
  ~ In (Api c (Some e)) (pollFetches crdName (repeat None n)).
Proof.
  destruct n as [| n]; simpl; [tauto |].
  intros [H | H]; [discriminate |]. exact (laterFetches_quiet _ _ _ _ H).
Qed.

(** The fetches of a wait up to one that failed: all the events before it
    are fetches that went through and waits. *)
Lemma pollFetches_failed (crdName : string) (n : nat) (e : error) :
  exists quiet,
    pollFetches crdName (repeat None n ++ [Some e])
    = (quiet ++ [Api (CallGet crdName) (Some e)])%list
    /\ (forall c e', ~ In (Api c (Some e')) quiet)
    /\ (n = 0%nat -> quiet = []).
Proof.
  destruct n as [| n].
  - exists []. repeat split. intros c e' [].
  - exists (pollFetches crdName (repeat None (S n)) ++ [Wait 100])%list.
    split; [| split; [| discriminate]].
    + cbn [repeat app pollFetches]. rewrite laterFetches_app. simpl.
      rewrite <- app_assoc. reflexivity.
    + intros c e' Hin. apply in_app_or in Hin. destruct Hin as [Hin | Hin].
      * exact (pollFetches_quiet _ _ _ _ Hin).
      * destruct Hin as [H | []]. discriminate H.
Qed.

Section FailFastV2.

Context {W : Type} {client : Client W} {ctx : Ctx W} {unicode : Unicode}.

Lemma removeResourcesWithOpts_loop_failsFast
    (tol : bool -> Call -> error -> bool) (log : Logger)
    (items : list Unstructured) :
  (forall obj patch e, tol false (CallPatch obj patch) e = false) ->
  forall (w : W) r w' tr,
    removeResourcesWithOpts_loop log items w = (r, w', tr) ->
    failsFast tol false r tr.
Proof.
  intros Htol.
  induction items as [| obj rest IH]; intros w r w' tr Hrun.
  - inversion Hrun. apply failsFast_nil.
  - destruct (GetFinalizers obj) as [| f fs] eqn:Hfin.
    + rewrite removeResourcesWithOpts_loop_skip in Hrun by assumption. eauto.
    + rewrite removeResourcesWithOpts_loop_patch in Hrun
        by (rewrite Hfin; discriminate).
      cbv zeta in Hrun.
      destruct (client_Patch (SetFinalizers_nil obj) (MergeFrom obj) w)
        as [[err |] w1]; simpl in Hrun.
      * inversion Hrun; subst.
        apply failsFast_cons; [discriminate |].
        apply (failsFast_fatal tol false (patchOf obj) err). apply Htol.
      * destruct (removeResourcesWithOpts_loop log rest w1)
          as [[r1 w2] t1] eqn:Hrest.
        inversion Hrun; subst.
        apply failsFast_cons; [discriminate |].
        apply failsFast_cons; [discriminate |].
        eauto.
Qed.

Lemma V2_removeResourcesWithOpts_failsFast (log : Logger)
    (crd : CustomResourceDefinition) (opts : ListOptions) (w : W) r w' tr :
  V2.removeResourcesWithOpts log crd opts w = (r, w', tr) ->
  failsFast tolerated false r tr.
Proof.
  destruct (getAPIVersion crd) as [apiVersion | e] eqn:Hv.
  - rewrite (V2_removeResourcesWithOpts_run log crd opts _ w Hv). cbv zeta.
    destruct (client_ListObjects apiVersion (spec_Kind crd) opts w)
      as [[items | e] w1].
    + destruct (removeResourcesWithOpts_loop log items w1)
        as [[r1 w2] t1] eqn:Hloop.
      intros Hrun. inversion Hrun; subst.
      apply failsFast_cons; [discriminate |].
      apply (removeResourcesWithOpts_loop_failsFast tolerated _ _
               (fun _ _ _ => eq_refl) _ _ _ _ Hloop).
    + intros Hrun. destruct (IsNotFound e) eqn:Hnf; inversion Hrun; subst.
      * apply failsFast_cons; [| apply failsFast_nil].
        intros c e' H. inversion H; subst. exact Hnf.
      * apply (failsFast_fatal tolerated false
                 (CallListObjects apiVersion (spec_Kind crd) opts) e).
        exact Hnf.
  - unfold V2.removeResourcesWithOpts. rewrite Hv.
    intros Hrun. inversion Hrun. rewrite (getAPIVersion_error _ _ Hv).
    apply failsFast_unserved.
Qed.

Lemma V2_removeResources_loop_failsFast (log : Logger)
    (crd : CustomResourceDefinition) (namespaces : list Namespace) :
  forall (w : W) r w' tr,
    V2.removeResources_loop log crd namespaces w = (r, w', tr) ->
    failsFast tolerated false r tr.
Proof.
  induction namespaces as [| ns rest IH]; intros w r w' tr Hrun.
  - inversion Hrun. apply failsFast_nil.
  - simpl in Hrun. unfold bind in Hrun.
    destruct (V2.removeResourcesWithOpts log crd (Some (ns_Name ns)) w)
      as [[r1 w1] t1] eqn:Hone.
    apply V2_removeResourcesWithOpts_failsFast in Hone.
    destruct r1 as [err |].
    + inversion Hrun; subst. rewrite app_nil_r. exact Hone.
    + destruct (V2.removeResources_loop log crd rest w1)
        as [[r2 w2] t2] eqn:Hrest.
      inversion Hrun; subst.
      apply failsFast_app; [exact Hone | eauto].
Qed.

Lemma V2_removeResources_failsFast (log : Logger)
    (crd : CustomResourceDefinition) (w : W) r w' tr :
  V2.removeResources log crd w = (r, w', tr) ->
  failsFast tolerated false r tr.
Proof.
  rewrite V2_removeResources_run. destruct (spec_Scope crd).
  - destruct (client_ListNamespaces w) as [[items | e] w1].
    + destruct (V2.removeResources_loop log crd items w1)
        as [[r2 w2] t2] eqn:Hloop.
      intros Hrun. inversion Hrun; subst.
      apply failsFast_cons; [discriminate |].
      apply (V2_removeResources_loop_failsFast _ _ _ _ _ _ _ Hloop).
    + intros Hrun. destruct (IsNotFound e) eqn:Hnf; inversion Hrun; subst.
      * apply failsFast_cons; [| apply failsFast_nil].
        intros c e' H. inversion H; subst. exact Hnf.
      * apply (failsFast_fatal tolerated false CallListNamespaces e).
        exact Hnf.
  - apply V2_removeResourcesWithOpts_failsFast.
Qed.

End FailFastV2.

Section FailFastNuke.

Context {W : Type} {client : Client W} {ctx : Ctx W} {unicode : Unicode}.

Lemma V2_nukeCRD_failsFast (log : Logger) (crdName : string) (w : W)
    r w' tr :
  V2.nukeCRD log crdName w = (r, w', tr) ->
  failsFast tolerated true r tr.
Proof.
  destruct (client_Get crdName w) as [[crd | e] w1] eqn:Hget.
  - destruct (client_Delete crd w1) as [[e |] w2] eqn:Hdel.
    + unfold V2.nukeCRD. step. rewrite Hget. simpl. rewrite Hdel. simpl.
      intros Hrun. inversion Hrun; subst.
      apply failsFast_cons; [discriminate |].
      apply failsFast_cons; [discriminate |].
      apply (failsFast_fatal tolerated false (CallDelete crd) e).
      reflexivity.
    + destruct (V2.removeResources log crd w2) as [[rs w3] ts] eqn:Hsweep.
      pose proof (V2_removeResources_failsFast _ _ _ _ _ _ Hsweep) as Hts.
      destruct rs as [err |].
      * unfold V2.nukeCRD. unfold bind, logf, emit, Get, Delete, ret.
        rewrite Hget. cbn iota beta. rewrite Hdel. cbn iota beta.
        rewrite Hsweep. cbn iota beta.
        intros Hrun. inversion Hrun; subst. simpl. rewrite app_nil_r.
        repeat (apply failsFast_cons; [discriminate |]).
        exact Hts.
      * rewrite (V2_nukeCRD_wait log crdName crd w w1 w2 w3 ts
                   Hget Hdel Hsweep).
        destruct (PollUntilContextTimeout 100 5000 true
                    (V2.crdGone crdName) w3) as [[res w4] tp] eqn:Hpoll.
        assert (Hhead : forall r0 (tail : list Event),
                   failsFast tolerated false r0 tail ->
                   failsFast tolerated true r0
                     (fetchedAndDeleted log crdName crd ++ ts ++ tail)).
        { intros r0 tail Htail. unfold fetchedAndDeleted. simpl.
          repeat (apply failsFast_cons; [discriminate |]).
          apply failsFast_app; assumption. }
        destruct (PollUntilContextTimeout_crdGone _ _ _ _ _ Hpoll)
          as [n [(d & err & -> & -> & Hwhy)
                | (Hlt & e & w0 & Hg & -> & ->)]].
        -- assert (Hint : Interrupted err = true)
             by (destruct Hwhy as [[-> _] | [-> _]]; reflexivity).
           rewrite Hint. intros Hrun. inversion Hrun.
           apply Hhead. apply failsFast_quiet.
           intros c e Hin. apply in_app_or in Hin. destruct Hin as [Hin | Hin].
           ++ apply in_app_or in Hin. destruct Hin as [Hin | Hin].
              ** exact (pollFetches_quiet _ _ _ _ Hin).
              ** destruct Hin as [H | []]. discriminate H.
           ++ destruct Hin as [H | []]. discriminate H.
        -- destruct (pollFetches_failed crdName n e)
             as (quiet & -> & Hquiet & _).
           pose proof (failsFast_quiet tolerated quiet Hquiet false) as Hq.
           destruct (IsNotFound e) eqn:Hnf.
           ++ intros Hrun. inversion Hrun. apply Hhead.
              apply failsFast_app; [exact Hq |].
              apply failsFast_cons; [| apply failsFast_nil].
              intros c e' H. inversion H; subst. simpl. rewrite Hnf.
              reflexivity.
           ++ destruct (Interrupted e) eqn:Hint.
              ** intros Hrun. inversion Hrun. apply Hhead.
                 rewrite <- app_assoc.
                 apply failsFast_app; [exact Hq |].
                 apply failsFast_cons.
                 --- intros c e' H. inversion H; subst. simpl.
                     rewrite Hint. apply orb_true_r.
                 --- apply failsFast_cons; [discriminate |].
                     apply failsFast_nil.
              ** intros Hrun. inversion Hrun. apply Hhead.
                 apply failsFast_app; [exact Hq |].
                 apply (failsFast_fatal tolerated false (CallGet crdName) e).
                 simpl. rewrite Hnf, Hint. reflexivity.
  - unfold V2.nukeCRD. step. rewrite Hget. simpl.
    intros Hrun. destruct (IsNotFound e) eqn:Hnf; inversion Hrun; subst.
    + apply failsFast_cons; [discriminate |].
      apply failsFast_cons.
      * intros c e' H. inversion H; subst. simpl. rewrite Hnf. reflexivity.
      * apply failsFast_cons; [discriminate | apply failsFast_nil].
    + apply failsFast_cons; [discriminate |].
      apply (failsFast_fatal tolerated true (CallGet crdName) e).
      simpl. rewrite Hnf. reflexivity.
Qed.

(** X1.  [nukeCRD] of the second revision fails fast and says where.  A
    call that fails, and whose failure is not passed over (not-found on a
    fetch or a list; a cancelled or expired context on a fetch of the final
    wait), is the last event of the run, and the result is its error behind
    the text of its phase: "failed to retrieve CRD: " for the first fetch,
    "failed to delete CRD resource: ", "failed to list namespaces: ",
    "failed to list objects: ", "failed to delete <object>: " for a patch,
    "failed to check final CRD existence: " for a later fetch.  And a run
    that returns an error has ended on such a call, unless the error is
    that the CRD has no served version. *)
Theorem nukeCRD_fails_fast (log : Logger) (crdName : string) (w : W)
    r w' tr :
  V2.nukeCRD log crdName w = (r, w', tr) ->
  (forall before c e after,
      tr = (before ++ Api c (Some e) :: after)%list ->
      tolerated (noCallYet before) c e = false ->
      after = []
      /\ r = Some (ErrorfWrap (phase (noCallYet before) c) e))
  /\ (forall err,
         r = Some err ->
         err = NoServedVersion
         \/ exists before c e,
              tr = (before ++ [Api c (Some e)])%list
              /\ tolerated (noCallYet before) c e = false)
  /\ (r = None ->
      forall before c e after,
        tr = (before ++ Api c (Some e) :: after)%list ->
        tolerated (noCallYet before) c e = true).
Proof.
  intros Hrun.
  destruct (V2_nukeCRD_failsFast _ _ _ _ _ _ Hrun) as [Hstop Hwhy].
  cbn [andb] in Hstop, Hwhy.
  split; [exact Hstop |]. split; [exact Hwhy |].
  intros -> before c e after Htr.
  destruct (tolerated (noCallYet before) c e) eqn:Htol; [reflexivity |].
  destruct (Hstop before c e after Htr Htol) as [_ Hr]. discriminate Hr.
Qed.

End FailFastNuke.

Lemma nukeCRD_fails_fast_witness :
  let script :=
    [ReplyGet (Ok demoCRD); ReplyDelete None;
     ReplyNamespaces (Ok [{| ns_Name := "ns1" |}; {| ns_Name := "ns2" |}]);
     ReplyObjects (Err notFoundError);
     ReplyObjects (Err forbidden);
     ReplyGet (Err notFoundError)] in
  let run := V2.nukeCRD [] "mytestcrds.omnicorp.com" script in
  let before :=
    [Log InfoLevel [] "Nuking…";
     Api (CallGet "mytestcrds.omnicorp.com") None;
     Api (CallDelete demoCRD) None;
     Api CallListNamespaces None;
     Api (CallListObjects "omnicorp.com/v1" "MyTestCrd" (Some "ns1"))
       (Some notFoundError)] in
  trace_of run
  = (before
     ++ [Api (CallListObjects "omnicorp.com/v1" "MyTestCrd" (Some "ns2"))
           (Some forbidden)])%list
  /\ value_of run = Some (ErrorfWrap "failed to list objects: " forbidden)
  /\ world_of run = [ReplyGet (Err notFoundError)].
Proof.
  intros script run before.
  split; [reflexivity |]. split; [| reflexivity].
  destruct (nukeCRD_fails_fast (client := ScriptClient) []
              "mytestcrds.omnicorp.com" script
              (value_of run) (world_of run) (trace_of run) eq_refl)
    as [Hstop _].
  destruct (Hstop before
              (CallListObjects "omnicorp.com/v1" "MyTestCrd" (Some "ns2"))
              forbidden [] eq_refl eq_refl) as [_ Hr].
  exact Hr.
Defined.

(** ** The footprint of a run *)

Lemma hasFinalizers_true (obj : Unstructured) :
  hasFinalizers obj = true -> GetFinalizers obj <> [].
Proof.
  unfold hasFinalizers. destruct (GetFinalizers obj); [discriminate |].
  intros _. discriminate.
Qed.

Section Footprint.

Context {W : Type} {client : Client W} {ctx : Ctx W} {unicode : Unicode}.

Lemma V2_removeResourcesWithOpts_calls (log : Logger)
    (crd : CustomResourceDefinition) (opts : ListOptions) (w : W) r w' tr :
  V2.removeResourcesWithOpts log crd opts w = (r, w', tr) ->
  forall c, In c (calls tr) ->
    c = CallListObjects (apiVersionOf crd) (spec_Kind crd) opts
    \/ exists original,
         GetFinalizers original <> []
         /\ c = CallPatch (SetFinalizers_nil original) (MergeFrom original).
Proof.
  unfold apiVersionOf.
  destruct (getAPIVersion crd) as [apiVersion | e] eqn:Hv.
  - rewrite (V2_removeResourcesWithOpts_run log crd opts _ w Hv). cbv zeta.
    destruct (client_ListObjects apiVersion (spec_Kind crd) opts w)
      as [[items | e] w1].
    + destruct (removeResourcesWithOpts_loop log items w1)
        as [[r1 w2] t1] eqn:Hloop.
      intros Hrun c Hin. inversion Hrun; subst.
      destruct Hin as [<- | Hin]; [left; reflexivity |].
      destruct (removeResourcesWithOpts_loop_calls _ _ _ _ _ _ Hloop)
        as (processed & _ & _ & Hcalls & _).
      rewrite Hcalls in Hin. apply in_map_iff in Hin.
      destruct Hin as (original & <- & Hin). apply filter_In in Hin.
      right. exists original. split; [| reflexivity].
      apply hasFinalizers_true. apply Hin.
    + intros Hrun c Hin.
      destruct (IsNotFound e); inversion Hrun; subst;
        destruct Hin as [<- | []]; left; reflexivity.
  - unfold V2.removeResourcesWithOpts. rewrite Hv.
    intros Hrun c Hin. inversion Hrun; subst. destruct Hin.
Qed.

Lemma V2_removeResources_loop_calls (log : Logger)
    (crd : CustomResourceDefinition) (namespaces : list Namespace) :
  forall (w : W) r w' tr,
    V2.removeResources_loop log crd namespaces w = (r, w', tr) ->
    forall c, In c (calls tr) ->
      (exists ns,
          c = CallListObjects (apiVersionOf crd) (spec_Kind crd) (Some ns))
      \/ exists original,
           GetFinalizers original <> []
           /\ c = CallPatch (SetFinalizers_nil original) (MergeFrom original).
Proof.
  induction namespaces as [| ns rest IH]; intros w r w' tr Hrun c Hin.
  - inversion Hrun; subst. destruct Hin.
  - simpl in Hrun. unfold bind in Hrun.
    destruct (V2.removeResourcesWithOpts log crd (Some (ns_Name ns)) w)
      as [[r1 w1] t1] eqn:Hone.
    pose proof (V2_removeResourcesWithOpts_calls _ _ _ _ _ _ _ Hone) as H1.
    destruct r1 as [err |].
    + inversion Hrun; subst. rewrite app_nil_r in Hin.
      destruct (H1 c Hin) as [-> | Hp]; [left; eauto | right; exact Hp].
    + destruct (V2.removeResources_loop log crd rest w1)
        as [[r2 w2] t2] eqn:Hrest.
      inversion Hrun; subst. rewrite calls_app in Hin.
      apply in_app_or in Hin. destruct Hin as [Hin | Hin].
      * destruct (H1 c Hin) as [-> | Hp]; [left; eauto | right; exact Hp].
      * exact (IH _ _ _ _ Hrest c Hin).
Qed.

Lemma V2_removeResources_calls (log : Logger)
    (crd : CustomResourceDefinition) (w : W) r w' tr :
  V2.removeResources log crd w = (r, w', tr) ->
  forall c, In c (calls tr) -> sweepCall crd c.
Proof.
  rewrite V2_removeResources_run. unfold sweepCall.
  destruct (spec_Scope crd) eqn:Hscope.
  - destruct (client_ListNamespaces w) as [[items | e] w1].
    + destruct (V2.removeResources_loop log crd items w1)
        as [[r2 w2] t2] eqn:Hloop.
      intros Hrun c Hin. inversion Hrun; subst.
      destruct Hin as [<- | Hin]; [left; auto |].
      destruct (V2_removeResources_loop_calls _ _ _ _ _ _ _ Hloop c Hin)
        as [Hl | Hp]; [left; auto | right; right; exact Hp].
    + intros Hrun c Hin.
      destruct (IsNotFound e); inversion Hrun; subst;
        destruct Hin as [<- | []]; left; auto.
  - intros Hrun c Hin.
    destruct (V2_removeResourcesWithOpts_calls _ _ _ _ _ _ _ Hrun c Hin)
      as [-> | Hp]; [right; left; auto | right; right; exact Hp].
Qed.

Lemma PollUntilContextTimeout_crdGone_fetches (crdName : string) (w : W)
    res w' tr :
  PollUntilContextTimeout 100 5000 true (V2.crdGone crdName) w
  = (res, w', tr) ->
  exists k : nat,
    (1 <= k <= 51)%nat /\ calls tr = repeat (CallGet crdName) k.
Proof.
  intros Hpoll.
  destruct (PollUntilContextTimeout_crdGone _ _ _ _ _ Hpoll)
    as [n [(d & err & _ & -> & Hwhy) | (Hlt & e & _ & _ & -> & _)]].
  - exists n. split; [destruct Hwhy as [(_ & Hn) | (_ & Hn & _)]; lia |].
    rewrite calls_app, pollFetches_calls, repeat_length.
    cbn [calls]. apply app_nil_r.
  - exists (S n). split; [lia |].
    rewrite pollFetches_calls, length_app, repeat_length. simpl.
    replace (n + 1)%nat with (S n) by lia. reflexivity.
Qed.

(** X2.  The footprint of [nukeCRD] in the second revision.  Every run
    starts with the fetch of the CRD by its name.  If there is a second
    call it is the delete of the CRD that was fetched, and it is the only
    delete; what follows is the sweep, whose calls are list calls for the
    kind and the served version of that CRD (and the namespace list, if it
    is NamespaceScoped) and patches that clear the finalizers of an object
    that has some; and after the sweep at most 51 fetches of the CRD by its
    name: one at once and one for each tick of 100 milliseconds up to the
    deadline of five seconds. *)
Theorem nukeCRD_footprint (log : Logger) (crdName : string) (w : W)
    r w' tr :
  V2.nukeCRD log crdName w = (r, w', tr) ->
  calls tr = [CallGet crdName]
  \/ exists crd w1 sweep (k : nat),
       client_Get crdName w = (Ok crd, w1)
       /\ calls tr
          = (CallGet crdName :: CallDelete crd :: sweep
             ++ repeat (CallGet crdName) k)%list
       /\ (forall c, In c sweep -> sweepCall crd c)
       /\ (k <= 51)%nat.
Proof.
  destruct (client_Get crdName w) as [[crd | e] w1] eqn:Hget.
  - intros Hrun. right. exists crd, w1.
    destruct (client_Delete crd w1) as [[e |] w2] eqn:Hdel.
    + revert Hrun. unfold V2.nukeCRD. step. rewrite Hget. simpl.
      rewrite Hdel. simpl. intros Hrun. inversion Hrun; subst.
      exists [], 0%nat. repeat split; [intros c [] | lia].
    + destruct (V2.removeResources log crd w2) as [[rs w3] ts] eqn:Hsweep.
      pose proof (V2_removeResources_calls _ _ _ _ _ _ Hsweep) as Hts.
      destruct rs as [err |].
      * revert Hrun. unfold V2.nukeCRD.
        unfold bind, logf, emit, Get, Delete, ret.
        rewrite Hget. cbn iota beta. rewrite Hdel. cbn iota beta.
        rewrite Hsweep. cbn iota beta.
        intros Hrun. inversion Hrun; subst.
        exists (calls ts), 0%nat. simpl. rewrite !app_nil_r.
        repeat split; [exact Hts | lia].
      * rewrite (V2_nukeCRD_wait log crdName crd w w1 w2 w3 ts
                   Hget Hdel Hsweep) in Hrun.
        destruct (PollUntilContextTimeout 100 5000 true
                    (V2.crdGone crdName) w3) as [[res w4] tp] eqn:Hpoll.
        destruct (PollUntilContextTimeout_crdGone_fetches _ _ _ _ _ Hpoll)
          as (k & Hk & Hcalls).
        exists (calls ts), k.
        split; [reflexivity |]. split; [| split; [exact Hts | lia]].
        destruct res as [e |]; [destruct (Interrupted e) |];
          injection Hrun as _ _ <-;
          cbn [calls]; rewrite !calls_app, Hcalls; simpl;
          rewrite ?app_nil_r; reflexivity.
  - unfold V2.nukeCRD. step. rewrite Hget. simpl.
    intros Hrun. left.
    destruct (IsNotFound e); inversion Hrun; subst; reflexivity.
Qed.

End Footprint.

Lemma nukeCRD_footprint_witness :
  let run := V2.nukeCRD [] "mytestcrds.omnicorp.com" demoCluster in
  calls (trace_of run) = [CallGet "mytestcrds.omnicorp.com"]
  \/ exists crd w1 sweep (k : nat),
       client_Get "mytestcrds.omnicorp.com" demoCluster = (Ok crd, w1)
       /\ calls (trace_of run)
          = (CallGet "mytestcrds.omnicorp.com" :: CallDelete crd :: sweep
             ++ repeat (CallGet "mytestcrds.omnicorp.com") k)%list
       /\ (forall c, In c sweep -> sweepCall crd c)
       /\ (k <= 51)%nat.
Proof.
  intros run.
  apply (nukeCRD_footprint (client := ClusterClient) []
           "mytestcrds.omnicorp.com" demoCluster
           (value_of run) (world_of run) (trace_of run)).
  reflexivity.
Defined.

Example nukeCRD_footprint_run :
  calls (trace_of (V2.nukeCRD [] "mytestcrds.omnicorp.com" demoCluster))
  = [CallGet "mytestcrds.omnicorp.com";
     CallDelete demoCRD;
     CallListNamespaces;
     CallListObjects "omnicorp.com/v1" "MyTestCrd" (Some "ns1");
     CallPatch (SetFinalizers_nil stuckA) (MergeFrom stuckA);
     CallListObjects "omnicorp.com/v1" "MyTestCrd" (Some "ns2");
     CallPatch (SetFinalizers_nil stuckC) (MergeFrom stuckC);
     CallGet "mytestcrds.omnicorp.com"].
Proof. reflexivity. Qed.

(** ** The first revision *)

Section FirstRevisionSweep.

Context {W : Type} {client : Client W} {ctx : Ctx W} {unicode : Unicode}.

Lemma V1_removeResourcesWithOpts_list_calls (log : Logger)
    (crd : CustomResourceDefinition) (opts : ListOptions) (w : W) :
  filter isListCall
    (calls (trace_of (V1.removeResourcesWithOpts log crd opts w)))
  = match getAPIVersion crd with
    | Ok apiVersion => [CallListObjects apiVersion (spec_Kind crd) opts]
    | Err _ => []
    end.
Proof.
  destruct (getAPIVersion crd) as [apiVersion | e] eqn:Hv.
  - rewrite (V1_removeResourcesWithOpts_run log crd opts _ w Hv). cbv zeta.
    destruct (client_ListObjects apiVersion (spec_Kind crd) opts w)
      as [[items | e] w1]; [| reflexivity].
    pose proof (removeResourcesWithOpts_loop_no_list_call log items w1) as Hno.
    destruct (removeResourcesWithOpts_loop log items w1) as [[r w2] tr].
    unfold trace_of in *. simpl in *. rewrite Hno. reflexivity.
  - unfold V1.removeResourcesWithOpts. rewrite Hv. reflexivity.
Qed.

Lemma V1_removeResourcesWithOpts_success (log : Logger)
    (crd : CustomResourceDefinition) (opts : ListOptions) (w : W) :
  value_of (V1.removeResourcesWithOpts log crd opts w) = None ->
  getAPIVersion crd = Ok (apiVersionOf crd).
Proof.
  unfold V1.removeResourcesWithOpts, apiVersionOf.
  destruct (getAPIVersion crd); [reflexivity | discriminate].
Qed.

Lemma V1_removeResources_loop_list_calls (log : Logger)
    (crd : CustomResourceDefinition) (namespaces : list Namespace) :
  forall (w : W) w' tr,
    V1.removeResources_loop log crd namespaces w = (None, w', tr) ->
    filter isListCall (calls tr) = map (listIn crd) namespaces.
Proof.
  induction namespaces as [| ns rest IH]; intros w w' tr Hrun.
  - inversion Hrun; subst. reflexivity.
  - simpl in Hrun. unfold bind in Hrun.
    pose proof (V1_removeResourcesWithOpts_list_calls log crd
                  (Some (ns_Name ns)) w) as Hcalls.
    pose proof (V1_removeResourcesWithOpts_success log crd
                  (Some (ns_Name ns)) w) as Hok.
    destruct (V1.removeResourcesWithOpts log crd (Some (ns_Name ns)) w)
      as [[r1 w1] t1].
    unfold trace_of, value_of in *. simpl in *.
    destruct r1 as [err |]; [discriminate |].
    destruct (V1.removeResources_loop log crd rest w1)
      as [[r2 w2] t2] eqn:Hrest.
    inversion Hrun; subst.
    rewrite calls_app, filter_app, Hcalls, (IH _ _ _ Hrest).
    rewrite (Hok eq_refl). reflexivity.
Qed.

(** X3.  The fan-out of the first revision.  A sweep that runs through
    has issued, for a NamespaceScoped CRD, the namespace list, one object
    list for each namespace listed, and then one more object list that is
    not restricted to a namespace; for a ClusterScoped CRD the one
    unrestricted object list. *)
Theorem V1_sweep_fan_out (log : Logger) (crd : CustomResourceDefinition)
    (w w' : W) (tr : list Event) :
  V1.removeResources log crd w = (None, w', tr) ->
  filter isListCall (calls tr) =
    match spec_Scope crd with
    | NamespaceScoped =>
        (CallListNamespaces
         :: map (fun ns =>
                   CallListObjects (apiVersionOf crd) (spec_Kind crd)
                     (Some (ns_Name ns)))
              (listed (client_ListNamespaces w))
         ++ [CallListObjects (apiVersionOf crd) (spec_Kind crd) None])%list
    | ClusterScoped =>
        [CallListObjects (apiVersionOf crd) (spec_Kind crd) None]
    end.
Proof.
  unfold V1.removeResources. destruct (spec_Scope crd).
  - unfold bind, ListNamespaces, listed.
    destruct (client_ListNamespaces w) as [[items | e] w1]; cbn iota beta;
      [| discriminate].
    destruct (V1.removeResources_loop log crd items w1)
      as [[r2 w2] t2] eqn:Hloop.
    destruct r2 as [err |]; cbn iota beta; [discriminate |].
    pose proof (V1_removeResourcesWithOpts_list_calls log crd None w2)
      as Hcalls.
    pose proof (V1_removeResourcesWithOpts_success log crd None w2) as Hok.
    destruct (V1.removeResourcesWithOpts log crd None w2) as [[r3 w3] t3].
    unfold trace_of, value_of in *. simpl in *.
    intros Hrun. inversion Hrun; subst. simpl.
    rewrite calls_app, filter_app, Hcalls, (Hok eq_refl).
    rewrite (V1_removeResources_loop_list_calls _ _ _ _ _ _ Hloop).
    reflexivity.
  - intros Hrun.
    pose proof (V1_removeResourcesWithOpts_list_calls log crd None w) as Hcalls.
    pose proof (V1_removeResourcesWithOpts_success log crd None w) as Hok.
    rewrite Hrun in Hcalls, Hok. unfold trace_of, value_of in *. simpl in *.
    rewrite (Hok eq_refl) in Hcalls. exact Hcalls.
Qed.

End FirstRevisionSweep.

Lemma V1_sweep_fan_out_witness :
  filter isListCall
    (calls (trace_of (V1.removeResources [] demoCRD demoCluster)))
  = [CallListNamespaces;
     CallListObjects "omnicorp.com/v1" "MyTestCrd" (Some "ns1");
     CallListObjects "omnicorp.com/v1" "MyTestCrd" (Some "ns2");
     CallListObjects "omnicorp.com/v1" "MyTestCrd" None].
Proof.
  apply (V1_sweep_fan_out (client := ClusterClient) [] demoCRD demoCluster
           (world_of (V1.removeResources [] demoCRD demoCluster))).
  vm_compute. reflexivity.
Defined.

Section FirstRevisionFailFast.

Context {W : Type} {client : Client W} {ctx : Ctx W} {unicode : Unicode}.

Let tolV1 : bool -> Call -> error -> bool := fun _ => toleratedV1.

Lemma V1_removeResourcesWithOpts_failsFast (log : Logger)
    (crd : CustomResourceDefinition) (opts : ListOptions) (w : W) r w' tr :
  V1.removeResourcesWithOpts log crd opts w = (r, w', tr) ->
  failsFast tolV1 false r tr.
Proof.
  destruct (getAPIVersion crd) as [apiVersion | e] eqn:Hv.
  - rewrite (V1_removeResourcesWithOpts_run log crd opts _ w Hv). cbv zeta.
    destruct (client_ListObjects apiVersion (spec_Kind crd) opts w)
      as [[items | e] w1].
    + destruct (removeResourcesWithOpts_loop log items w1)
        as [[r1 w2] t1] eqn:Hloop.
      intros Hrun. inversion Hrun; subst.
      apply failsFast_cons; [discriminate |].
      apply (removeResourcesWithOpts_loop_failsFast tolV1 _ _
               (fun _ _ _ => eq_refl) _ _ _ _ Hloop).
    + intros Hrun. inversion Hrun; subst.
      apply (failsFast_fatal tolV1 false
               (CallListObjects apiVersion (spec_Kind crd) opts) e).
      reflexivity.
  - unfold V1.removeResourcesWithOpts. rewrite Hv.
    intros Hrun. inversion Hrun. rewrite (getAPIVersion_error _ _ Hv).
    apply failsFast_unserved.
Qed.

Lemma V1_removeResources_loop_failsFast (log : Logger)
    (crd : CustomResourceDefinition) (namespaces : list Namespace) :
  forall (w : W) r w' tr,
    V1.removeResources_loop log crd namespaces w = (r, w', tr) ->
    failsFast tolV1 false r tr.
Proof.
  induction namespaces as [| ns rest IH]; intros w r w' tr Hrun.
  - inversion Hrun. apply failsFast_nil.
  - simpl in Hrun. unfold bind in Hrun.
    destruct (V1.removeResourcesWithOpts log crd (Some (ns_Name ns)) w)
      as [[r1 w1] t1] eqn:Hone.
    apply V1_removeResourcesWithOpts_failsFast in Hone.
    destruct r1 as [err |].
    + inversion Hrun; subst. rewrite app_nil_r. exact Hone.
    + destruct (V1.removeResources_loop log crd rest w1)
        as [[r2 w2] t2] eqn:Hrest.
      inversion Hrun; subst.
      apply failsFast_app; [exact Hone | eauto].
Qed.

Lemma V1_removeResources_failsFast (log : Logger)
    (crd : CustomResourceDefinition) (w : W) r w' tr :
  V1.removeResources log crd w = (r, w', tr) ->
  failsFast tolV1 false r tr.
Proof.
  unfold V1.removeResources. destruct (spec_Scope crd).
  - unfold bind, ListNamespaces.
    destruct (client_ListNamespaces w) as [[items | e] w1]; cbn iota beta.
    + destruct (V1.removeResources_loop log crd items w1)
        as [[r2 w2] t2] eqn:Hloop.
      apply V1_removeResources_loop_failsFast in Hloop.
      destruct r2 as [err |]; cbn iota beta.
      * intros Hrun. inversion Hrun; subst. simpl. rewrite app_nil_r.
        apply failsFast_cons; [discriminate | exact Hloop].
      * destruct (V1.removeResourcesWithOpts log crd None w2)
          as [[r3 w3] t3] eqn:Hall.
        apply V1_removeResourcesWithOpts_failsFast in Hall.
        intros Hrun. inversion Hrun; subst. simpl.
        apply failsFast_cons; [discriminate |].
        apply failsFast_app; assumption.
    + intros Hrun. inversion Hrun; subst.
      apply (failsFast_fatal tolV1 false CallListNamespaces e). reflexivity.
  - apply V1_removeResourcesWithOpts_failsFast.
Qed.

(** [nukeCRD] of the first revision once the CRD is fetched and deleted and
    the sweep is through: three seconds, one fetch, and what is made of
    it. *)
Lemma V1_nukeCRD_wait (log : Logger) (crdName : string)
    (crd : CustomResourceDefinition) (w w1 w2 w3 : W) (ts : list Event) :
  client_Get crdName w = (Ok crd, w1) ->
  client_Delete crd w1 = (None, w2) ->
  V1.removeResources log crd w2 = (None, w3, ts) ->
  V1.nukeCRD log crdName w =
    match client_Get crdName w3 with
    | (Ok _, w4) =>
        (None, w4,
         fetchedAndDeleted log crdName crd ++ ts
         ++ [Wait 3000; Api (CallGet crdName) None;
             Log WarnLevel log stillExists])%list
    | (Err e, w4) =>
        (if IsNotFound e then None
         else Some (ErrorfWrap "failed to check final CRD existence: " e),
         w4,
         fetchedAndDeleted log crdName crd ++ ts
         ++ [Wait 3000; Api (CallGet crdName) (Some e)])%list
    end.
Proof.
  intros Hget Hdel Hsweep. unfold V1.nukeCRD.
  unfold bind, logf, Sleep, emit, Get, Delete, ret.
  rewrite Hget. cbn iota beta. rewrite Hdel. cbn iota beta. rewrite Hsweep.
  cbn iota beta.
  destruct (client_Get crdName w3) as [[crd' | e] w4]; cbn iota beta.
  - simpl. rewrite ?app_nil_r. reflexivity.
  - destruct (IsNotFound e); simpl; rewrite ?app_nil_r; reflexivity.
Qed.

Lemma V1_nukeCRD_failsFast (log : Logger) (crdName : string) (w : W)
    r w' tr :
  V1.nukeCRD log crdName w = (r, w', tr) ->
  failsFast tolV1 true r tr.
Proof.
  destruct (client_Get crdName w) as [[crd | e] w1] eqn:Hget.
  - destruct (client_Delete crd w1) as [[e |] w2] eqn:Hdel.
    + unfold V1.nukeCRD. step. rewrite Hget. simpl. rewrite Hdel. simpl.
      intros Hrun. inversion Hrun; subst.
      apply failsFast_cons; [discriminate |].
      apply failsFast_cons; [discriminate |].
      apply (failsFast_fatal tolV1 false (CallDelete crd) e). reflexivity.
    + destruct (V1.removeResources log crd w2) as [[rs w3] ts] eqn:Hsweep.
      pose proof (V1_removeResources_failsFast _ _ _ _ _ _ Hsweep) as Hts.
      destruct rs as [err |].
      * unfold V1.nukeCRD. unfold bind, logf, Sleep, emit, Get, Delete, ret.
        rewrite Hget. cbn iota beta. rewrite Hdel. cbn iota beta.
        rewrite Hsweep. cbn iota beta.
        intros Hrun. inversion Hrun; subst. simpl. rewrite app_nil_r.
        repeat (apply failsFast_cons; [discriminate |]).
        exact Hts.
      * rewrite (V1_nukeCRD_wait log crdName crd w w1 w2 w3 ts
                   Hget Hdel Hsweep).
        assert (Hhead : forall r0 (tail : list Event),
                   failsFast tolV1 false r0 tail ->
                   failsFast tolV1 true r0
                     (fetchedAndDeleted log crdName crd ++ ts ++ tail)).
        { intros r0 tail Htail. unfold fetchedAndDeleted. simpl.
          repeat (apply failsFast_cons; [discriminate |]).
          apply failsFast_app; assumption. }
        destruct (client_Get crdName w3) as [[crd' | e] w4].
        -- intros Hrun. inversion Hrun. apply Hhead.
           repeat (apply failsFast_cons; [discriminate |]).
           apply failsFast_nil.
        -- intros Hrun. destruct (IsNotFound e) eqn:Hnf; inversion Hrun;
             apply Hhead; (apply failsFast_cons; [discriminate |]).
           ++ apply failsFast_cons; [| apply failsFast_nil].
              intros c e' H. inversion H; subst. exact Hnf.
           ++ apply (failsFast_fatal tolV1 false (CallGet crdName) e).
              exact Hnf.
  - unfold V1.nukeCRD. step. rewrite Hget. simpl.
    intros Hrun. destruct (IsNotFound e) eqn:Hnf; inversion Hrun; subst.
    + apply failsFast_cons; [discriminate |].
      apply failsFast_cons.
      * intros c e' H. inversion H; subst. exact Hnf.
      * apply failsFast_cons; [discriminate | apply failsFast_nil].
    + apply failsFast_cons; [discriminate |].
      apply (failsFast_fatal tolV1 true (CallGet crdName) e). exact Hnf.
Qed.

(** X4.  The first revision passes over one failure only: a fetch of the
    CRD that answers not-found.  Every other call that fails, a list call
    that answers not-found and a fetch with a cancelled context among them,
    is the last event of the run of [nukeCRD], whose result is the error of
    the call behind the text of its phase; a run that returns an error has
    ended on such a call, unless the error is that the CRD has no served
    version; and in a run that returns nil no call has failed but fetches
    that answered not-found. *)
Theorem V1_nukeCRD_fails_fast (log : Logger) (crdName : string) (w : W)
    r w' tr :
  V1.nukeCRD log crdName w = (r, w', tr) ->
  (forall before c e after,
      tr = (before ++ Api c (Some e) :: after)%list ->
      toleratedV1 c e = false ->
      after = []
      /\ r = Some (ErrorfWrap (phase (noCallYet before) c) e))
  /\ (forall err,
         r = Some err ->
         err = NoServedVersion
         \/ exists before c e,
              tr = (before ++ [Api c (Some e)])%list
              /\ toleratedV1 c e = false)
  /\ (r = None ->
      forall before c e after,
        tr = (before ++ Api c (Some e) :: after)%list ->
        exists name, c = CallGet name /\ IsNotFound e = true).
Proof.
  intros Hrun.
  destruct (V1_nukeCRD_failsFast _ _ _ _ _ _ Hrun) as [Hstop Hwhy].
  unfold tolV1 in Hstop, Hwhy. cbn [andb] in Hstop, Hwhy.
  split; [exact Hstop |]. split; [exact Hwhy |].
  intros -> before c e after Htr.
  destruct (toleratedV1 c e) eqn:Htol.
  - destruct c; try discriminate Htol. exists name. auto.
  - destruct (Hstop before c e after Htr Htol) as [_ Hr]. discriminate Hr.
Qed.

End FirstRevisionFailFast.

Lemma V1_nukeCRD_fails_fast_witness :
  let script :=
    [ReplyGet (Ok demoCRD); ReplyDelete None;
     ReplyNamespaces (Ok [{| ns_Name := "ns1" |}; {| ns_Name := "ns2" |}]);
     ReplyObjects (Err notFoundError);
     ReplyObjects (Ok [])] in
  let run := V1.nukeCRD [] "mytestcrds.omnicorp.com" script in
  let before :=
    [Log InfoLevel [] "Nuking…";
     Api (CallGet "mytestcrds.omnicorp.com") None;
     Api (CallDelete demoCRD) None;
     Api CallListNamespaces None] in
  trace_of run
  = (before
     ++ [Api (CallListObjects "omnicorp.com/v1" "MyTestCrd" (Some "ns1"))
           (Some notFoundError)])%list
  /\ value_of run
     = Some (ErrorfWrap "failed to list objects: " notFoundError)
  /\ world_of run = [ReplyObjects (Ok [])].
Proof.
  intros script run before.
  split; [reflexivity |]. split; [| reflexivity].
  destruct (V1_nukeCRD_fails_fast (client := ScriptClient) []
              "mytestcrds.omnicorp.com" script
              (value_of run) (world_of run) (trace_of run) eq_refl)
    as [Hstop _].
  destruct (Hstop before
              (CallListObjects "omnicorp.com/v1" "MyTestCrd" (Some "ns1"))
              notFoundError [] eq_refl eq_refl) as [_ Hr].
  exact Hr.
Defined.

(** ** The version *)

Lemma substring_prefix (n : nat) :
  forall s : string,
    (n <= String.length s)%nat ->
    exists rest,
      s = substring 0 n s ++ rest /\ String.length (substring 0 n s) = n.
Proof.
  induction n as [| n IH]; intros s Hlen.
  - exists s. destruct s; split; reflexivity.
  - destruct s as [| c s]; simpl in Hlen; [lia |].
    destruct (IH s ltac:(lia)) as (rest & Hs & Hl).
    exists rest. simpl. rewrite Hl. split; [f_equal; exact Hs | reflexivity].
Qed.

(** X5.  [printVersion] slices the first ten bytes off [BuildCommit]: it
    panics exactly when [BuildCommit] is shorter than that (as it is in a
    binary built without the linker flags), and otherwise prints one line
    with the tag, those ten bytes, the Go version and the build date.
    [main] with [--version] does that and nothing else: it returns with
    status 0, or panics, without a log line, without a call on the
    cluster and without looking at the kubeconfig or at the targets. *)
Theorem printVersion_needs_ten_bytes {W : Type} {client : Client W}
    {ctx : Ctx W} {unicode : Unicode} (cl : CommandLine) (o : Outside)
    (w : W) :
  (printVersion o = None <-> (String.length (BuildCommit o) < 10)%nat)
  /\ (forall line,
         printVersion o = Some line ->
         exists short rest,
           BuildCommit o = short ++ rest
           /\ String.length short = 10%nat
           /\ line = "Kube Nukem " ++ BuildTag o ++ " (" ++ short
                     ++ "), built with " ++ runtime_Version o
                     ++ " on " ++ BuildDate o ++ newline)
  /\ (opt_version cl = true ->
      V2_main cl o w
      = ({| ended_exit := match printVersion o with
                          | Some _ => ExitStatus 0
                          | None => Panic
                          end;
            ended_stdout := match printVersion o with
                            | Some line => [line]
                            | None => []
                            end;
            ended_kubeconfig := None |}, w, [])).
Proof.
  unfold printVersion. split; [| split].
  - destruct (Nat.ltb_spec (String.length (BuildCommit o)) 10);
      split; intros H'; try reflexivity; try discriminate; try lia.
  - intros line.
    destruct (Nat.ltb_spec (String.length (BuildCommit o)) 10);
      [discriminate |].
    intros Hline. inversion Hline.
    destruct (substring_prefix 10 (BuildCommit o) H) as (rest & Hs & Hl).
    exists (substring 0 10 (BuildCommit o)), rest. auto.
  - intros Hv. unfold V2_main. rewrite Hv. unfold printVersion.
    destruct (String.length (BuildCommit o) <? 10)%nat; reflexivity.
Qed.

Lemma printVersion_needs_ten_bytes_witness :
  let o := builtWith "0123456789abcdef0123456789abcdef01234567" in
  V2_main (unicode := asciiOnly)
    (commandLine (Some "/no/such/file") true true []) o demoCluster
  = ({| ended_exit := match printVersion o with
                      | Some _ => ExitStatus 0
                      | None => Panic
                      end;
        ended_stdout := match printVersion o with
                        | Some line => [line]
                        | None => []
                        end;
        ended_kubeconfig := None |}, demoCluster, []).
Proof.
  intros o.
  apply (printVersion_needs_ten_bytes (client := ClusterClient)
           (unicode := asciiOnly)
           (commandLine (Some "/no/such/file") true true []) o demoCluster).
  reflexivity.
Defined.

Example version_of_a_release_build :
  V2_main (unicode := asciiOnly)
    (commandLine None false true ["mytestcrds.omnicorp.com"])
    (builtWith "0123456789abcdef0123456789abcdef01234567") demoCluster
  = ({| ended_exit := ExitStatus 0;
        ended_stdout :=
          ["Kube Nukem v1.2.0 (0123456789), built with go1.20.4 on 2023-05-01T10:00:00Z"
           ++ newline];
        ended_kubeconfig := None |}, demoCluster, []).
Proof. reflexivity. Qed.

Example version_of_a_plain_build :
  V2_main (unicode := asciiOnly) (commandLine None false true [])
    (builtWith "") demoCluster
  = ({| ended_exit := Panic; ended_stdout := [];
        ended_kubeconfig := None |}, demoCluster, []).
Proof. reflexivity. Qed.

(** ** Before the first call *)

Section BeforeTheFirstCall.

Context {W : Type} {client : Client W} {ctx : Ctx W} {unicode : Unicode}.

(** When the set-up does not pass, nothing is done. *)
Lemma main_from_NArg_fatal
    (nukeCRD : Logger -> string -> M (W := W) (option error))
    (o : Outside) (kubeconfig : string) (args : list string) (w : W) :
  args = []
  \/ BuildConfigFromFlags o kubeconfig <> None
  \/ client_New o <> None
  \/ AddToScheme o <> None ->
  exists msg,
    main_from_NArg nukeCRD o kubeconfig args w
    = ({| ended_exit := ExitStatus 1; ended_stdout := [];
          ended_kubeconfig := match args with
                              | [] => None
                              | _ :: _ => Some kubeconfig
                              end |}, w, [Log FatalLevel [] msg])
    /\ (args = [] -> msg = "No CRD names provided.").
Proof.
  intros H. unfold main_from_NArg.
  destruct args as [| a args].
  - eexists. split; [reflexivity | reflexivity].
  - cbn [List.length Nat.eqb].
    destruct (BuildConfigFromFlags o kubeconfig) as [e1 |];
      [eexists; split; [reflexivity | discriminate] |].
    destruct (client_New o) as [e2 |];
      [eexists; split; [reflexivity | discriminate] |].
    destruct (AddToScheme o) as [e3 |];
      [eexists; split; [reflexivity | discriminate] |].
    exfalso. destruct H as [H | [H | [H | H]]];
      [discriminate | | |]; apply H; reflexivity.
Qed.

(** X6.  Without targets, or when the client cannot be set up, [main]
    (of either revision, without [--version]) logs one fatal line and exits
    with status 1 before the first call on the cluster.  The client cannot
    be set up when the kubeconfig that the revision hands to
    [BuildConfigFromFlags] does not load, or when the construction of the
    client or the registration of the scheme fails.  The targets are
    counted first: without targets the kubeconfig is not even looked at. *)
Theorem main_stops_before_the_first_call (cl : CommandLine) (o : Outside)
    (w : W) (run : Ended * W * list Event) (kubeconfig : string) :
  opt_version cl = false ->
  (run = V1_main cl o w
   /\ kubeconfig = match opt_kubeconfig cl with
                   | Some path => path
                   | None => env_KUBECONFIG o
                   end)
  \/ (run = V2_main cl o w
      /\ kubeconfig = match opt_kubeconfig cl with
                      | Some path =>
                          if String.eqb path "" then env_KUBECONFIG o
                          else path
                      | None => env_KUBECONFIG o
                      end) ->
  (opt_args cl = []
   \/ BuildConfigFromFlags o kubeconfig <> None
   \/ client_New o <> None
   \/ AddToScheme o <> None) ->
  ended_exit (value_of run) = ExitStatus 1
  /\ world_of run = w
  /\ calls (trace_of run) = []
  /\ List.length (logged FatalLevel (trace_of run)) = 1%nat
  /\ (opt_args cl = [] ->
      ended_kubeconfig (value_of run) = None
      /\ logged FatalLevel (trace_of run) = ["No CRD names provided."]).
Proof.
  intros Hv Hrun Hsetup.
  assert (H : exists nukeCRD,
             run = atLevel (opt_verbose cl)
                     (main_from_NArg nukeCRD o kubeconfig (opt_args cl)) w).
  { destruct Hrun as [[-> ->] | [-> ->]].
    - exists V1.nukeCRD. reflexivity.
    - unfold V2_main. rewrite Hv. exists V2.nukeCRD.
      destruct (opt_kubeconfig cl) as [path |]; reflexivity. }
  destruct H as (nukeCRD & ->).
  destruct (main_from_NArg_fatal nukeCRD o kubeconfig (opt_args cl) w Hsetup)
    as (msg & Heq & Hmsg).
  unfold atLevel. rewrite Heq. cbn.
  do 4 (split; [reflexivity |]).
  intros Hargs. split.
  - rewrite Hargs. reflexivity.
  - rewrite (Hmsg Hargs). reflexivity.
Qed.

End BeforeTheFirstCall.

Lemma main_stops_before_the_first_call_witness :
  let cl := commandLine (Some "/no/such/file") true false
              ["mytestcrds.omnicorp.com"] in
  let o := withoutFile "/no/such/file" (builtWith "") in
  let run := V2_main (unicode := asciiOnly) cl o demoCluster in
  BuildConfigFromFlags o (env_KUBECONFIG o) = None
  /\ ended_exit (value_of run) = ExitStatus 1
  /\ world_of run = demoCluster
  /\ calls (trace_of run) = []
  /\ List.length (logged FatalLevel (trace_of run)) = 1%nat
  /\ (opt_args cl = [] ->
      ended_kubeconfig (value_of run) = None
      /\ logged FatalLevel (trace_of run) = ["No CRD names provided."]).
Proof.
  intros cl o run. split; [reflexivity |].
  apply (main_stops_before_the_first_call (client := ClusterClient)
           (unicode := asciiOnly) cl o demoCluster run "/no/such/file").
  - reflexivity.
  - right. split; reflexivity.
  - right. left. discriminate.
Defined.

Example main_without_targets :
  let cl := commandLine (Some "/no/such/file") false false [] in
  let o := withoutFile "/no/such/file" (builtWith "") in
  V2_main (unicode := asciiOnly) cl o demoCluster
  = ({| ended_exit := ExitStatus 1; ended_stdout := [];
        ended_kubeconfig := None |}, demoCluster,
     [Log FatalLevel [] "No CRD names provided."]).
Proof. reflexivity. Qed.

Example main_with_a_missing_kubeconfig :
  let cl := commandLine (Some "/no/such/file") false false
              ["mytestcrds.omnicorp.com"] in
  let o := withoutFile "/no/such/file" (builtWith "") in
  V2_main (unicode := asciiOnly) cl o demoCluster
  = ({| ended_exit := ExitStatus 1; ended_stdout := [];
        ended_kubeconfig := Some "/no/such/file" |}, demoCluster,
     [Log FatalLevel []
        "Failed to create kube client: stat /no/such/file: no such file or directory"]).
Proof. reflexivity. Qed.

(** ** The log of a run *)

Lemma unlogged_app (t1 t2 : list Event) :
  unlogged (t1 ++ t2) = (unlogged t1 ++ unlogged t2)%list.
Proof. apply filter_app. Qed.

Lemma announced_app (log : Logger) (t1 t2 : list Event) :
  announced log (t1 ++ t2) = (announced log t1 ++ announced log t2)%list.
Proof.
  induction t1 as [| ev t1 IH]; [reflexivity |].
  destruct ev as [c o | d | l fields msg]; simpl; try (rewrite IH; reflexivity).
  destruct c as [name | crd | | av kind opts | obj [original]]; simpl;
    rewrite IH; reflexivity.
Qed.

Lemma told_nil (log : Logger) : told log [].
Proof. reflexivity. Qed.

Lemma told_app (log : Logger) (t1 t2 : list Event) :
  told log t1 -> told log t2 -> told log (t1 ++ t2).
Proof.
  unfold told. intros H1 H2.
  rewrite unlogged_app, announced_app, <- H1, <- H2. reflexivity.
Qed.

(** A call that is no patch, with its outcome. *)
Lemma told_call (log : Logger) (c : Call) (o : option error)
    (tr : list Event) :
  isPatchCall c = false -> told log tr -> told log (Api c o :: tr).
Proof.
  unfold told. intros Hc H.
  destruct c; try discriminate Hc; simpl; rewrite <- H; reflexivity.
Qed.

Lemma told_wait (log : Logger) (d : Z) (tr : list Event) :
  told log tr -> told log (Wait d :: tr).
Proof. unfold told. intros H. simpl. rewrite <- H. reflexivity. Qed.

Lemma told_patch (log : Logger) (obj : Unstructured) (o : option error)
    (tr : list Event) :
  told log tr ->
  told log (Log DebugLevel (WithField log "resource" (objIdent obj)) "Nuking…"
            :: Api (patchOf obj) o :: tr).
Proof. unfold told. intros H. simpl. rewrite <- H. reflexivity. Qed.

Lemma told_laterFetches (log : Logger) (crdName : string)
    (outcomes : list (option error)) :
  told log (laterFetches crdName outcomes).
Proof.
  induction outcomes as [| o rest IH]; [apply told_nil |].
  simpl. apply told_wait. apply told_call; [reflexivity | exact IH].
Qed.

Lemma told_pollFetches (log : Logger) (crdName : string)
    (outcomes : list (option error)) :
  told log (pollFetches crdName outcomes).
Proof.
  destruct outcomes as [| o rest]; [apply told_nil |].
  simpl. apply told_call; [reflexivity | apply told_laterFetches].
Qed.

(** A line at the head or at the end of what is told is the only thing
    that is not. *)
Lemma told_between (log : Logger) (first : Event) (middle last : list Event) :
  isLine first = true ->
  forallb isLine last = true ->
  told log middle ->
  (first :: middle ++ last)%list
  = (first :: announced log (unlogged (first :: middle ++ last)) ++ last)%list.
Proof.
  intros Hfirst Hlast Hmiddle.
  assert (Hu : unlogged last = []).
  { induction last as [| ev last IH]; [reflexivity |].
    simpl in Hlast. apply andb_true_iff in Hlast. destruct Hlast as [Hev Hl].
    unfold unlogged in *. simpl. rewrite Hev. simpl. exact (IH Hl). }
  unfold unlogged at 1. cbn [filter]. rewrite Hfirst. cbn [negb].
  fold (unlogged (middle ++ last)).
  rewrite unlogged_app, Hu, app_nil_r, <- Hmiddle. reflexivity.
Qed.

Lemma lines_app (level : Level) (t1 t2 : list Event) :
  lines level (t1 ++ t2) = (lines level t1 ++ lines level t2)%list.
Proof.
  induction t1 as [| ev t1 IH]; [reflexivity |].
  destruct ev as [c o | d | l fields msg]; simpl; try exact IH.
  destruct (Level_eqb level l); simpl; rewrite IH; reflexivity.
Qed.

(** What is told has debug lines only. *)
Lemma told_lines (log : Logger) (level : Level) (tr : list Event) :
  level <> DebugLevel -> told log tr -> lines level tr = [].
Proof.
  unfold told. intros Hlevel ->.
  induction tr as [| ev tr IH]; [reflexivity |].
  destruct ev as [c o | d | l fields msg]; simpl; try exact IH.
  destruct c as [name | crd | | av kind opts | obj [original]]; simpl;
    try exact IH.
  destruct level; simpl; try exact IH. contradiction.
Qed.

Section LogOfARun.

Context {W : Type} {client : Client W} {ctx : Ctx W} {unicode : Unicode}.

Lemma removeResourcesWithOpts_loop_told (log : Logger)
    (items : list Unstructured) :
  forall (w : W) r w' tr,
    removeResourcesWithOpts_loop log items w = (r, w', tr) -> told log tr.
Proof.
  induction items as [| obj rest IH]; intros w r w' tr Hrun.
  - inversion Hrun. apply told_nil.
  - destruct (GetFinalizers obj) as [| f fs] eqn:Hfin.
    + rewrite removeResourcesWithOpts_loop_skip in Hrun by assumption. eauto.
    + rewrite removeResourcesWithOpts_loop_patch in Hrun
        by (rewrite Hfin; discriminate).
      cbv zeta in Hrun.
      destruct (client_Patch (SetFinalizers_nil obj) (MergeFrom obj) w)
        as [[err |] w1]; simpl in Hrun.
      * inversion Hrun; subst. apply told_patch. apply told_nil.
      * destruct (removeResourcesWithOpts_loop log rest w1)
          as [[r1 w2] t1] eqn:Hrest.
        inversion Hrun; subst. apply told_patch. eauto.
Qed.

Lemma V2_removeResourcesWithOpts_told (log : Logger)
    (crd : CustomResourceDefinition) (opts : ListOptions) (w : W) r w' tr :
  V2.removeResourcesWithOpts log crd opts w = (r, w', tr) -> told log tr.
Proof.
  destruct (getAPIVersion crd) as [apiVersion | e] eqn:Hv.
  - rewrite (V2_removeResourcesWithOpts_run log crd opts _ w Hv). cbv zeta.
    destruct (client_ListObjects apiVersion (spec_Kind crd) opts w)
      as [[items | e] w1].
    + destruct (removeResourcesWithOpts_loop log items w1)
        as [[r1 w2] t1] eqn:Hloop.
      intros Hrun. inversion Hrun; subst.
      apply told_call; [reflexivity |].
      apply (removeResourcesWithOpts_loop_told _ _ _ _ _ _ Hloop).
    + intros Hrun. destruct (IsNotFound e); inversion Hrun; subst;
        (apply told_call; [reflexivity | apply told_nil]).
  - unfold V2.removeResourcesWithOpts. rewrite Hv.
    intros Hrun. inversion Hrun. apply told_nil.
Qed.

Lemma V1_removeResourcesWithOpts_told (log : Logger)
    (crd : CustomResourceDefinition) (opts : ListOptions) (w : W) r w' tr :
  V1.removeResourcesWithOpts log crd opts w = (r, w', tr) -> told log tr.
Proof.
  destruct (getAPIVersion crd) as [apiVersion | e] eqn:Hv.
  - rewrite (V1_removeResourcesWithOpts_run log crd opts _ w Hv). cbv zeta.
    destruct (client_ListObjects apiVersion (spec_Kind crd) opts w)
      as [[items | e] w1].
    + destruct (removeResourcesWithOpts_loop log items w1)
        as [[r1 w2] t1] eqn:Hloop.
      intros Hrun. inversion Hrun; subst.
      apply told_call; [reflexivity |].
      apply (removeResourcesWithOpts_loop_told _ _ _ _ _ _ Hloop).
    + intros Hrun. inversion Hrun; subst.
      apply told_call; [reflexivity | apply told_nil].
  - unfold V1.removeResourcesWithOpts. rewrite Hv.
    intros Hrun. inversion Hrun. apply told_nil.
Qed.

Lemma V2_removeResources_loop_told (log : Logger)
    (crd : CustomResourceDefinition) (namespaces : list Namespace) :
  forall (w : W) r w' tr,
    V2.removeResources_loop log crd namespaces w = (r, w', tr) ->
    told log tr.
Proof.
  induction namespaces as [| ns rest IH]; intros w r w' tr Hrun.
  - inversion Hrun. apply told_nil.
  - simpl in Hrun. unfold bind in Hrun.
    destruct (V2.removeResourcesWithOpts log crd (Some (ns_Name ns)) w)
      as [[r1 w1] t1] eqn:Hone.
    apply V2_removeResourcesWithOpts_told in Hone.
    destruct r1 as [err |].
    + inversion Hrun; subst. rewrite app_nil_r. exact Hone.
    + destruct (V2.removeResources_loop log crd rest w1)
        as [[r2 w2] t2] eqn:Hrest.
      inversion Hrun; subst. apply told_app; [exact Hone | eauto].
Qed.

Lemma V1_removeResources_loop_told (log : Logger)
    (crd : CustomResourceDefinition) (namespaces : list Namespace) :
  forall (w : W) r w' tr,
    V1.removeResources_loop log crd namespaces w = (r, w', tr) ->
    told log tr.
Proof.
  induction namespaces as [| ns rest IH]; intros w r w' tr Hrun.
  - inversion Hrun. apply told_nil.
  - simpl in Hrun. unfold bind in Hrun.
    destruct (V1.removeResourcesWithOpts log crd (Some (ns_Name ns)) w)
      as [[r1 w1] t1] eqn:Hone.
    apply V1_removeResourcesWithOpts_told in Hone.
    destruct r1 as [err |].
    + inversion Hrun; subst. rewrite app_nil_r. exact Hone.
    + destruct (V1.removeResources_loop log crd rest w1)
        as [[r2 w2] t2] eqn:Hrest.
      inversion Hrun; subst. apply told_app; [exact Hone | eauto].
Qed.

Lemma V2_removeResources_told (log : Logger)
    (crd : CustomResourceDefinition) (w : W) r w' tr :
  V2.removeResources log crd w = (r, w', tr) -> told log tr.
Proof.
  rewrite V2_removeResources_run. destruct (spec_Scope crd).
  - destruct (client_ListNamespaces w) as [[items | e] w1].
    + destruct (V2.removeResources_loop log crd items w1)
        as [[r2 w2] t2] eqn:Hloop.
      intros Hrun. inversion Hrun; subst.
      apply told_call; [reflexivity |].
      apply (V2_removeResources_loop_told _ _ _ _ _ _ _ Hloop).
    + intros Hrun. destruct (IsNotFound e); inversion Hrun; subst;
        (apply told_call; [reflexivity | apply told_nil]).
  - apply V2_removeResourcesWithOpts_told.
Qed.

Lemma V1_removeResources_told (log : Logger)
    (crd : CustomResourceDefinition) (w : W) r w' tr :
  V1.removeResources log crd w = (r, w', tr) -> told log tr.
Proof.
  unfold V1.removeResources. destruct (spec_Scope crd).
  - unfold bind, ListNamespaces.
    destruct (client_ListNamespaces w) as [[items | e] w1]; cbn iota beta.
    + destruct (V1.removeResources_loop log crd items w1)
        as [[r2 w2] t2] eqn:Hloop.
      apply V1_removeResources_loop_told in Hloop.
      destruct r2 as [err |]; cbn iota beta.
      * intros Hrun. inversion Hrun; subst. simpl. rewrite app_nil_r.
        apply told_call; [reflexivity | exact Hloop].
      * destruct (V1.removeResourcesWithOpts log crd None w2)
          as [[r3 w3] t3] eqn:Hall.
        apply V1_removeResourcesWithOpts_told in Hall.
        intros Hrun. inversion Hrun; subst. simpl.
        apply told_call; [reflexivity |]. apply told_app; assumption.
    + intros Hrun. inversion Hrun; subst.
      apply told_call; [reflexivity | apply told_nil].
  - apply V1_removeResourcesWithOpts_told.
Qed.

Lemma PollUntilContextTimeout_crdGone_told (log : Logger) (crdName : string)
    (w : W) res w' tr :
  PollUntilContextTimeout 100 5000 true (V2.crdGone crdName) w
  = (res, w', tr) ->
  told log tr.
Proof.
  intros Hpoll.
  destruct (PollUntilContextTimeout_crdGone _ _ _ _ _ Hpoll)
    as [n [(d & err & _ & -> & _) | (_ & e & _ & _ & -> & _)]].
  - apply told_app; [apply told_pollFetches |].
    apply told_wait. apply told_nil.
  - apply told_pollFetches.
Qed.

End LogOfARun.

Section LogOfNuke.

Context {W : Type} {client : Client W} {ctx : Ctx W} {unicode : Unicode}.

Lemma logOf_missing (log : Logger) (crdName : string) (e : error) :
  logOf log crdName None
    [Log InfoLevel log "Nuking…"; Api (CallGet crdName) (Some e);
     Log DebugLevel log "CRD does not exist."].
Proof.
  exists [Api (CallGet crdName) (Some e)],
         [Log DebugLevel log "CRD does not exist."].
  split; [reflexivity |].
  split; [apply told_call; [reflexivity | apply told_nil] |].
  right. split; [reflexivity |]. left. split; [reflexivity |].
  exists e. reflexivity.
Qed.

Lemma logOf_told (log : Logger) (crdName : string) (r : option error)
    (middle : list Event) :
  told log middle ->
  logOf log crdName r (Log InfoLevel log "Nuking…" :: middle).
Proof.
  intros H. exists middle, []. rewrite app_nil_r. auto.
Qed.

Lemma logOf_warned (log : Logger) (crdName : string) (middle : list Event) :
  told log middle ->
  logOf log crdName None
    (Log InfoLevel log "Nuking…" :: middle ++ [Log WarnLevel log stillExists]).
Proof.
  intros H. exists middle, [Log WarnLevel log stillExists].
  split; [reflexivity |]. split; [exact H |].
  right. split; [reflexivity |]. right. reflexivity.
Qed.

Lemma V2_nukeCRD_logOf (log : Logger) (crdName : string) (w : W) r w' tr :
  V2.nukeCRD log crdName w = (r, w', tr) -> logOf log crdName r tr.
Proof.
  destruct (client_Get crdName w) as [[crd | e] w1] eqn:Hget.
  - destruct (client_Delete crd w1) as [[e |] w2] eqn:Hdel.
    + unfold V2.nukeCRD. step. rewrite Hget. simpl. rewrite Hdel. simpl.
      intros Hrun. inversion Hrun; subst. apply logOf_told.
      repeat (apply told_call; [reflexivity |]). apply told_nil.
    + destruct (V2.removeResources log crd w2) as [[rs w3] ts] eqn:Hsweep.
      pose proof (V2_removeResources_told _ _ _ _ _ _ Hsweep) as Hts.
      destruct rs as [err |].
      * unfold V2.nukeCRD. unfold bind, logf, emit, Get, Delete, ret.
        rewrite Hget. cbn iota beta. rewrite Hdel. cbn iota beta.
        rewrite Hsweep. cbn iota beta.
        intros Hrun. inversion Hrun; subst. simpl. rewrite app_nil_r.
        apply logOf_told.
        repeat (apply told_call; [reflexivity |]). exact Hts.
      * rewrite (V2_nukeCRD_wait log crdName crd w w1 w2 w3 ts
                   Hget Hdel Hsweep).
        destruct (PollUntilContextTimeout 100 5000 true
                    (V2.crdGone crdName) w3) as [[res w4] tp] eqn:Hpoll.
        pose proof (PollUntilContextTimeout_crdGone_told log _ _ _ _ _ Hpoll)
          as Htp.
        assert (Hmiddle : told log
                  (Api (CallGet crdName) None :: Api (CallDelete crd) None
                   :: ts ++ tp)).
        { repeat (apply told_call; [reflexivity |]).
          apply told_app; assumption. }
        unfold fetchedAndDeleted.
        destruct res as [e |]; [destruct (Interrupted e) |];
          intros Hrun; inversion Hrun; subst; simpl.
        -- rewrite app_assoc. apply (logOf_warned log crdName _ Hmiddle).
        -- apply (logOf_told log crdName _ _ Hmiddle).
        -- apply (logOf_told log crdName _ _ Hmiddle).
  - unfold V2.nukeCRD. step. rewrite Hget. simpl.
    intros Hrun. destruct (IsNotFound e); inversion Hrun; subst.
    + apply logOf_missing.
    + apply logOf_told. apply told_call; [reflexivity | apply told_nil].
Qed.

Lemma V1_nukeCRD_logOf (log : Logger) (crdName : string) (w : W) r w' tr :
  V1.nukeCRD log crdName w = (r, w', tr) -> logOf log crdName r tr.
Proof.
  destruct (client_Get crdName w) as [[crd | e] w1] eqn:Hget.
  - destruct (client_Delete crd w1) as [[e |] w2] eqn:Hdel.
    + unfold V1.nukeCRD. step. rewrite Hget. simpl. rewrite Hdel. simpl.
      intros Hrun. inversion Hrun; subst. apply logOf_told.
      repeat (apply told_call; [reflexivity |]). apply told_nil.
    + destruct (V1.removeResources log crd w2) as [[rs w3] ts] eqn:Hsweep.
      pose proof (V1_removeResources_told _ _ _ _ _ _ Hsweep) as Hts.
      destruct rs as [err |].
      * unfold V1.nukeCRD. unfold bind, logf, Sleep, emit, Get, Delete, ret.
        rewrite Hget. cbn iota beta. rewrite Hdel. cbn iota beta.
        rewrite Hsweep. cbn iota beta.
        intros Hrun. inversion Hrun; subst. simpl. rewrite app_nil_r.
        apply logOf_told.
        repeat (apply told_call; [reflexivity |]). exact Hts.
      * rewrite (V1_nukeCRD_wait log crdName crd w w1 w2 w3 ts
                   Hget Hdel Hsweep).
        assert (Hmiddle : forall o,
                   told log
                     (Api (CallGet crdName) None :: Api (CallDelete crd) None
                      :: ts ++ [Wait 3000; Api (CallGet crdName) o])).
        { intros o. repeat (apply told_call; [reflexivity |]).
          apply told_app; [exact Hts |].
          apply told_wait. apply told_call; [reflexivity | apply told_nil]. }
        unfold fetchedAndDeleted.
        destruct (client_Get crdName w3) as [[crd' | e] w4];
          intros Hrun; inversion Hrun; subst; simpl.
        -- change (ts ++ [Wait 3000; Api (CallGet crdName) None;
                          Log WarnLevel log stillExists])%list
             with (ts ++ [Wait 3000; Api (CallGet crdName) None]
                   ++ [Log WarnLevel log stillExists])%list.
           rewrite app_assoc.
           apply (logOf_warned log crdName _ (Hmiddle None)).
        -- apply (logOf_told log crdName _ _ (Hmiddle (Some e))).
  - unfold V1.nukeCRD. step. rewrite Hget. simpl.
    intros Hrun. destruct (IsNotFound e); inversion Hrun; subst.
    + apply logOf_missing.
    + apply logOf_told. apply told_call; [reflexivity | apply told_nil].
Qed.

End LogOfNuke.

Lemma logOf_shape (log : Logger) (crdName : string) (r : option error)
    (tr : list Event) :
  logOf log crdName r tr ->
  exists last,
    tr = (Log InfoLevel log "Nuking…"
          :: announced log (unlogged tr) ++ last)%list
    /\ (last = []
        \/ r = None
           /\ (last = [Log DebugLevel log "CRD does not exist."]
               /\ (exists e, unlogged tr = [Api (CallGet crdName) (Some e)])
               \/ last = [Log WarnLevel log stillExists])).
Proof.
  intros (middle & last & -> & Hmiddle & Hlast). exists last.
  split.
  - apply told_between; [reflexivity | | exact Hmiddle].
    destruct Hlast as [-> | [_ [[-> _] | ->]]]; reflexivity.
  - destruct Hlast as [-> | [Hr [[-> [e ->]] | ->]]]; auto.
    right. split; [exact Hr |]. left. split; [reflexivity |].
    exists e. reflexivity.
Qed.

Lemma logOf_lines (log : Logger) (crdName : string) (r : option error)
    (tr : list Event) :
  logOf log crdName r tr ->
  lines InfoLevel tr = [(log, "Nuking…")]
  /\ lines ErrorLevel tr = []
  /\ lines FatalLevel tr = [].
Proof.
  intros (middle & last & -> & Hmiddle & Hlast).
  cbn [lines Level_eqb]. rewrite !lines_app.
  rewrite !(told_lines log _ middle) by (discriminate || exact Hmiddle).
  destruct Hlast as [-> | [_ [[-> _] | ->]]]; repeat split.
Qed.

(** X7.  The log of a run of [nukeCRD], in both revisions, can be read off
    its calls.  The first event is the info line [Nuking…].  After it, the
    only lines among the calls and waits are debug lines with the same
    text, one right in front of each patch, with the identity of the
    patched object in the field [resource].  At the end there is at most
    one more line, and only in a run that returns nil: the debug line
    [CRD does not exist.] when the run was one fetch that failed, or the
    warning that the CRD still exists.  No line is logged at the error or
    fatal level, and every line carries the fields of the logger that was
    handed in. *)
Theorem nukeCRD_log {W : Type} {client : Client W} {ctx : Ctx W}
    (log : Logger) (crdName : string) (w : W)
    (run : option error * W * list Event) :
  run = V1.nukeCRD log crdName w \/ run = V2.nukeCRD log crdName w ->
  (exists last,
      trace_of run
      = (Log InfoLevel log "Nuking…"
         :: announced log (unlogged (trace_of run)) ++ last)%list
      /\ (last = []
          \/ value_of run = None
             /\ (last = [Log DebugLevel log "CRD does not exist."]
                 /\ (exists e,
                        unlogged (trace_of run)
                        = [Api (CallGet crdName) (Some e)])
                 \/ last = [Log WarnLevel log stillExists])))
  /\ lines InfoLevel (trace_of run) = [(log, "Nuking…")]
  /\ lines ErrorLevel (trace_of run) = []
  /\ lines FatalLevel (trace_of run) = [].
Proof.
  intros Hrun.
  assert (H : logOf log crdName (value_of run) (trace_of run)).
  { destruct run as [[r w'] tr]. destruct Hrun as [Hrun | Hrun];
      symmetry in Hrun.
    - exact (V1_nukeCRD_logOf _ _ _ _ _ _ Hrun).
    - exact (V2_nukeCRD_logOf _ _ _ _ _ _ Hrun). }
  split; [exact (logOf_shape _ _ _ _ H) | exact (logOf_lines _ _ _ _ H)].
Qed.

Lemma nukeCRD_log_witness :
  let log := WithField [] "crd" "mytestcrds.omnicorp.com" in
  let run := V2.nukeCRD log "mytestcrds.omnicorp.com" blockedCluster in
  (exists last,
      trace_of run
      = (Log InfoLevel log "Nuking…"
         :: announced log (unlogged (trace_of run)) ++ last)%list
      /\ (last = []
          \/ value_of run = None
             /\ (last = [Log DebugLevel log "CRD does not exist."]
                 /\ (exists e,
                        unlogged (trace_of run)
                        = [Api (CallGet "mytestcrds.omnicorp.com") (Some e)])
                 \/ last = [Log WarnLevel log stillExists])))
  /\ lines InfoLevel (trace_of run) = [(log, "Nuking…")]
  /\ lines ErrorLevel (trace_of run) = []
  /\ lines FatalLevel (trace_of run) = [].
Proof.
  intros log run.
  apply (nukeCRD_log (client := ClusterClient) log
           "mytestcrds.omnicorp.com" blockedCluster run).
  right. reflexivity.
Defined.

Example nukeCRD_log_run :
  let log := WithField [] "crd" "mytestcrds.omnicorp.com" in
  let run := V2.nukeCRD log "mytestcrds.omnicorp.com" demoCluster in
  lines DebugLevel (trace_of run)
  = [([("crd", "mytestcrds.omnicorp.com"); ("resource", "ns1/a")], "Nuking…");
     ([("crd", "mytestcrds.omnicorp.com"); ("resource", "ns2/c")], "Nuking…")]
  /\ lines WarnLevel
       (trace_of (V2.nukeCRD log "mytestcrds.omnicorp.com" blockedCluster))
     = [(log, stillExists)].
Proof. split; vm_compute; reflexivity. Qed.

(** ** The log of [main] *)

Lemma filter_written_lines (verbose : bool) (level : Level)
    (tr : list Event) :
  level <> DebugLevel ->
  lines level (filter (written verbose) tr) = lines level tr.
Proof.
  intros Hlevel. induction tr as [| ev tr IH]; [reflexivity |].
  destruct ev as [c o | d | l fields msg]; simpl; try exact IH.
  destruct l; simpl; try (rewrite IH; reflexivity).
  destruct verbose; simpl; [rewrite IH; reflexivity |].
  destruct level; try exact IH. contradiction.
Qed.

Lemma failures_none {unicode : Unicode} (args : list string) :
  forall runs : list (option error * list Event),
    List.length runs = List.length args ->
    (failures args runs = [] <-> existsb failed runs = false).
Proof.
  induction args as [| target args IH]; intros runs Hlen.
  - destruct runs; [| discriminate]. split; reflexivity.
  - destruct runs as [| [r tr] runs]; [discriminate |].
    injection Hlen as Hlen. specialize (IH runs Hlen).
    cbn [failures existsb]. unfold failure, failed. cbn [fst].
    destruct r as [err |]; simpl.
    + split; discriminate.
    + exact IH.
Qed.

Section LogOfMain.

Context {W : Type} {unicode : Unicode}.

Variable nukeCRD : Logger -> string -> M (W := W) (option error).

Hypothesis nukeCRD_logOf :
  forall log crdName (w : W),
    logOf log crdName (value_of (nukeCRD log crdName w))
      (trace_of (nukeCRD log crdName w)).

Lemma main_loop_lines (args : list string) :
  forall (success : bool) (w : W),
    let tr := trace_of (main_loop nukeCRD [] args success w) in
    lines ErrorLevel tr = failures args (targetRuns nukeCRD [] args w)
    /\ lines InfoLevel tr
       = map (fun target => (WithField [] "crd" (ToLower target), "Nuking…"))
           args
    /\ lines FatalLevel tr = [].
Proof.
  induction args as [| crdName rest IH]; intros success w.
  - repeat split.
  - cbn zeta. cbn [main_loop targetRuns]. unfold bind.
    pose proof (nukeCRD_logOf (WithField [] "crd" (ToLower crdName))
                  (ToLower crdName) w) as Hlog.
    destruct (nukeCRD (WithField [] "crd" (ToLower crdName))
                (ToLower crdName) w) as [[r w1] t1].
    unfold value_of, trace_of in Hlog. cbn [fst snd] in Hlog.
    destruct (logOf_lines _ _ _ _ Hlog) as (Hinfo & Herror & Hfatal).
    destruct r as [err |].
    + unfold logf, emit. cbn [fst snd].
      destruct (IH true w1) as (He & Hi & Hf). cbv zeta in He, Hi, Hf.
      destruct (main_loop nukeCRD [] rest true w1) as [[b w2] t2].
      unfold trace_of in *. cbn [fst snd] in *.
      rewrite !lines_app, Hinfo, Herror, Hfatal. cbn [lines Level_eqb app].
      rewrite He, Hi, Hf. repeat split.
    + destruct (IH success w1) as (He & Hi & Hf). cbv zeta in He, Hi, Hf.
      destruct (main_loop nukeCRD [] rest success w1) as [[b w2] t2].
      unfold trace_of in *. cbn [fst snd] in *.
      rewrite !lines_app, Hinfo, Herror, Hfatal, He, Hi, Hf.
      repeat split.
Qed.

(** [main] once the client is set up. *)
Lemma main_from_NArg_run (o : Outside) (kubeconfig : string)
    (args : list string) (w : W) :
  args <> [] ->
  BuildConfigFromFlags o kubeconfig = None ->
  client_New o = None ->
  AddToScheme o = None ->
  main_from_NArg nukeCRD o kubeconfig args w
  = let '(success, w', tr) := main_loop nukeCRD [] args false w in
    ({| ended_exit := ExitStatus (if success : bool then 0 else 1);
        ended_stdout := [];
        ended_kubeconfig := Some kubeconfig |}, w',
     tr ++ (if success : bool
            then [Log InfoLevel [] "Everything nuked successfully."]
            else []))%list.
Proof.
  intros Hargs Hconfig Hnew Hscheme. unfold main_from_NArg.
  destruct args as [| a args]; [contradiction |].
  cbn [List.length Nat.eqb]. rewrite Hconfig, Hnew, Hscheme.
  unfold bind.
  destruct (main_loop nukeCRD [] (a :: args) false w) as [[success w'] tr].
  destruct success; unfold logf, emit, ret; cbn [fst snd];
    rewrite ?app_nil_r; reflexivity.
Qed.

Lemma main_from_NArg_lines (verbose : bool) (o : Outside)
    (kubeconfig : string) (args : list string) (w : W) :
  args <> [] ->
  BuildConfigFromFlags o kubeconfig = None ->
  client_New o = None ->
  AddToScheme o = None ->
  let run := atLevel verbose (main_from_NArg nukeCRD o kubeconfig args) w in
  let runs := targetRuns nukeCRD [] args w in
  lines ErrorLevel (trace_of run) = failures args runs
  /\ lines InfoLevel (trace_of run)
     = (map (fun target => (WithField [] "crd" (ToLower target), "Nuking…"))
          args
        ++ if existsb failed runs
           then [([], "Everything nuked successfully.")]
           else [])%list
  /\ lines FatalLevel (trace_of run) = []
  /\ (In ([], "Everything nuked successfully.")
        (lines InfoLevel (trace_of run))
      <-> lines ErrorLevel (trace_of run) <> []).
Proof.
  intros Hargs Hconfig Hnew Hscheme run runs. subst run.
  unfold atLevel.
  rewrite (main_from_NArg_run o kubeconfig args w Hargs Hconfig Hnew Hscheme).
  destruct (main_loop_runs nukeCRD [] args false w) as [Hv _].
  destruct (main_loop_lines args false w) as (He & Hi & Hf).
  cbv zeta in He, Hi, Hf.
  destruct (main_loop nukeCRD [] args false w) as [[success w'] tr].
  unfold value_of, trace_of in *. cbn [fst snd] in *.
  rewrite orb_false_l in Hv. fold runs in Hv, He. rewrite <- Hv.
  rewrite !filter_written_lines by discriminate.
  rewrite !lines_app, He, Hi, Hf.
  assert (Hnone : failures args runs = [] <-> success = false).
  { rewrite Hv. apply failures_none. apply targetRuns_length. }
  assert (Hlast : lines ErrorLevel
                    (if success
                     then [Log InfoLevel [] "Everything nuked successfully."]
                     else []) = []
                  /\ lines FatalLevel
                       (if success
                        then [Log InfoLevel []
                                "Everything nuked successfully."]
                        else []) = []
                  /\ lines InfoLevel
                       (if success
                        then [Log InfoLevel []
                                "Everything nuked successfully."]
                        else [])
                     = if success
                       then [([], "Everything nuked successfully.")]
                       else []).
  { destruct success; repeat split. }
  destruct Hlast as (-> & -> & ->). rewrite !app_nil_r.
  split; [reflexivity |]. split; [reflexivity |]. split; [reflexivity |].
  split.
  - intros Hin Hfail. apply Hnone in Hfail. rewrite Hfail in Hin.
    rewrite app_nil_r in Hin. apply in_map_iff in Hin.
    destruct Hin as (target & Heq & _). discriminate Heq.
  - intros Hfail. destruct success.
    + apply in_or_app. right. left. reflexivity.
    + exfalso. apply Hfail. apply Hnone. reflexivity.
Qed.

End LogOfMain.

(** X8.  What [main] logs once the client is set up, in both revisions
    and with or without [--verbose]: targets are given, the kubeconfig
    that the revision hands to [BuildConfigFromFlags] loads, and the
    client and its scheme are made.  At the info level: the line
    [Nuking…] of each target, in the order of the command line, with the
    lower-cased name of the target in the field [crd]; and after them the
    line [Everything nuked successfully.] if a target failed, nothing if
    none did.  At the error level: for each target that failed, in order,
    one line [Failed to nuke: ] with the text of its error and the same
    field.  Nothing at the fatal level.  So the line that everything was
    nuked is logged in the runs that have logged a failure, and in no
    other. *)
Theorem main_log_lines {W : Type} {client : Client W} {ctx : Ctx W}
    {unicode : Unicode} (cl : CommandLine) (o : Outside) (w : W)
    (nuke : Logger -> string -> M (W := W) (option error))
    (run : Ended * W * list Event) (kubeconfig : string) :
  opt_version cl = false ->
  opt_args cl <> [] ->
  (nuke = V1.nukeCRD /\ run = V1_main cl o w
   /\ kubeconfig = match opt_kubeconfig cl with
                   | Some path => path
                   | None => env_KUBECONFIG o
                   end)
  \/ (nuke = V2.nukeCRD /\ run = V2_main cl o w
      /\ kubeconfig = match opt_kubeconfig cl with
                      | Some path =>
                          if String.eqb path "" then env_KUBECONFIG o
                          else path
                      | None => env_KUBECONFIG o
                      end) ->
  BuildConfigFromFlags o kubeconfig = None ->
  client_New o = None ->
  AddToScheme o = None ->
  let runs := targetRuns nuke [] (opt_args cl) w in
  lines ErrorLevel (trace_of run) = failures (opt_args cl) runs
  /\ lines InfoLevel (trace_of run)
     = (map (fun target => (WithField [] "crd" (ToLower target), "Nuking…"))
          (opt_args cl)
        ++ if existsb failed runs
           then [([], "Everything nuked successfully.")]
           else [])%list
  /\ lines FatalLevel (trace_of run) = []
  /\ (In ([], "Everything nuked successfully.")
        (lines InfoLevel (trace_of run))
      <-> lines ErrorLevel (trace_of run) <> []).
Proof.
  intros Hv Hargs Hrun Hconfig Hnew Hscheme.
  assert (H : run = atLevel (opt_verbose cl)
                      (main_from_NArg nuke o kubeconfig (opt_args cl)) w
              /\ forall log crdName (w0 : W),
                   logOf log crdName (value_of (nuke log crdName w0))
                     (trace_of (nuke log crdName w0))).
  { destruct Hrun as [(-> & -> & ->) | (-> & -> & ->)].
    - split; [reflexivity |]. intros log crdName w0.
      destruct (V1.nukeCRD log crdName w0) as [[r w'] tr] eqn:Hone.
      exact (V1_nukeCRD_logOf _ _ _ _ _ _ Hone).
    - split.
      + unfold V2_main. rewrite Hv.
        destruct (opt_kubeconfig cl) as [path |]; reflexivity.
      + intros log crdName w0.
        destruct (V2.nukeCRD log crdName w0) as [[r w'] tr] eqn:Hone.
        exact (V2_nukeCRD_logOf _ _ _ _ _ _ Hone). }
  destruct H as [-> Hlog].
  apply (main_from_NArg_lines nuke Hlog); assumption.
Qed.

Lemma main_log_lines_witness :
  let cl := commandLine None false false
              ["Bad.Omnicorp.com"; "good.omnicorp.com"] in
  let o := withoutFile "/no/such/file" (builtWith "") in
  let script := [ReplyGet (Err forbidden); ReplyGet (Err notFoundError)] in
  let run := V2_main (unicode := asciiOnly) cl o script in
  let runs := targetRuns (unicode := asciiOnly) V2.nukeCRD []
                (opt_args cl) script in
  lines ErrorLevel (trace_of run)
  = failures (unicode := asciiOnly) (opt_args cl) runs
  /\ lines InfoLevel (trace_of run)
     = (map (fun target =>
               (WithField [] "crd" (ToLower (unicode := asciiOnly) target),
                "Nuking…"))
          (opt_args cl)
        ++ if existsb failed runs
           then [([], "Everything nuked successfully.")]
           else [])%list
  /\ lines FatalLevel (trace_of run) = []
  /\ (In ([], "Everything nuked successfully.")
        (lines InfoLevel (trace_of run))
      <-> lines ErrorLevel (trace_of run) <> []).
Proof.
  intros cl o script run runs.
  apply (main_log_lines (client := ScriptClient) (unicode := asciiOnly)
           cl o script V2.nukeCRD run "/home/me/.kube/config");
    try reflexivity.
  - discriminate.
  - right. repeat split.
Defined.

Example main_log_of_a_failure :
  let cl := commandLine None false false
              ["Bad.Omnicorp.com"; "good.omnicorp.com"] in
  let script := [ReplyGet (Err forbidden); ReplyGet (Err notFoundError)] in
  let run := V2_main (unicode := asciiOnly) cl (builtWith "") script in
  ended_exit (value_of run) = ExitStatus 0
  /\ trace_of run
     = [Log InfoLevel [("crd", "bad.omnicorp.com")] "Nuking…";
        Api (CallGet "bad.omnicorp.com") (Some forbidden);
        Log ErrorLevel [("crd", "bad.omnicorp.com")]
          "Failed to nuke: failed to retrieve CRD: forbidden";
        Log InfoLevel [("crd", "good.omnicorp.com")] "Nuking…";
        Api (CallGet "good.omnicorp.com") (Some notFoundError);
        Log InfoLevel [] "Everything nuked successfully."].
Proof. split; reflexivity. Qed.

(** ** The kubeconfig *)




(** ** The case of a target *)

Lemma main_loop_ToLower {W : Type} {unicode : Unicode}
    (nukeCRD : Logger -> string -> M (W := W) (option error)) (log : Logger)
    (args : list string) :
  forall (args' : list string) (success : bool) (w : W),
    map ToLower args = map ToLower args' ->
    main_loop nukeCRD log args success w
    = main_loop nukeCRD log args' success w.
Proof.
  induction args as [| a args IH]; intros args' success w Heq;
    destruct args' as [| a' args']; try discriminate Heq; [reflexivity |].
  cbn [map] in Heq. injection Heq as Ha Hrest.
  cbn [main_loop]. cbv zeta. rewrite <- Ha. unfold bind.
  destruct (nukeCRD (WithField log "crd" (ToLower a)) (ToLower a) w)
    as [[r w1] t1].
  destruct r as [err |].
  - unfold logf, emit. cbn [fst snd].
    rewrite (IH args' true w1 Hrest). reflexivity.
  - rewrite (IH args' success w1 Hrest). reflexivity.
Qed.

Lemma main_from_NArg_ToLower {W : Type} {unicode : Unicode}
    (nukeCRD : Logger -> string -> M (W := W) (option error))
    (o : Outside) (kubeconfig : string) (args args' : list string) (w : W) :
  map ToLower args = map ToLower args' ->
  main_from_NArg nukeCRD o kubeconfig args w
  = main_from_NArg nukeCRD o kubeconfig args' w.
Proof.
  intros Heq. unfold main_from_NArg.
  assert (Hlen : List.length args = List.length args').
  { rewrite <- (length_map ToLower args), Heq. apply length_map. }
  rewrite Hlen.
  destruct (List.length args' =? 0)%nat; [reflexivity |].
  destruct (BuildConfigFromFlags o kubeconfig); [reflexivity |].
  destruct (client_New o); [reflexivity |].
  destruct (AddToScheme o); [reflexivity |].
  unfold bind.
  rewrite (main_loop_ToLower nukeCRD [] args args' false w Heq).
  reflexivity.
Qed.

(** X10.  [main] passes each target through [strings.ToLower] before
    anything else is done with it, and uses it in no other way.  So two
    command lines with the same flags whose targets agree once they are
    lower-cased end with the same exit, after the same calls, waits and log
    lines, with the cluster in the same state, in either revision. *)
Theorem targets_are_case_insensitive {W : Type} {client : Client W}
    {ctx : Ctx W} {unicode : Unicode}
    (cl cl' : CommandLine) (o : Outside) (w : W) :
  opt_kubeconfig cl = opt_kubeconfig cl' ->
  opt_verbose cl = opt_verbose cl' ->
  opt_version cl = opt_version cl' ->
  map ToLower (opt_args cl) = map ToLower (opt_args cl') ->
  V1_main cl o w = V1_main cl' o w /\ V2_main cl o w = V2_main cl' o w.
Proof.
  intros Hk Hverbose Hversion Hargs.
  unfold V1_main, V2_main, atLevel.
  rewrite <- Hk, <- Hverbose, <- Hversion.
  split.
  - rewrite (main_from_NArg_ToLower V1.nukeCRD o _ _ _ w Hargs).
    reflexivity.
  - destruct (opt_version cl); [reflexivity |].
    rewrite (main_from_NArg_ToLower V2.nukeCRD o _ _ _ w Hargs).
    reflexivity.
Qed.

Lemma targets_are_case_insensitive_witness :
  let cl := commandLine None true false ["MyTestCRDs.Omnicorp.COM"] in
  let cl' := commandLine None true false ["mytestcrds.omnicorp.com"] in
  V1_main (unicode := asciiOnly) cl (builtWith "") demoCluster
  = V1_main (unicode := asciiOnly) cl' (builtWith "") demoCluster
  /\ V2_main (unicode := asciiOnly) cl (builtWith "") demoCluster
     = V2_main (unicode := asciiOnly) cl' (builtWith "") demoCluster.
Proof.
  intros cl cl'.
  apply (targets_are_case_insensitive (client := ClusterClient)
           (unicode := asciiOnly)
           cl cl' (builtWith "") demoCluster); reflexivity.
Defined.

(** What lower-casing does to a target: the bytes [A] to [Z] of an ASCII
    name are mapped, and a name with a byte beyond ASCII is left to the
    case tables. *)
Example ToLower_of_a_target (unicode : Unicode) :
  ToLower "MyTestCRDs.Omnicorp.COM" = "mytestcrds.omnicorp.com"
  /\ ToLower "ÉCOLES.omnicorp.com"
     = Map_unicode_ToLower "ÉCOLES.omnicorp.com".
Proof. split; reflexivity. Qed.

Example upper_case_target_is_found :
  calls (trace_of (V2_main (unicode := asciiOnly)
                     (commandLine None true false ["MyTestCRDs.Omnicorp.COM"])
                     (builtWith "") demoCluster))
  = [CallGet "mytestcrds.omnicorp.com";
     CallDelete demoCRD;
     CallListNamespaces;
     CallListObjects "omnicorp.com/v1" "MyTestCrd" (Some "ns1");
     CallPatch (SetFinalizers_nil stuckA) (MergeFrom stuckA);
     CallListObjects "omnicorp.com/v1" "MyTestCrd" (Some "ns2");
     CallPatch (SetFinalizers_nil stuckC) (MergeFrom stuckC);
     CallGet "mytestcrds.omnicorp.com"].
Proof. reflexivity. Qed.

(** ** The last look of the first revision *)

(** X11.  The end of [nukeCRD] in the first revision, after the delete and
    a sweep that went through: it waits three seconds, whatever the sweep
    found, and fetches the CRD by its name once.  If the CRD is still
    there it logs the warning and returns nil; if the fetch answers
    not-found it returns nil without a line; and any other failure of the
    fetch, one that wraps a cancelled context or a passed deadline
    included, is returned as the error of the target. *)
Theorem V1_last_look {W : Type} {client : Client W} (log : Logger)
    (crdName : string) (crd : CustomResourceDefinition) (w w1 w2 w3 : W)
    (ts : list Event) :
  client_Get crdName w = (Ok crd, w1) ->
  client_Delete crd w1 = (None, w2) ->
  V1.removeResources log crd w2 = (None, w3, ts) ->
  let run := V1.nukeCRD log crdName w in
  let answer := client_Get crdName w3 in
  exists last,
    trace_of run
    = (fetchedAndDeleted log crdName crd ++ ts
       ++ [Wait 3000; Api (CallGet crdName) (errorOf (fst answer))]
       ++ last)%list
    /\ world_of run = snd answer
    /\ match fst answer with
       | Ok _ =>
           last = [Log WarnLevel log stillExists] /\ value_of run = None
       | Err e =>
           last = []
           /\ value_of run
              = if IsNotFound e then None
                else Some (ErrorfWrap
                             "failed to check final CRD existence: " e)
       end.
Proof.
  intros Hget Hdel Hsweep run answer. subst run answer.
  rewrite (V1_nukeCRD_wait log crdName crd w w1 w2 w3 ts Hget Hdel Hsweep).
  destruct (client_Get crdName w3) as [[crd' | e] w4].
  - exists [Log WarnLevel log stillExists]. repeat split.
  - exists []. repeat split.
Qed.

Lemma V1_last_look_witness :
  let script := waitScript [ReplyGet (Err canceled)] in
  let run := V1.nukeCRD [] "mytestcrds.omnicorp.com" script in
  exists last,
    trace_of run
    = (fetchedAndDeleted [] "mytestcrds.omnicorp.com" clusterCRD
       ++ [Api (CallListObjects "omnicorp.com/v1" "MyTestCrd" None) None]
       ++ [Wait 3000;
           Api (CallGet "mytestcrds.omnicorp.com") (Some canceled)]
       ++ last)%list
    /\ world_of run = []
    /\ last = []
    /\ value_of run
       = Some (ErrorfWrap "failed to check final CRD existence: " canceled).
Proof.
  intros script run.
  apply (V1_last_look (client := ScriptClient) []
           "mytestcrds.omnicorp.com" clusterCRD script
           [ReplyDelete None; ReplyObjects (Ok []); ReplyGet (Err canceled)]
           [ReplyObjects (Ok []); ReplyGet (Err canceled)]
           [ReplyGet (Err canceled)]
           [Api (CallListObjects "omnicorp.com/v1" "MyTestCrd" None) None]);
    reflexivity.
Defined.
